(** * Reward scoring of rl4mol: a shallow embedding and its properties

    The development follows the Python sources

    - [verl/utils/reward_score/rule.py]   (generic tag/content scorer),
    - [verl/utils/reward_score/newkk.py]  (logic-puzzle scorer),
    - [verl/utils/reward_score/chem.py]   (molecule scorer),
    - [verl/workers/reward_manager/logic_rl_reward.py] and
      [verl/workers/reward_manager/chem_reward.py] (reward managers),
    - [scripts/generate_chem_rl_dataset.py] (dataset converter).

    Modelling conventions.

    - A Python [str] is a Rocq [string]; the character numbered [n]
      stands for the code point [n] (0..255).  Every statement about
      "a text" is a statement about the texts of these code points.
      Beyond them [re.IGNORECASE] relates further characters to ASCII
      letters (U+0130 and U+0131 to [i], U+017F to [s], U+212A to [k]),
      which is not modelled.
    - A Python [float] score is an exact rational [Q]; every constant of
      the sources is a decimal literal, written here with the same
      digits.  Equality of scores is [Qeq] ([==]).  The rounding of the
      intermediate results of float arithmetic is not modelled.
    - The reward tensor of a manager has dtype [float32]: a score
      written to it is cast, which the managers take as the function
      [float32].
    - A Python exception is the [Raise] branch of [pyres]; [try/except
      Exception] is [try_except].
    - [print] and [logger] calls have no effect on any returned value and
      are left out. *)

From Stdlib Require Import String Ascii List ZArith QArith Qminmax Qabs Qround Lia Lqa Bool.
Import ListNotations.

Set Implicit Arguments.

Local Open Scope string_scope.
Local Open Scope list_scope.

(* ================================================================== *)
(** * Python values, exceptions and strings                           *)
(* ================================================================== *)

Module Py.

(** The exception classes the modelled code can raise.  All of them are
    subclasses of [Exception]. *)
Inductive exn : Type :=
| NotImplementedError
| NameError
| KeyError
| IndexError
| RuntimeError
| OracleError.

(** The outcome of evaluating a Python expression. *)
Inductive pyres (A : Type) : Type :=
| Ok (a : A)
| Raise (e : exn).

Arguments Ok {A} a.
Arguments Raise {A} e.

Definition bind {A B : Type} (m : pyres A) (k : A -> pyres B) : pyres B :=
  match m with
  | Ok a => k a
  | Raise e => Raise e
  end.

(** [try: m  except Exception: h] *)
Definition try_except {A : Type} (m : pyres A) (h : pyres A) : pyres A :=
  match m with
  | Ok a => Ok a
  | Raise _ => h
  end.

(** A [dict] with string keys and string values, in insertion order. *)
Definition dict : Type := list (string * string).

(** [d.get(key, default)] *)
Fixpoint get (d : dict) (key default : string) : string :=
  match d with
  | [] => default
  | (k, v) :: d' => if String.eqb k key then v else get d' key default
  end.

(** [d[key] = v]: an existing key keeps its place, a new key goes last. *)
Fixpoint setitem (d : dict) (key v : string) : dict :=
  match d with
  | [] => [(key, v)]
  | (k, w) :: d' =>
      if String.eqb k key then (k, v) :: d' else (k, w) :: setitem d' key v
  end.

(** ** Character classes *)

Definition code (c : ascii) : nat := nat_of_ascii c.

Definition between (lo hi n : nat) : bool := (lo <=? n)%nat && (n <=? hi)%nat.

(** [str.isspace] and the regex class [\s] on code points below 256. *)
Definition is_space (c : ascii) : bool :=
  let n := code c in
  between 9 13 n || between 28 32 n || (n =? 133)%nat || (n =? 160)%nat.

(** The regex class [[a-zA-Z]]. *)
Definition is_letter (c : ascii) : bool :=
  let n := code c in between 65 90 n || between 97 122 n.

(** The regex class [\w] of a [str] pattern on code points below 256:
    alphanumeric characters and the underscore. *)
Definition is_word (c : ascii) : bool :=
  let n := code c in
  between 48 57 n || between 65 90 n || (n =? 95)%nat || between 97 122 n
  || (n =? 170)%nat || (n =? 178)%nat || (n =? 179)%nat || (n =? 181)%nat
  || (n =? 185)%nat || (n =? 186)%nat || between 188 190 n
  || between 192 214 n || between 216 246 n || between 248 255 n.

(** [str.lower] on one character. *)
Definition lower_char (c : ascii) : ascii :=
  let n := code c in
  if between 65 90 n || (between 192 222 n && negb (n =? 215)%nat)
  then ascii_of_nat (n + 32) else c.

(** [s.lower()] *)
Fixpoint lower (s : string) : string :=
  match s with
  | EmptyString => EmptyString
  | String c s' => String (lower_char c) (lower s')
  end.

(** Character equality, exact or under [re.IGNORECASE], on code points
    below 256. *)
Definition char_eq (ci : bool) (a b : ascii) : bool :=
  if ci then Ascii.eqb (lower_char a) (lower_char b) else Ascii.eqb a b.

(** ** Slices and stripping *)

(** [s[n:]] *)
Fixpoint drop (n : nat) (s : string) : string :=
  match n, s with
  | O, _ => s
  | S _, EmptyString => EmptyString
  | S n', String _ s' => drop n' s'
  end.

(** [s[:n]] *)
Fixpoint take (n : nat) (s : string) : string :=
  match n, s with
  | O, _ => EmptyString
  | S _, EmptyString => EmptyString
  | S n', String c s' => String c (take n' s')
  end.

(** [s.lstrip()] *)
Fixpoint lstrip (s : string) : string :=
  match s with
  | EmptyString => EmptyString
  | String c s' => if is_space c then lstrip s' else s
  end.

(** [s.rstrip()] *)
Fixpoint rstrip (s : string) : string :=
  match s with
  | EmptyString => EmptyString
  | String c s' =>
      match rstrip s' with
      | EmptyString => if is_space c then EmptyString else String c EmptyString
      | r => String c r
      end
  end.

(** [s.strip()] *)
Definition strip (s : string) : string := rstrip (lstrip s).

(** Truth value of a string: [if s:] *)
Definition truthy (s : string) : bool :=
  match s with
  | EmptyString => false
  | String _ _ => true
  end.

(** ** Scanning for a literal pattern *)

(** [pat] matches at the head of [s] (exactly, or ignoring case). *)
Fixpoint starts_with (ci : bool) (pat s : string) : bool :=
  match pat, s with
  | EmptyString, _ => true
  | String _ _, EmptyString => false
  | String p pat', String c s' => char_eq ci p c && starts_with ci pat' s'
  end.

(** Start offsets of the non-overlapping matches of the literal [pat],
    left to right: [[m.start() for m in re.finditer(pat, s)]] for a
    non-empty literal.  [skip] counts the characters of the previous match
    still to be passed, [pos] is the offset of the head of [s]. *)
Fixpoint finditer_from (ci : bool) (pat : string) (skip pos : nat) (s : string)
  : list nat :=
  match s with
  | EmptyString => []
  | String _ s' =>
      match skip with
      | S k => finditer_from ci pat k (S pos) s'
      | O =>
          if starts_with ci pat s
          then pos :: finditer_from ci pat (String.length pat - 1) (S pos) s'
          else finditer_from ci pat 0 (S pos) s'
      end
  end.

Definition finditer (ci : bool) (pat s : string) : list nat :=
  finditer_from ci pat 0 0 s.

(** The text before the first match of the literal [close] in [s], i.e.
    group 1 of [(.*?)close] matched at the head of [s] under [re.DOTALL]. *)
Fixpoint until (close s : string) : option string :=
  if starts_with false close s then Some EmptyString
  else match s with
       | EmptyString => None
       | String c s' =>
           match until close s' with
           | Some g => Some (String c g)
           | None => None
           end
       end.

(** Group 1 of [re.compile(open + '(.*?)' + close, re.DOTALL).search(s)]
    for non-empty literals: the engine takes the leftmost [open] after
    which some [close] follows, and the lazy group stops at the first
    such [close]. *)
Fixpoint search_content (open close s : string) : option string :=
  match s with
  | EmptyString => None
  | String _ s' =>
      match (if starts_with false open s
             then until close (drop (String.length open) s) else None) with
      | Some g => Some g
      | None => search_content open close s'
      end
  end.

End Py.

(* ================================================================== *)
(** * [rule.py]: the generic tag/content scorer                       *)
(* ================================================================== *)

(** A function body either returns early with a score or continues with
    its local state. *)
Inductive flow (A : Type) : Type :=
| Return (score : Q)
| Continue (a : A).

Arguments Return {A} score.
Arguments Continue {A} a.

(** [tag_positions[k]]; the four keys are present once the tag loop has
    completed, which is the only place the lookup is used. *)
Fixpoint getpos (tag_positions : list (string * nat)) (k : string) : nat :=
  match tag_positions with
  | [] => O
  | (k', p) :: d => if String.eqb k' k then p else getpos d k
  end.

Module Rule.
Import Py.
Local Open Scope Q_scope.

Definition _RE_THINK_START : string := "<think>".
Definition _RE_THINK_END : string := "</think>".
Definition _RE_ANSWER_START : string := "<answer>".
Definition _RE_ANSWER_END : string := "</answer>".

Definition REWARD_TAG_PRESENT : Q := 0.5.
Definition PENALTY_TAG_MISSING_OR_DUPLICATE : Q := -2.0.
Definition REWARD_ORDER_CORRECT : Q := 1.0.
Definition PENALTY_ORDER_INCORRECT : Q := -3.0.
Definition REWARD_CONTENT_NON_EMPTY_THINK : Q := 0.2.
Definition PENALTY_CONTENT_EMPTY_THINK : Q := -0.5.
Definition REWARD_CONTENT_NON_EMPTY_ANSWER : Q := 0.5.
Definition PENALTY_CONTENT_EMPTY_ANSWER : Q := -1.0.

Definition critical_tags_data : list (string * string) :=
  [ ("think_start", _RE_THINK_START);
    ("think_end", _RE_THINK_END);
    ("answer_start", _RE_ANSWER_START);
    ("answer_end", _RE_ANSWER_END) ].

(** Stage 1, the loop of lines 56-69: existence and uniqueness of each
    tag.  Both failing branches add the penalty to the score accumulated
    so far and return it. *)
Fixpoint tag_loop (tags : list (string * string)) (model_response : string)
    (score : Q) (tag_positions : list (string * nat))
  : flow (Q * list (string * nat)) :=
  match tags with
  | [] => Continue (score, tag_positions)
  | (tag_name, pattern) :: rest =>
      let matches := finditer false pattern model_response in
      if (List.length matches =? 1)%nat then
        tag_loop rest model_response (score + REWARD_TAG_PRESENT)
          (tag_positions ++ [(tag_name, hd O matches)])
      else if (List.length matches =? 0)%nat then
        Return (score + PENALTY_TAG_MISSING_OR_DUPLICATE)
      else
        Return (score + PENALTY_TAG_MISSING_OR_DUPLICATE)
  end.

(** Stage 2, lines 77-88: the order of the four start offsets. *)
Definition order_check (score : Q) (tag_positions : list (string * nat))
  : flow Q :=
  let ts_start := getpos tag_positions "think_start" in
  let te_start := getpos tag_positions "think_end" in
  let as_start := getpos tag_positions "answer_start" in
  let ae_start := getpos tag_positions "answer_end" in
  if (ts_start <? te_start)%nat && (te_start <? as_start)%nat
     && (as_start <? ae_start)%nat
  then Continue (score + REWARD_ORDER_CORRECT)
  else Return (score + PENALTY_ORDER_INCORRECT).

(** [m and m.group(1).strip()] as a condition. *)
Definition content_non_empty (m : option string) : bool :=
  match m with
  | Some g => truthy (strip g)
  | None => false
  end.

(** Stage 3, lines 96-110: emptiness of the two content blocks. *)
Definition content_stage (model_response : string) (score : Q) : Q :=
  let think_content_match :=
    search_content "<think>" "</think>" model_response in
  let score :=
    if content_non_empty think_content_match
    then score + REWARD_CONTENT_NON_EMPTY_THINK
    else score + PENALTY_CONTENT_EMPTY_THINK in
  let answer_content_match :=
    search_content "<answer>" "</answer>" model_response in
  if content_non_empty answer_content_match
  then score + REWARD_CONTENT_NON_EMPTY_ANSWER
  else score + PENALTY_CONTENT_EMPTY_ANSWER.

(** Stages 1 and 2 together: the structural verdict on a response. *)
Definition structural_check (model_response : string) : flow Q :=
  let score := 0.0 in
  match tag_loop critical_tags_data model_response score [] with
  | Return r => Return r
  | Continue (score, tag_positions) => order_check score tag_positions
  end.

(** [compute_score(model_response, ground_truth)] *)
Definition compute_score (model_response : string) (ground_truth : dict) : Q :=
  match structural_check model_response with
  | Return r => r
  | Continue score => content_stage model_response score
  end.

End Rule.

(* ================================================================== *)
(** * [newkk.py]: the logic-puzzle scorer                             *)
(* ================================================================== *)

Module Newkk.
Import Py.
Local Open Scope Q_scope.

Definition _RE_THINK_START : string := "<think>".
Definition _RE_THINK_END : string := "</think>".
Definition _RE_ANSWER_START : string := "<answer>".
Definition _RE_ANSWER_END : string := "</answer>".

(** ** The word-boundary patterns *)

Definition word_opt (c : option ascii) : bool :=
  match c with
  | Some c => is_word c
  | None => false
  end.

Definition head (s : string) : option ascii :=
  match s with
  | EmptyString => None
  | String c _ => Some c
  end.

(** [\b] between the character [prev] and the head of [s]. *)
Definition boundary (prev : option ascii) (s : string) : bool :=
  xorb (word_opt prev) (word_opt (head s)).

(** The literal [pat] at the head of [s]; gives the last character passed
    and the rest of the text. *)
Fixpoint match_lit (ci : bool) (pat : string) (prev : option ascii) (s : string)
  : option (option ascii * string) :=
  match pat with
  | EmptyString => Some (prev, s)
  | String p pat' =>
      match s with
      | EmptyString => None
      | String c s' =>
          if char_eq ci p c then match_lit ci pat' (Some c) s' else None
      end
  end.

(** [\b lit \b] at the head of [s]. *)
Definition match_word (ci : bool) (lit : string) (prev : option ascii)
    (s : string) : option (option ascii * string) :=
  if boundary prev s then
    match match_lit ci lit prev s with
    | Some (last, rest) => if boundary last rest then Some (last, rest) else None
    | None => None
    end
  else None.

Definition is_some {A : Type} (o : option A) : bool :=
  match o with
  | Some _ => true
  | None => false
  end.

(** [re.search(r'\b' + re.escape(lit) + r'\b', s)] as a condition. *)
Fixpoint search_word (ci : bool) (lit : string) (prev : option ascii)
    (s : string) : bool :=
  match match_word ci lit prev s with
  | Some _ => true
  | None =>
      match s with
      | EmptyString => false
      | String c s' => search_word ci lit (Some c) s'
      end
  end.

(** The maximal prefix of [s] whose characters satisfy [p], its last
    character, and the rest. *)
Fixpoint span (p : ascii -> bool) (prev : option ascii) (s : string)
  : string * option ascii * string :=
  match s with
  | EmptyString => (EmptyString, prev, EmptyString)
  | String c s' =>
      if p c then
        let '(pre, last, rest) := span p (Some c) s' in (String c pre, last, rest)
      else (EmptyString, prev, s)
  end.

(** [\s+] at the head of [s]: the whole run of blanks, at least one.  A
    shorter run leaves a blank in front of the next literal, so the
    engine's backtracking finds nothing else. *)
Definition spaces1 (prev : option ascii) (s : string)
  : option (option ascii * string) :=
  match span is_space prev s with
  | (EmptyString, _, _) => None
  | (_, last, rest) => Some (last, rest)
  end.

(** The pattern of [_parse_gt_to_map],
    [\b([a-zA-Z]+)\b\s+is\s+a\s+\b(knight|knave)\b] under [re.IGNORECASE],
    at the head of [s]; gives the two groups.  The letter run is maximal:
    inside a run of letters there is no [\b]. *)
Definition match_gt_here (prev : option ascii) (s : string)
  : option (string * string) :=
  if boundary prev s then
    let '(name, last, r0) := span is_letter prev s in
    if truthy name && boundary last r0 then
      match spaces1 last r0 with
      | None => None
      | Some (l1, r1) =>
      match match_lit true "is" l1 r1 with
      | None => None
      | Some (l2, r2) =>
      match spaces1 l2 r2 with
      | None => None
      | Some (l3, r3) =>
      match match_lit true "a" l3 r3 with
      | None => None
      | Some (l4, r4) =>
      match spaces1 l4 r4 with
      | None => None
      | Some (l5, r5) =>
          if boundary l5 r5 then
            match match_lit true "knight" l5 r5 with
            | Some (l6, r6) =>
                if boundary l6 r6
                then Some (name, take 6 r5) else None
            | None =>
                match match_lit true "knave" l5 r5 with
                | Some (l6, r6) =>
                    if boundary l6 r6
                    then Some (name, take 5 r5) else None
                | None => None
                end
            end
          else None
      end end end end end
    else None
  else None.

(** [pattern.search(line)]: the leftmost position where the pattern
    matches. *)
Fixpoint search_gt (prev : option ascii) (line : string)
  : option (string * string) :=
  match match_gt_here prev line with
  | Some g => Some g
  | None =>
      match line with
      | EmptyString => None
      | String c line' => search_gt (Some c) line'
      end
  end.

(** The line boundaries of [str.splitlines] below code point 256. *)
Definition is_linebreak (c : ascii) : bool :=
  let n := code c in
  between 10 13 n || between 28 30 n || (n =? 133)%nat.

(** [s.splitlines()]; [line] is the line being read. *)
Fixpoint splitlines_from (line s : string) : list string :=
  match s with
  | EmptyString => if truthy line then [line] else []
  | String c s' =>
      if is_linebreak c then
        line ::
        match s' with
        | String c' s'' =>
            if (code c =? 13)%nat && (code c' =? 10)%nat
            then splitlines_from EmptyString s''
            else splitlines_from EmptyString s'
        | EmptyString => splitlines_from EmptyString s'
        end
      else splitlines_from (line ++ String c EmptyString) s'
  end.

Definition splitlines (s : string) : list string :=
  splitlines_from EmptyString s.

(** [_parse_gt_to_map(gt_text)] *)
Definition _parse_gt_to_map (gt_text : string) : dict :=
  fold_left
    (fun gt_map line =>
       match search_gt None line with
       | Some (g1, g2) => setitem gt_map (lower g1) (lower g2)
       | None => gt_map
       end)
    (splitlines gt_text) [].

(** [.*\b role \b.*] at the head of [s] under [re.IGNORECASE]; the dot
    does not pass a newline. *)
Fixpoint dotstar_word (role : string) (prev : option ascii) (s : string)
  : bool :=
  match s with
  | EmptyString => is_some (match_word true role prev s)
  | String c s' =>
      (if (code c =? 10)%nat then false else dotstar_word role (Some c) s')
      || is_some (match_word true role prev s)
  end.

(** [re.compile(rf'.*\b{name}\b.*\b{role}\b.*', re.IGNORECASE).search(s)]
    as a condition. *)
Fixpoint search_assertion (name role : string) (prev : option ascii)
    (s : string) : bool :=
  match match_word true name prev s with
  | Some (last, rest) => dotstar_word role last rest
  | None => false
  end
  || match s with
     | EmptyString => false
     | String c s' => search_assertion name role (Some c) s'
     end.

(** ** The scorer *)

Definition REWARD_TAG_PRESENT : Q := 0.5.
Definition PENALTY_TAG_MISSING_OR_DUPLICATE : Q := -4.0.
Definition REWARD_ORDER_CORRECT : Q := 1.0.
Definition PENALTY_ORDER_INCORRECT : Q := -5.0.
Definition PENALTY_CONTENT_EMPTY_ANSWER : Q := -2.0.
Definition REWARD_FOR_EACH_CORRECT_ASSERTION : Q := 4.
Definition MIN_THINK_REWARD : Q := -4.0.
Definition MAX_THINK_REWARD : Q := 4.0.
Definition TARGET_THINK_LENGTH : Q := 2000.0.
Definition REWARD_FOR_KEYWORD_IN_THINK : Q := 1.0.

Definition critical_tags_data : list (string * string) :=
  [ ("think_start", _RE_THINK_START); ("think_end", _RE_THINK_END);
    ("answer_start", _RE_ANSWER_START); ("answer_end", _RE_ANSWER_END) ].

(** Lines 77-83. *)
Fixpoint tag_loop (tags : list (string * string)) (model_response : string)
    (score : Q) (tag_positions : list (string * nat))
  : flow (Q * list (string * nat)) :=
  match tags with
  | [] => Continue (score, tag_positions)
  | (tag_name, pattern) :: rest =>
      let matches := finditer false pattern model_response in
      if (List.length matches =? 1)%nat then
        tag_loop rest model_response (score + REWARD_TAG_PRESENT)
          (tag_positions ++ [(tag_name, hd O matches)])
      else
        Return (score + PENALTY_TAG_MISSING_OR_DUPLICATE)
  end.

(** Lines 85-89. *)
Definition order_check (score : Q) (tag_positions : list (string * nat))
  : flow Q :=
  if negb ((getpos tag_positions "think_start" <? getpos tag_positions "think_end")%nat
           && (getpos tag_positions "think_end" <? getpos tag_positions "answer_start")%nat
           && (getpos tag_positions "answer_start" <? getpos tag_positions "answer_end")%nat)
  then Return (score + PENALTY_ORDER_INCORRECT)
  else Continue (score + REWARD_ORDER_CORRECT).

(** [m.group(1).strip() if m else ""] *)
Definition content_of (m : option string) : string :=
  match m with
  | Some g => strip g
  | None => EmptyString
  end.

(** Lines 99-101: the length-shaping component. *)
Definition think_length_score (think_length : nat) : Q :=
  let slope := (MAX_THINK_REWARD - MIN_THINK_REWARD) / TARGET_THINK_LENGTH in
  let think_length_score :=
    (slope * inject_Z (Z.of_nat think_length)) + MIN_THINK_REWARD in
  Qmin think_length_score MAX_THINK_REWARD.

(** Lines 110-115: one bonus per key of [gt_map] named in the reasoning. *)
Definition think_quality_score (gt_map : dict) (think_content : string) : Q :=
  let think_content_lower := lower think_content in
  fold_left
    (fun acc (kv : string * string) =>
       if search_word false (fst kv) None think_content_lower
       then acc + REWARD_FOR_KEYWORD_IN_THINK else acc)
    gt_map 0.

(** Lines 127-134: the number of confirmed assertions. *)
Definition num_correct_assertions (gt_map : dict) (model_answer_text : string)
  : nat :=
  fold_left
    (fun n (kv : string * string) =>
       if search_assertion (fst kv) (snd kv) None model_answer_text
       then S n else n)
    gt_map O.

(** The score after stage 3 (lines 94-116), for a text that passed the
    structural checks with [score]. *)
Definition think_stage (model_response : string) (gt_map : dict) (score : Q)
  : Q :=
  let think_content :=
    content_of (search_content "<think>" "</think>" model_response) in
  let think_length := String.length think_content in
  let score := score + think_length_score think_length in
  match gt_map with
  | [] => score
  | _ :: _ => score + think_quality_score gt_map think_content
  end.

(** Stage 4 (lines 121-139). *)
Definition answer_stage (model_response : string) (gt_map : dict) (score : Q)
  : Q :=
  let model_answer_text :=
    content_of (search_content "<answer>" "</answer>" model_response) in
  if negb (truthy model_answer_text)
     || match gt_map with [] => true | _ :: _ => false end
  then
    score + (if negb (truthy model_answer_text)
             then PENALTY_CONTENT_EMPTY_ANSWER else 0)
  else
    let answer_score :=
      inject_Z (Z.of_nat (num_correct_assertions gt_map model_answer_text))
      * REWARD_FOR_EACH_CORRECT_ASSERTION in
    score + answer_score.

(** Stages 1 and 2 together (lines 72-89). *)
Definition structural_check (model_response : string) : flow Q :=
  let score := 0.0 in
  match tag_loop critical_tags_data model_response score [] with
  | Return r => Return r
  | Continue (score, tag_positions) => order_check score tag_positions
  end.

(** [compute_score(model_response, ground_truth)] *)
Definition compute_score (model_response : string) (ground_truth : dict) : Q :=
  match structural_check model_response with
  | Return r => r
  | Continue score =>
      let gt_map :=
        _parse_gt_to_map (get ground_truth "solution_text_format" "") in
      let score := think_stage model_response gt_map score in
      answer_stage model_response gt_map score
  end.

End Newkk.

(* ================================================================== *)
(** * [chem.py]: the molecule scorer                                  *)
(* ================================================================== *)

Module Chem.
Import Py.
Local Open Scope Q_scope.

(** The cheminformatics library as the scorer sees it: the two import
    flags of lines 27-46 and the calls made on a molecule.  Every call
    may raise. *)
Record Oracle (Mol : Type) : Type := {
  RDKIT_AVAILABLE : bool;
  SA_SCORE_AVAILABLE : bool;
  MolFromSmiles : string -> pyres (option Mol);
  QED_qed : Mol -> pyres Q;
  calculateScore : Mol -> pyres Q;
  MolLogP : Mol -> pyres Q;
  MolWt : Mol -> pyres Q;
  TPSA : Mol -> pyres Q;
  NumHDonors : Mol -> pyres Z;
  NumHAcceptors : Mol -> pyres Z;
  NumAromaticRings : Mol -> pyres Z;
  NumRotatableBonds : Mol -> pyres Z
}.

(** [a < b] on scores. *)
Definition Qlt_bool (a b : Q) : bool := negb (Qle_bool b a).

(** ** The format stage *)

(** [\s*</SMILES>] at the head of [s], ignoring case. *)
Definition ws_then_close (s : string) : bool :=
  starts_with true "</SMILES>" (lstrip s).

(** [(.+?)\s*</SMILES>] at the head of [s] under [re.DOTALL]: the lazy
    group takes the fewest characters, at least one. *)
Fixpoint lazy_group (s : string) : option string :=
  match s with
  | EmptyString => None
  | String c s' =>
      if ws_then_close s' then Some (String c EmptyString)
      else match lazy_group s' with
           | Some g => Some (String c g)
           | None => None
           end
  end.

(** [\s*(.+?)\s*</SMILES>] at the head of [s]: the greedy [\s*] first
    takes every blank and gives them back one by one when the rest does
    not match. *)
Fixpoint after_open (s : string) : option string :=
  match s with
  | EmptyString => None
  | String c s' =>
      if is_space c then
        match after_open s' with
        | Some g => Some g
        | None => lazy_group s
        end
      else lazy_group s
  end.

(** Group 1 of
    [re.search(r'<SMILES>\s*(.+?)\s*</SMILES>', s, re.IGNORECASE | re.DOTALL)]. *)
Fixpoint search_smiles (s : string) : option string :=
  match s with
  | EmptyString => None
  | String _ s' =>
      match (if starts_with true "<SMILES>" s
             then after_open (drop 8 s) else None) with
      | Some g => Some g
      | None => search_smiles s'
      end
  end.

(** [check_format(response_str)] *)
Definition check_format (response_str : string) : Q * option string :=
  let open_tags := finditer true "<SMILES>" response_str in
  let close_tags := finditer true "</SMILES>" response_str in
  if (List.length open_tags =? 1)%nat && (List.length close_tags =? 1)%nat then
    match search_smiles response_str with
    | Some g =>
        let smiles := strip g in
        if truthy smiles then (1.0, Some smiles) else (-5.0, None)
    | None => (-5.0, None)
    end
  else (-5.0, None).

Section WithOracle.

Variable Mol : Type.
Variable o : Oracle Mol.

(** ** The validity stage *)

(** [check_validity(smiles)] *)
Definition check_validity (smiles : string) : pyres (Q * option Mol) :=
  if negb (RDKIT_AVAILABLE o) then Ok (-3.0, None)
  else
    try_except
      (bind (MolFromSmiles o smiles) (fun mol =>
         match mol with
         | None => Ok (-3.0, None)
         | Some m => Ok (0.5, Some m)
         end))
      (Ok (-3.0, None)).

(** ** The seven property rewards *)

Definition qed_reward (mol : Mol) : pyres Q :=
  if negb (RDKIT_AVAILABLE o) then Ok 0.0
  else
    try_except
      (bind (QED_qed o mol) (fun qed_score =>
         if Qlt_bool qed_score 0.5 then Ok 0.0
         else Ok ((qed_score - 0.5) * 4.0)))
      (Ok 0.0).

Definition sa_reward (mol : Mol) : pyres Q :=
  if negb (SA_SCORE_AVAILABLE o) then Ok 1.0
  else
    try_except
      (bind (calculateScore o mol) (fun sa_score =>
         if Qle_bool sa_score 4.0 then Ok (2.0 - (sa_score - 1.0) * 0.5)
         else if Qle_bool sa_score 7.0
              then Ok (Qmax 0.0 (0.5 - (sa_score - 4.0) * 0.15))
              else Ok 0.0))
      (Ok 0.0).

Definition logp_reward (mol : Mol) : pyres Q :=
  if negb (RDKIT_AVAILABLE o) then Ok 0.0
  else
    try_except
      (bind (MolLogP o mol) (fun logp =>
         if Qle_bool 1.0 logp && Qle_bool logp 4.0
         then Ok (1.5 - Qabs (logp - 2.5) * 0.3)
         else if Qle_bool 0 logp && Qlt_bool logp 1.0
              then Ok (logp * 0.8)
              else if Qlt_bool 4.0 logp && Qle_bool logp 5.0
                   then Ok (Qmax 0.0 (0.5 - (logp - 4.0) * 0.3))
                   else Ok 0.0))
      (Ok 0.0).

Definition mw_reward (mol : Mol) : pyres Q :=
  if negb (RDKIT_AVAILABLE o) then Ok 0.0
  else
    try_except
      (bind (MolWt o mol) (fun mw =>
         if Qle_bool 200 mw && Qle_bool mw 500 then Ok 1.0
         else if Qle_bool 150 mw && Qlt_bool mw 200
              then Ok ((mw - 150) / 50 * 0.5)
              else if Qlt_bool 500 mw && Qle_bool mw 600
                   then Ok (Qmax 0.0 (1.0 - (mw - 500) / 100))
                   else Ok 0.0))
      (Ok 0.0).

Definition tpsa_reward (mol : Mol) : pyres Q :=
  if negb (RDKIT_AVAILABLE o) then Ok 0.0
  else
    try_except
      (bind (TPSA o mol) (fun tpsa =>
         if Qle_bool 40 tpsa && Qle_bool tpsa 120 then Ok 1.0
         else if Qle_bool 20 tpsa && Qlt_bool tpsa 40
              then Ok ((tpsa - 20) / 20 * 0.5)
              else if Qlt_bool 120 tpsa && Qle_bool tpsa 140
                   then Ok (Qmax 0.0 (1.0 - (tpsa - 120) / 20))
                   else Ok 0.0))
      (Ok 0.0).

(** [violations += 1] under a condition. *)
Definition bump (cond : bool) (violations : Z) : Z :=
  if cond then (violations + 1)%Z else violations.

Definition lipinski_reward (mol : Mol) : pyres Q :=
  if negb (RDKIT_AVAILABLE o) then Ok 0.0
  else
    try_except
      (bind (MolWt o mol) (fun mw =>
       bind (MolLogP o mol) (fun logp =>
       bind (NumHDonors o mol) (fun hbd =>
       bind (NumHAcceptors o mol) (fun hba =>
         let violations := 0%Z in
         let violations := bump (Qlt_bool 500 mw) violations in
         let violations := bump (Qlt_bool 5 logp) violations in
         let violations := bump (5 <? hbd)%Z violations in
         let violations := bump (10 <? hba)%Z violations in
         if (violations =? 0)%Z then Ok 1.5
         else if (violations =? 1)%Z then Ok 1.0
         else if (violations =? 2)%Z then Ok 0.5
         else Ok 0.0)))))
      (Ok 0.0).

Definition egfr_specific_reward (mol : Mol) : pyres Q :=
  if negb (RDKIT_AVAILABLE o) then Ok 0.0
  else
    try_except
      (bind (NumAromaticRings o mol) (fun aromatic_rings =>
       bind (NumRotatableBonds o mol) (fun rotatable_bonds =>
         let score := 0.0 in
         let score :=
           if (2 <=? aromatic_rings)%Z && (aromatic_rings <=? 4)%Z
           then score + 0.6
           else if (aromatic_rings =? 1)%Z || (aromatic_rings =? 5)%Z
                then score + 0.3 else score in
         let score :=
           if (5 <=? rotatable_bonds)%Z && (rotatable_bonds <=? 10)%Z
           then score + 0.4
           else if ((3 <=? rotatable_bonds)%Z && (rotatable_bonds <? 5)%Z)
                   || ((10 <? rotatable_bonds)%Z && (rotatable_bonds <=? 12)%Z)
                then score + 0.2 else score in
         Ok score)))
      (Ok 0.0).

(** ** The staged total *)

(** [compute_score(solution_str, ground_truth)] *)
Definition compute_score (solution_str : string) (ground_truth : dict)
  : pyres Q :=
  if negb (RDKIT_AVAILABLE o) then Ok (-5.0)
  else
    let '(format_reward, smiles) := check_format solution_str in
    match smiles with
    | None => Ok format_reward
    | Some smiles =>
        bind (check_validity smiles) (fun '(validity_reward, mol) =>
        match mol with
        | None => Ok (format_reward + validity_reward)
        | Some mol =>
            bind (qed_reward mol) (fun qed_score =>
            bind (sa_reward mol) (fun sa_score =>
            bind (logp_reward mol) (fun logp_score =>
            bind (mw_reward mol) (fun mw_score =>
            bind (tpsa_reward mol) (fun tpsa_score =>
            bind (lipinski_reward mol) (fun lipinski_score =>
            bind (egfr_specific_reward mol) (fun egfr_score =>
              let total_score :=
                format_reward + validity_reward + qed_score + sa_score
                + logp_score + mw_score + tpsa_score + lipinski_score
                + egfr_score in
              Ok total_score)))))))
        end)
    end.

End WithOracle.

End Chem.

(* ================================================================== *)
(** * The reward managers                                             *)
(* ================================================================== *)

Module RewardManager.
Import Py.
Local Open Scope Q_scope.

(** One sample of a batch: the token ids of the padded prompt and
    response, the attention mask over both, the ["ground_truth"] entry of
    [non_tensor_batch["reward_model"]] when there is one, and the entry
    read through [reward_fn_key]. *)
Record DataItem : Type := {
  prompts : list Z;
  responses : list Z;
  attention_mask : list bool;
  ground_truth : option dict;
  data_source : string
}.

Definition tensor : Type := list (list Q).

(** A batch: the ["rm_scores"] entry when it is present, and the samples. *)
Record DataProto : Type := {
  rm_scores : option tensor;
  items : list DataItem
}.

(** What [__call__] returns: the tensor alone, or the dictionary with
    the tensor and the extra information. *)
Inductive output : Type :=
| Tensor (reward_tensor : tensor)
| Dict (reward_tensor : tensor) (reward_extra_info : list (string * list Q)).

(** [mask.sum()] *)
Definition mask_sum (mask : list bool) : nat :=
  List.length (filter (fun b => b) mask).

(** [attention_mask[prompt_length:].sum()] *)
Definition valid_response_length (data_item : DataItem) : nat :=
  let prompt_length := List.length (prompts data_item) in
  mask_sum (skipn prompt_length (attention_mask data_item)).

(** The position an index designates along a dimension of size [w]; a
    negative index counts from the end. *)
Definition index (w : nat) (idx : Z) : pyres nat :=
  if (0 <=? idx)%Z && (idx <? Z.of_nat w)%Z then Ok (Z.to_nat idx)
  else if (- Z.of_nat w <=? idx)%Z && (idx <? 0)%Z
       then Ok (Z.to_nat (Z.of_nat w + idx))
       else Raise IndexError.

Fixpoint set_nth {A : Type} (l : list A) (n : nat) (v : A) : list A :=
  match l, n with
  | [], _ => []
  | _ :: l', O => v :: l'
  | x :: l', S n' => x :: set_nth l' n' v
  end.

(** [reward_tensor[i, idx] = v] for a value [v] of the tensor's dtype. *)
Definition tensor_setitem (reward_tensor : tensor) (i : nat) (idx : Z)
    (score : Q) : pyres tensor :=
  match nth_error reward_tensor i with
  | None => Raise IndexError
  | Some row =>
      bind (index (List.length row) idx) (fun j =>
        Ok (set_nth reward_tensor i (set_nth row j score)))
  end.

(** [torch.zeros_like(data.batch["responses"], dtype=torch.float32)]: a
    tensor of [float32] zeros. *)
Definition zeros_like (data : DataProto) : tensor :=
  map (fun data_item => repeat 0 (List.length (responses data_item)))
      (items data).

(** [reward_extra_info[key].append(score)] on a [defaultdict(list)]. *)
Fixpoint append_info (info : list (string * list Q)) (key : string) (score : Q)
  : list (string * list Q) :=
  match info with
  | [] => [(key, [score])]
  | (k, l) :: info' =>
      if String.eqb k key then (k, l ++ [score]) :: info'
      else (k, l) :: append_info info' key score
  end.

(** [sub in s] *)
Fixpoint contains (sub s : string) : bool :=
  starts_with false sub s
  || match s with
     | EmptyString => false
     | String _ s' => contains sub s'
     end.

Section Managers.

(** The tokenizer's [decode(ids, skip_special_tokens=True)]. *)
Variable decode : list Z -> string.

(** [kk.compute_score] of [verl/utils/reward_score/kk.py], which the
    manager imports; the module is not among the sources, and the scorer
    is taken as a function that returns a score. *)
Variable kk_compute_score : string -> dict -> Q.

(** The [torch.float32] value a Python [float] becomes when it is stored
    in the reward tensor, whose dtype is [float32]: the nearest number
    with a 24-bit significand ([Spec.float32_nearest] on the finite
    range). *)
Variable float32 : Q -> Q.

(** [_select_rm_score_fn(data_source)].  The module imports only [kk],
    [rule] and [newkk]: the first three branches name modules that are
    not bound. *)
Definition _select_rm_score_fn (data_source : string)
  : pyres (string -> dict -> Q) :=
  if String.eqb data_source "openai/gsm8k" then Raise NameError
  else if String.eqb data_source "lighteval/MATH" then Raise NameError
  else if contains "countdown" data_source then Raise NameError
  else if contains "kk" data_source then Ok kk_compute_score
  else if contains "rule" data_source then Ok Rule.compute_score
  else Raise NotImplementedError.

(** The loop body shared by both managers (lines 67-91 of
    [logic_rl_reward.py], lines 50-72 of [chem_reward.py]): decode the
    valid response, score it with [score_item], record the score and write
    it, cast to the dtype of the tensor, at column
    [valid_response_length - 1] of row [i].  The decoded prompt is only
    printed. *)
Definition loop_body (key : string)
    (score_item : DataItem -> string -> pyres Q)
    (i : nat) (data_item : DataItem)
    (state : tensor * list (string * list Q))
  : pyres (tensor * list (string * list Q)) :=
  let '(reward_tensor, reward_extra_info) := state in
  let response_ids := responses data_item in
  let valid_response_length := valid_response_length data_item in
  let valid_response_ids := firstn valid_response_length response_ids in
  let response_str := decode valid_response_ids in
  bind (score_item data_item response_str) (fun score =>
  let reward_extra_info := append_info reward_extra_info key score in
  bind (tensor_setitem reward_tensor i
          (Z.of_nat valid_response_length - 1) (float32 score))
    (fun reward_tensor =>
  Ok (reward_tensor, reward_extra_info))).

(** [for i in range(len(data)): ...] from index [i] on. *)
Fixpoint loop (key : string) (score_item : DataItem -> string -> pyres Q)
    (i : nat) (data_items : list DataItem)
    (state : tensor * list (string * list Q))
  : pyres (tensor * list (string * list Q)) :=
  match data_items with
  | [] => Ok state
  | data_item :: rest =>
      bind (loop_body key score_item i data_item state) (fun state =>
        loop key score_item (S i) rest state)
  end.

(** [__call__] of either manager around its scoring of one sample;
    [report] is the summary printed after the loop. *)
Definition call (key : string) (score_item : DataItem -> string -> pyres Q)
    (report : tensor -> pyres unit)
    (data : DataProto) (return_dict : bool) : pyres output :=
  match rm_scores data with
  | Some scores =>
      if return_dict then Ok (Dict scores []) else Ok (Tensor scores)
  | None =>
      let reward_tensor := zeros_like data in
      bind (loop key score_item 0 (items data) (reward_tensor, []))
        (fun '(reward_tensor, reward_extra_info) =>
      bind (report reward_tensor) (fun _ =>
           if return_dict then Ok (Dict reward_tensor reward_extra_info)
           else Ok (Tensor reward_tensor)))
  end.

(** Lines 82-89 of [logic_rl_reward.py]: the ground truth is indexed, the
    data source is read, and the scorer is looked up under the literal
    ["kk"]. *)
Definition logic_rl_score_item (data_item : DataItem) (response_str : string)
  : pyres Q :=
  match ground_truth data_item with
  | None => Raise KeyError
  | Some ground_truth =>
      let data_source := data_source data_item in
      bind (_select_rm_score_fn "kk") (fun compute_score_fn =>
        Ok (compute_score_fn response_str ground_truth))
  end.

(** [LogicRLRewardManager.__call__(data, return_dict)] *)
Definition LogicRLRewardManager_call (data : DataProto) (return_dict : bool)
  : pyres output :=
  call "logic_rl_score" logic_rl_score_item (fun _ => Ok tt) data return_dict.

Variable Mol : Type.
Variable o : Chem.Oracle Mol.

(** Lines 66-70 of [chem_reward.py]: the ground truth defaults to an
    empty dictionary. *)
Definition chem_score_item (data_item : DataItem) (response_str : string)
  : pyres Q :=
  let ground_truth :=
    match ground_truth data_item with
    | Some g => g
    | None => []
    end in
  Chem.compute_score o response_str ground_truth.

(** Lines 85-86 of [chem_reward.py]: the printed summary takes
    [reward_tensor.min()] and [reward_tensor.max()], which torch refuses
    on a tensor without elements. *)
Definition chem_report (reward_tensor : tensor) : pyres unit :=
  match concat reward_tensor with
  | [] => Raise RuntimeError
  | _ :: _ => Ok tt
  end.

(** [ChemRewardManager.__call__(data, return_dict)] *)
Definition ChemRewardManager_call (data : DataProto) (return_dict : bool)
  : pyres output :=
  call "chem_score" chem_score_item chem_report data return_dict.

End Managers.

End RewardManager.

(* ================================================================== *)
(** * Vocabulary of the statements and sample inputs                  *)
(* ================================================================== *)

Module Spec.
Import Py.
Local Open Scope string_scope.

(** Number of occurrences of a delimiter, and the offset of the first. *)
Definition count (ci : bool) (tag text : string) : nat :=
  List.length (finditer ci tag text).

Definition offset (ci : bool) (tag text : string) : nat :=
  hd O (finditer ci tag text).

(** Each of the four delimiters occurs exactly once. *)
Definition once_each (ci : bool) (text : string) : Prop :=
  count ci "<think>" text = 1%nat /\ count ci "</think>" text = 1%nat /\
  count ci "<answer>" text = 1%nat /\ count ci "</answer>" text = 1%nat.

(** think_start < think_end < answer_start < answer_end *)
Definition in_order (ci : bool) (text : string) : Prop :=
  (offset ci "<think>" text < offset ci "</think>" text)%nat /\
  (offset ci "</think>" text < offset ci "<answer>" text)%nat /\
  (offset ci "<answer>" text < offset ci "</answer>" text)%nat.

(** The two structural verdicts. *)
Definition rejected (f : flow Q) : Prop := exists r, f = Return r.
Definition accepted (f : flow Q) : Prop := exists s, f = Continue s.

(** The answer block and the role map the logic-puzzle scorer works on. *)
Definition answer_block (text : string) : string :=
  Newkk.content_of (search_content "<answer>" "</answer>" text).

Definition role_map (ground_truth : dict) : dict :=
  Newkk._parse_gt_to_map (get ground_truth "solution_text_format" "").

(** The text holds exactly one [<SMILES>] and one [</SMILES>] (in any
    letter casing), the first before the second, with inner text that is
    not blank. *)
Definition smiles_pair_nonempty (text : string) : Prop :=
  count true "<SMILES>" text = 1%nat /\ count true "</SMILES>" text = 1%nat /\
  exists pre op inner cl post,
    text = pre ++ op ++ inner ++ cl ++ post /\
    lower op = "<smiles>" /\ lower cl = "</smiles>" /\
    strip inner <> EmptyString.

Definition nl : string := String (ascii_of_nat 10) EmptyString.

(** [response_missing_end_tag] of the test section of [rule.py]. *)
Definition response_missing_end_tag : string :=
  nl ++ "<think>" ++ nl ++ "Thinking..." ++ nl ++ "<answer>" ++ nl
  ++ "Answer." ++ nl ++ "</answer>" ++ nl.

(** [response_wrong_order] of the test section of [rule.py]. *)
Definition response_wrong_order : string :=
  nl ++ "<answer>" ++ nl ++ "My answer is here." ++ nl ++ "</answer>" ++ nl
  ++ "<think>" ++ nl ++ "My thoughts." ++ nl ++ "</think>" ++ nl.

Definition upper_sample : string := "<THINK>a</THINK><ANSWER>b</ANSWER>".
Definition lower_sample : string := "<think>a</think><answer>b</answer>".
Definition short_sample : string := "<think>x</think><answer>y</answer>".
Definition blank_answer_sample : string := "<think>x</think><answer> </answer>".

(** Every character of the string is blank. *)
Fixpoint all_space (s : string) : bool :=
  match s with
  | EmptyString => true
  | String c s' => is_space c && all_space s'
  end.

(** Two inputs of the test section of [chem.py]. *)
Definition empty_smiles_sample : string := "<SMILES></SMILES>".
Definition invalid_smiles_sample : string :=
  "<SMILES>INVALID_SMILES_STRING</SMILES>".

(** The seven property rewards of the molecule scorer. *)
Inductive property : Type :=
| Qed_index | Sa | Logp | Mw | Tpsa | Lipinski | Egfr.

Definition reward {Mol : Type} (o : Chem.Oracle Mol) (p : property)
  : Mol -> pyres Q :=
  match p with
  | Qed_index => Chem.qed_reward o
  | Sa => Chem.sa_reward o
  | Logp => Chem.logp_reward o
  | Mw => Chem.mw_reward o
  | Tpsa => Chem.tpsa_reward o
  | Lipinski => Chem.lipinski_reward o
  | Egfr => Chem.egfr_specific_reward o
  end.

(** The library a property reward needs was not imported. *)
Definition unavailable {Mol : Type} (o : Chem.Oracle Mol) (p : property)
  : bool :=
  match p with
  | Sa => negb (Chem.SA_SCORE_AVAILABLE o)
  | _ => negb (Chem.RDKIT_AVAILABLE o)
  end.

Definition raises {A : Type} (r : pyres A) : bool :=
  match r with
  | Raise _ => true
  | Ok _ => false
  end.

(** One of the oracle calls a property reward makes raises on [mol]. *)
Definition call_fails {Mol : Type} (o : Chem.Oracle Mol) (p : property)
    (mol : Mol) : bool :=
  match p with
  | Qed_index => raises (Chem.QED_qed o mol)
  | Sa => raises (Chem.calculateScore o mol)
  | Logp => raises (Chem.MolLogP o mol)
  | Mw => raises (Chem.MolWt o mol)
  | Tpsa => raises (Chem.TPSA o mol)
  | Lipinski =>
      raises (Chem.MolWt o mol) || raises (Chem.MolLogP o mol)
      || raises (Chem.NumHDonors o mol) || raises (Chem.NumHAcceptors o mol)
  | Egfr =>
      raises (Chem.NumAromaticRings o mol)
      || raises (Chem.NumRotatableBonds o mol)
  end.

(** The value a property reward falls back to without its library. *)
Definition neutral (p : property) : Q :=
  match p with
  | Sa => 1.0%Q
  | _ => 0.0%Q
  end.

(** The outcome is a value, and that value is not negative. *)
Definition nonneg (r : pyres Q) : Prop := exists v, r = Ok v /\ (0 <= v)%Q.

(** Sample oracles: one that parses nothing, one that is not installed,
    one whose property calls all raise, and one without the
    synthetic-accessibility estimator. *)
Definition make_oracle (rdkit sa : bool) (parse : pyres (option unit))
    (q : pyres Q) (z : pyres Z) : Chem.Oracle unit :=
  {| Chem.RDKIT_AVAILABLE := rdkit;
     Chem.SA_SCORE_AVAILABLE := sa;
     Chem.MolFromSmiles := fun _ => parse;
     Chem.QED_qed := fun _ => q;
     Chem.calculateScore := fun _ => q;
     Chem.MolLogP := fun _ => q;
     Chem.MolWt := fun _ => q;
     Chem.TPSA := fun _ => q;
     Chem.NumHDonors := fun _ => z;
     Chem.NumHAcceptors := fun _ => z;
     Chem.NumAromaticRings := fun _ => z;
     Chem.NumRotatableBonds := fun _ => z |}.

Definition rejecting_oracle : Chem.Oracle unit :=
  make_oracle true true (Ok None) (Ok 1%Q) (Ok 1%Z).
Definition absent_oracle : Chem.Oracle unit :=
  make_oracle false false (Raise NameError) (Raise NameError) (Raise NameError).
Definition failing_oracle : Chem.Oracle unit :=
  make_oracle true true (Ok (Some tt)) (Raise OracleError) (Raise OracleError).
Definition no_sa_oracle : Chem.Oracle unit :=
  make_oracle true false (Ok (Some tt)) (Ok 1%Q) (Ok 1%Z).

(** ** The cast to [float32] *)

(** The largest [e] with [2^e <= q], for a positive [q]. *)
Definition floor_log2 (q : Q) : Z :=
  let e := (Z.log2 (Qnum q) - Z.log2 (Zpos (Qden q)))%Z in
  if Qle_bool (Qpower 2 e) q then e else (e - 1)%Z.

(** The nearest integer, the even one on a tie. *)
Definition round_half_even (q : Q) : Z :=
  let f := Qfloor q in
  match Qcompare (q - inject_Z f) (1 # 2) with
  | Lt => f
  | Gt => (f + 1)%Z
  | Eq => if Z.even f then f else (f + 1)%Z
  end.

(** The [float32] nearest to [q], the one with an even significand on a
    tie: 24 significant bits and an exponent of at least -126.  This is
    the cast of the reward tensor on the finite range of [float32]; it
    stores 0.1 as 13421773 / 2^27. *)
Definition float32_nearest (q : Q) : Q :=
  if Qeq_bool q 0 then 0%Q
  else
    let a := Qabs q in
    let e := Z.max (floor_log2 a) (-126) in
    let ulp := Qpower 2 (e - 23) in
    let m := (inject_Z (round_half_even (a / ulp)) * ulp)%Q in
    Qred (if Qle_bool 0 q then m else (- m)%Q).

(** ** Batches *)

Definition tensor_of (out : RewardManager.output) : RewardManager.tensor :=
  match out with
  | RewardManager.Tensor t => t
  | RewardManager.Dict t _ => t
  end.

(** The response row is not empty and the mask selects no more tokens
    than it has. *)
Definition well_shaped (data_item : RewardManager.DataItem) : Prop :=
  RewardManager.responses data_item <> [] /\
  (RewardManager.valid_response_length data_item
   <= List.length (RewardManager.responses data_item))%nat.

(** A row of zeros of width [w] with [score] in its last column. *)
Definition last_column_row (w : nat) (score : Q) : list Q :=
  RewardManager.set_nth (repeat 0%Q w) (w - 1) score.

(** One sample whose data source names no registered domain. *)
Definition unknown_source_batch : RewardManager.DataProto :=
  {| RewardManager.rm_scores := None;
     RewardManager.items :=
       [ {| RewardManager.prompts := [1%Z];
            RewardManager.responses := [2%Z; 3%Z];
            RewardManager.attention_mask := [true; true; true];
            RewardManager.ground_truth := Some [];
            RewardManager.data_source := "unregistered/domain" |} ] |}.

(** One sample whose mask selects no response token. *)
Definition zero_valid_item : RewardManager.DataItem :=
  {| RewardManager.prompts := [1%Z];
     RewardManager.responses := [2%Z; 3%Z];
     RewardManager.attention_mask := [true; false; false];
     RewardManager.ground_truth := Some [];
     RewardManager.data_source := "chem" |}.

Definition zero_valid_batch : RewardManager.DataProto :=
  {| RewardManager.rm_scores := None;
     RewardManager.items := [zero_valid_item] |}.

(** The column the score of a sample is written to: index
    [valid_response_length - 1], which is -1, the last column, when no
    token is valid. *)
Definition column (data_item : RewardManager.DataItem) : nat :=
  let w := List.length (RewardManager.responses data_item) in
  let v := RewardManager.valid_response_length data_item in
  if (v =? 0)%nat then (w - 1)%nat else (v - 1)%nat.

(** The row of a sample once its score is written. *)
Definition scored_row (data_item : RewardManager.DataItem) (score : Q)
  : list Q :=
  RewardManager.set_nth
    (repeat 0%Q (List.length (RewardManager.responses data_item)))
    (column data_item) score.

(** The text a manager scores for a sample. *)
Definition response_str (decode : list Z -> string)
    (data_item : RewardManager.DataItem) : string :=
  decode (firstn (RewardManager.valid_response_length data_item)
                 (RewardManager.responses data_item)).

(** The batch with every data-source identifier replaced through [f]. *)
Definition relabel_item (f : string -> string)
    (data_item : RewardManager.DataItem) : RewardManager.DataItem :=
  {| RewardManager.prompts := RewardManager.prompts data_item;
     RewardManager.responses := RewardManager.responses data_item;
     RewardManager.attention_mask := RewardManager.attention_mask data_item;
     RewardManager.ground_truth := RewardManager.ground_truth data_item;
     RewardManager.data_source := f (RewardManager.data_source data_item) |}.

Definition relabel (f : string -> string) (data : RewardManager.DataProto)
  : RewardManager.DataProto :=
  {| RewardManager.rm_scores := RewardManager.rm_scores data;
     RewardManager.items := map (relabel_item f) (RewardManager.items data) |}.

End Spec.

(* ================================================================== *)
(** * [scripts/generate_chem_rl_dataset.py]: the dataset converter    *)
(* ================================================================== *)

Module Dataset.
Import Py.

Definition DATA_SOURCE : string := "egfr_molecule".
Definition ABILITY : string := "chemistry".

(** One item of the RL dataset: [reward_model] holds [style] and
    [ground_truth], [extra_info] holds [split] and [index]. *)
Record rl_item : Type := {
  data_source : string;
  prompt : list dict;
  ability : string;
  style : string;
  ground_truth : dict;
  split : string;
  index : nat
}.

(** The body of the loop of [convert_sft_to_rl_format] for the item
    numbered [idx]. *)
Definition convert_item (split : string) (idx : nat) (item : dict) : rl_item :=
  let instruction := get item "instruction" "" in
  {| data_source := DATA_SOURCE;
     prompt := [[("role", "user"); ("content", instruction)]];
     ability := ABILITY;
     style := "rule";
     ground_truth := [];
     split := split;
     index := idx |}.

(** [for idx, item in enumerate(sft_data): rl_data.append(...)], from
    index [idx] on. *)
Fixpoint convert_from (idx : nat) (sft_data : list dict) (split : string)
  : list rl_item :=
  match sft_data with
  | [] => []
  | item :: rest => convert_item split idx item :: convert_from (S idx) rest split
  end.

(** [convert_sft_to_rl_format(sft_data, split)] *)
Definition convert_sft_to_rl_format (sft_data : list dict) (split : string)
  : list rl_item :=
  convert_from 0 sft_data split.

(** [l[:stop]]: a negative [stop] counts from the end of the list. *)
Definition slice_to {A : Type} (l : list A) (stop : Z) : list A :=
  if (stop <? 0)%Z
  then firstn (Z.to_nat (Z.of_nat (List.length l) + stop)) l
  else firstn (Z.to_nat stop) l.

(** Lines 147-152 of [main]: the data of a split is sliced to [max_size],
    an [int] of the command line, when it has more samples than that,
    then converted. *)
Definition convert_split (sft_data : list dict) (max_size : Z)
    (split_name : string) : list rl_item :=
  let sft_data :=
    if (max_size <? Z.of_nat (List.length sft_data))%Z
    then slice_to sft_data max_size else sft_data in
  convert_sft_to_rl_format sft_data split_name.

End Dataset.

(* ================================================================== *)
(** * Further vocabulary                                              *)
(* ================================================================== *)

Module Props.
Import Py Spec.

(** The outcome is a value between [lo] and [hi]. *)
Definition in_range (lo hi : Q) (r : pyres Q) : Prop :=
  exists v, r = Ok v /\ (lo <= v)%Q /\ (v <= hi)%Q.

(** The upper end of the range each reward documents in its docstring. *)
Definition documented_max (p : property) : Q :=
  match p with
  | Qed_index => 2.0
  | Sa => 2.0
  | Logp => 1.5
  | Mw => 1.0
  | Tpsa => 1.0
  | Lipinski => 1.5
  | Egfr => 1.0
  end%Q.

(** The oracle keeps to the scales the reward curves are written for:
    a drug-likeness index of at most 1 and a synthetic-accessibility
    score of at least 1. *)
Definition oracle_in_scale {Mol : Type} (o : Chem.Oracle Mol) (mol : Mol)
  : Prop :=
  (forall q, Chem.QED_qed o mol = Ok q -> (q <= 1)%Q) /\
  (forall s, Chem.calculateScore o mol = Ok s -> (1 <= s)%Q).

(** Where the molecule scorer stops on [text]: at the format stage (no
    SMILES is extracted, or RDKit is missing and the scorer returns the
    same penalty before the format stage), at the validity stage (the
    oracle returns [None] or raises on the extracted SMILES), or nowhere
    (the oracle parses it and the seven property rewards are added). *)
Definition stops_at_format {Mol : Type} (o : Chem.Oracle Mol)
    (text : string) : Prop :=
  Chem.RDKIT_AVAILABLE o = false \/ snd (Chem.check_format text) = None.

Definition stops_at_validity {Mol : Type} (o : Chem.Oracle Mol)
    (text : string) : Prop :=
  Chem.RDKIT_AVAILABLE o = true /\
  exists smiles,
    snd (Chem.check_format text) = Some smiles /\
    (Chem.MolFromSmiles o smiles = Ok None \/
     exists e, Chem.MolFromSmiles o smiles = Raise e).

Definition reaches_properties {Mol : Type} (o : Chem.Oracle Mol)
    (text : string) : Prop :=
  Chem.RDKIT_AVAILABLE o = true /\
  exists smiles mol,
    snd (Chem.check_format text) = Some smiles /\
    Chem.MolFromSmiles o smiles = Ok (Some mol).

(** The score equals one of the listed values. *)
Definition among (v : Q) (l : list Q) : Prop :=
  List.Exists (fun x => (v == x)%Q) l.

(** No character of [s] is [<], the character every tag starts with. *)
Fixpoint lt_free (s : string) : bool :=
  match s with
  | EmptyString => true
  | String c s' => negb (Ascii.eqb c "<") && lt_free s'
  end.

(** A response in the expected layout: a reasoning block [t] and an
    answer block [a] inside their tags, with free text around them. *)
Definition layout (pre t mid a post : string) : string :=
  pre ++ "<think>" ++ t ++ "</think>" ++ mid
  ++ "<answer>" ++ a ++ "</answer>" ++ post.

(** None of the five pieces of a layout holds a [<]. *)
Definition pieces_free (pre t mid a post : string) : Prop :=
  lt_free pre = true /\ lt_free t = true /\ lt_free mid = true /\
  lt_free a = true /\ lt_free post = true.

(** A response that holds one SMILES string: [op] and [cl] are the two
    tags in some letter casing, and no other piece holds a [<]. *)
Definition tagged_smiles (pre op inner cl post : string) : Prop :=
  lt_free pre = true /\ lt_free inner = true /\ lt_free post = true /\
  lower op = "<smiles>" /\ lower cl = "</smiles>".

(** [reward_extra_info] after the scores of the samples were appended
    under [key], one after the other. *)
Definition record_scores (key : string) (scores : list Q)
    (info : list (string * list Q)) : list (string * list Q) :=
  fold_left (fun acc sc => RewardManager.append_info acc key sc) scores info.

(** The batch has a row for every sample, and every sample is
    well-shaped. *)
Definition well_shaped_batch (data : RewardManager.DataProto) : Prop :=
  RewardManager.rm_scores data = None /\
  RewardManager.items data <> [] /\
  Forall well_shaped (RewardManager.items data).

(** Row [row] belongs to sample [data_item] and holds [score]: it has
    the width of the response, [score] at column [column data_item]
    (index [valid_response_length - 1]) and zero everywhere else. *)
Definition row_of (data_item : RewardManager.DataItem) (score : Q)
    (row : list Q) : Prop :=
  List.length row = List.length (RewardManager.responses data_item) /\
  forall j, (j < List.length row)%nat ->
    nth_error row j = Some (if (j =? column data_item)%nat then score else 0%Q).

(** The sample is well-shaped and its scoring gives [sc]. *)
Definition scores_as (decode : list Z -> string)
    (score_item : RewardManager.DataItem -> string -> pyres Q)
    (data_item : RewardManager.DataItem) (sc : Q) : Prop :=
  well_shaped data_item /\
  score_item data_item (response_str decode data_item) = Ok sc.

(** The response row of the sample has no column. *)
Definition no_column (data_item : RewardManager.DataItem) : bool :=
  match RewardManager.responses data_item with
  | [] => true
  | _ :: _ => false
  end.

(** The sample has no ground truth entry. *)
Definition no_ground_truth (data_item : RewardManager.DataItem) : bool :=
  match RewardManager.ground_truth data_item with
  | None => true
  | Some _ => false
  end.

(** A batch without precomputed scores and without samples. *)
Definition empty_batch : RewardManager.DataProto :=
  {| RewardManager.rm_scores := None; RewardManager.items := [] |}.

(** A batch whose only sample has no ground truth, and one whose only
    sample has an empty response row. *)
Definition no_truth_batch : RewardManager.DataProto :=
  {| RewardManager.rm_scores := None;
     RewardManager.items :=
       [ {| RewardManager.prompts := [1%Z];
            RewardManager.responses := [2%Z; 3%Z];
            RewardManager.attention_mask := [true; true; false];
            RewardManager.ground_truth := None;
            RewardManager.data_source := "kk" |} ] |}.

Definition no_column_batch : RewardManager.DataProto :=
  {| RewardManager.rm_scores := None;
     RewardManager.items :=
       [ {| RewardManager.prompts := [1%Z];
            RewardManager.responses := [];
            RewardManager.attention_mask := [true];
            RewardManager.ground_truth := Some [];
            RewardManager.data_source := "kk" |} ] |}.

(** A lower-case ASCII letter. *)
Definition is_lower (c : ascii) : bool := between 97 122 (code c).

(** An entry of a role map as [_parse_gt_to_map] builds it: a name made
    of lower-case letters and one of the two roles. *)
Definition gt_entry_ok (kv : string * string) : Prop :=
  fst kv <> EmptyString /\
  forallb is_lower (list_ascii_of_string (fst kv)) = true /\
  (snd kv = "knight" \/ snd kv = "knave").

(** The character in front of what follows [s], when [prev] stands in
    front of [s]. *)
Definition last_of (prev : option ascii) (s : string) : option ascii :=
  last (map Some (list_ascii_of_string s)) prev.

(** A prefix in front of a name on a solution line, such as ["(1) "]:
    no letter, no line boundary, and no word character at its end. *)
Definition plain_prefix (prefix : string) : Prop :=
  forallb (fun c => negb (is_letter c) && negb (Newkk.is_linebreak c))
          (list_ascii_of_string prefix) = true /\
  Newkk.word_opt (last_of None prefix) = false.

(** A name: letters only, at least one. *)
Definition is_name (name : string) : Prop :=
  name <> EmptyString /\
  forallb is_letter (list_ascii_of_string name) = true.

(** A line of a solution text: a prefix, a name and a role. *)
Definition solution_line (e : string * string * string) : string :=
  let '(prefix, name, role) := e in
  prefix ++ name ++ " is a " ++ role.

(** The lines of the entries, joined by newlines. *)
Fixpoint solution_text (entries : list (string * string * string)) : string :=
  match entries with
  | [] => EmptyString
  | e :: rest =>
      match rest with
      | [] => solution_line e
      | _ :: _ => solution_line e ++ nl ++ solution_text rest
      end
  end.

Definition entry_ok (e : string * string * string) : Prop :=
  let '(prefix, name, role) := e in
  plain_prefix prefix /\ is_name name /\ (role = "knight" \/ role = "knave").

(** The role map that assigns, entry after entry, the role to the
    lowered name. *)
Definition assign_all (entries : list (string * string * string)) : dict :=
  fold_left
    (fun gt_map (e : string * string * string) =>
       let '(_, name, role) := e in setitem gt_map (lower name) role)
    entries [].

(** The number of samples [main] keeps of a split of [len] samples: at
    most [max_size] of them, and all but the last [- max_size] when
    [max_size] is negative. *)
Definition kept_size (len : nat) (max_size : Z) : nat :=
  if (0 <=? max_size)%Z then Nat.min len (Z.to_nat max_size)
  else (len - Z.to_nat (- max_size))%nat.

(** A small puzzle: its ground truth and a response in the layout. *)
Definition liar_truth : dict :=
  [("solution_text_format", "(1) Lily is a knave")].

Definition liar_response : string :=
  layout "" "Lily contradicts herself." nl "(1) Lily is a knave" "".

End Props.

(* ================================================================== *)
(** * Properties of the structural stage                              *)
(* ================================================================== *)

Import Py Spec.
Local Open Scope Q_scope.

(** With each tag found once, the tag loop of [rule.py] runs to its end
    with four tag rewards and the four offsets. *)
Lemma rule_tag_loop_once (text : string) :
  once_each false text ->
  Rule.tag_loop Rule.critical_tags_data text 0.0 [] =
  Continue
    (0.0 + Rule.REWARD_TAG_PRESENT + Rule.REWARD_TAG_PRESENT
     + Rule.REWARD_TAG_PRESENT + Rule.REWARD_TAG_PRESENT,
     [ ("think_start", offset false "<think>" text);
       ("think_end", offset false "</think>" text);
       ("answer_start", offset false "<answer>" text);
       ("answer_end", offset false "</answer>" text) ]).
Proof.
  unfold once_each, count. intros (H1 & H2 & H3 & H4).
  unfold Rule.critical_tags_data, Rule._RE_THINK_START, Rule._RE_THINK_END,
    Rule._RE_ANSWER_START, Rule._RE_ANSWER_END.
  cbn [Rule.tag_loop].
  rewrite H1, H2, H3, H4. cbn [Nat.eqb app]. reflexivity.
Qed.

(** The same for the tag loop of [newkk.py]. *)
Lemma newkk_tag_loop_once (text : string) :
  once_each false text ->
  Newkk.tag_loop Newkk.critical_tags_data text 0.0 [] =
  Continue
    (0.0 + Newkk.REWARD_TAG_PRESENT + Newkk.REWARD_TAG_PRESENT
     + Newkk.REWARD_TAG_PRESENT + Newkk.REWARD_TAG_PRESENT,
     [ ("think_start", offset false "<think>" text);
       ("think_end", offset false "</think>" text);
       ("answer_start", offset false "<answer>" text);
       ("answer_end", offset false "</answer>" text) ]).
Proof.
  unfold once_each, count. intros (H1 & H2 & H3 & H4).
  unfold Newkk.critical_tags_data, Newkk._RE_THINK_START, Newkk._RE_THINK_END,
    Newkk._RE_ANSWER_START, Newkk._RE_ANSWER_END.
  cbn [Newkk.tag_loop].
  rewrite H1, H2, H3, H4. cbn [Nat.eqb app]. reflexivity.
Qed.

(** The boolean order test of both scorers decides [in_order]. *)
Lemma order_test_spec (text : string) :
  ((offset false "<think>" text <? offset false "</think>" text)%nat
   && (offset false "</think>" text <? offset false "<answer>" text)%nat
   && (offset false "<answer>" text <? offset false "</answer>" text)%nat) = true
  <-> in_order false text.
Proof.
  unfold in_order. rewrite !andb_true_iff, !Nat.ltb_lt. tauto.
Qed.

Lemma rule_structural_once (text : string) :
  once_each false text ->
  Rule.structural_check text =
  if ((offset false "<think>" text <? offset false "</think>" text)%nat
      && (offset false "</think>" text <? offset false "<answer>" text)%nat
      && (offset false "<answer>" text <? offset false "</answer>" text)%nat)
  then Continue (0.0 + Rule.REWARD_TAG_PRESENT + Rule.REWARD_TAG_PRESENT
                 + Rule.REWARD_TAG_PRESENT + Rule.REWARD_TAG_PRESENT
                 + Rule.REWARD_ORDER_CORRECT)
  else Return (0.0 + Rule.REWARD_TAG_PRESENT + Rule.REWARD_TAG_PRESENT
               + Rule.REWARD_TAG_PRESENT + Rule.REWARD_TAG_PRESENT
               + Rule.PENALTY_ORDER_INCORRECT).
Proof.
  intros H. unfold Rule.structural_check.
  rewrite (rule_tag_loop_once H). reflexivity.
Qed.

Lemma newkk_structural_once (text : string) :
  once_each false text ->
  Newkk.structural_check text =
  if ((offset false "<think>" text <? offset false "</think>" text)%nat
      && (offset false "</think>" text <? offset false "<answer>" text)%nat
      && (offset false "<answer>" text <? offset false "</answer>" text)%nat)
  then Continue (0.0 + Newkk.REWARD_TAG_PRESENT + Newkk.REWARD_TAG_PRESENT
                 + Newkk.REWARD_TAG_PRESENT + Newkk.REWARD_TAG_PRESENT
                 + Newkk.REWARD_ORDER_CORRECT)
  else Return (0.0 + Newkk.REWARD_TAG_PRESENT + Newkk.REWARD_TAG_PRESENT
               + Newkk.REWARD_TAG_PRESENT + Newkk.REWARD_TAG_PRESENT
               + Newkk.PENALTY_ORDER_INCORRECT).
Proof.
  intros H. unfold Newkk.structural_check.
  rewrite (newkk_tag_loop_once H). unfold Newkk.order_check.
  cbn [getpos String.eqb Ascii.eqb Bool.eqb].
  destruct (_ && _ && _); reflexivity.
Qed.

(** C2.  On [response_missing_end_tag], where [<think>] occurs once and
    [</think>] is missing, both scorers reject, yet the total is the
    missing-or-duplicate penalty plus the reward of the tag already
    counted: -1.5 for [rule.py] (its test section expects -2.0) and -3.5
    for [newkk.py]. *)
Theorem C2_missing_end_tag_total (ground_truth : dict) :
  count false "<think>" response_missing_end_tag = 1%nat /\
  count false "</think>" response_missing_end_tag = 0%nat /\
  rejected (Rule.structural_check response_missing_end_tag) /\
  Rule.compute_score response_missing_end_tag ground_truth == -1.5 /\
  ~ Rule.compute_score response_missing_end_tag ground_truth
    == Rule.PENALTY_TAG_MISSING_OR_DUPLICATE /\
  rejected (Newkk.structural_check response_missing_end_tag) /\
  Newkk.compute_score response_missing_end_tag ground_truth == -3.5 /\
  ~ Newkk.compute_score response_missing_end_tag ground_truth
    == Newkk.PENALTY_TAG_MISSING_OR_DUPLICATE.
Proof.
  repeat split; try reflexivity; try discriminate.
  - eexists. vm_compute. reflexivity.
  - eexists. vm_compute. reflexivity.
Qed.

(** C7.  A text with each of the four tags exactly once whose start
    offsets are not in the order think_start < think_end < answer_start <
    answer_end scores four tag rewards plus the order penalty, in
    [rule.py] and in [newkk.py], and nothing else. *)
Theorem C7_wrong_order_total (text : string) (ground_truth : dict) :
  once_each false text ->
  ~ in_order false text ->
  Rule.compute_score text ground_truth
    == 4 * Rule.REWARD_TAG_PRESENT + Rule.PENALTY_ORDER_INCORRECT /\
  Newkk.compute_score text ground_truth
    == 4 * Newkk.REWARD_TAG_PRESENT + Newkk.PENALTY_ORDER_INCORRECT.
Proof.
  intros Honce Hord.
  unfold Rule.compute_score, Newkk.compute_score.
  rewrite (rule_structural_once Honce), (newkk_structural_once Honce).
  destruct (_ && _ && _) eqn:E.
  - apply order_test_spec in E. contradiction.
  - split; reflexivity.
Qed.

Lemma C7_wrong_order_total_witness :
  Rule.compute_score response_wrong_order []
    == 4 * Rule.REWARD_TAG_PRESENT + Rule.PENALTY_ORDER_INCORRECT /\
  Newkk.compute_score response_wrong_order []
    == 4 * Newkk.REWARD_TAG_PRESENT + Newkk.PENALTY_ORDER_INCORRECT.
Proof.
  apply (@C7_wrong_order_total response_wrong_order []).
  - repeat split; reflexivity.
  - unfold in_order. vm_compute. lia.
Defined.

(** C10.  The score of [rule.py] does not depend on the ground truth. *)
Theorem C10_rule_ignores_ground_truth (text : string) (g1 g2 : dict) :
  Rule.compute_score text g1 = Rule.compute_score text g2.
Proof.
  reflexivity.
Qed.

(** C3, as stated, fails: [upper_sample] holds each delimiter exactly
    once when letter case is ignored, in the right order, and both
    scorers reject it, while the same text in lower case is accepted and
    scores differently. *)
Lemma C3_uppercase_tags_rejected :
  once_each true upper_sample /\ in_order true upper_sample /\
  ~ accepted (Rule.structural_check upper_sample) /\
  ~ accepted (Newkk.structural_check upper_sample) /\
  lower upper_sample = lower_sample /\
  accepted (Rule.structural_check lower_sample) /\
  ~ Rule.compute_score upper_sample [] == Rule.compute_score lower_sample [].
Proof.
  split; [repeat split; reflexivity|].
  split; [unfold in_order; vm_compute; lia|].
  split; [intros [s Hs]; vm_compute in Hs; discriminate|].
  split; [intros [s Hs]; vm_compute in Hs; discriminate|].
  split; [reflexivity|].
  split; [eexists; vm_compute; reflexivity|].
  vm_compute. discriminate.
Qed.

(** C3, amended.  The scan matches the delimiters exactly as written, in
    lower case: a text that holds each of [<think>], [</think>],
    [<answer>], [</answer>] exactly once, in that order, is accepted by
    both scorers. *)
Theorem C3_exact_case_tags_accepted (text : string) :
  once_each false text ->
  in_order false text ->
  accepted (Rule.structural_check text) /\
  accepted (Newkk.structural_check text).
Proof.
  intros Honce Hord.
  rewrite (rule_structural_once Honce), (newkk_structural_once Honce).
  apply order_test_spec in Hord. rewrite Hord.
  split; eexists; reflexivity.
Qed.

Lemma C3_exact_case_tags_accepted_witness :
  accepted (Rule.structural_check lower_sample) /\
  accepted (Newkk.structural_check lower_sample).
Proof.
  apply (@C3_exact_case_tags_accepted lower_sample).
  - repeat split; reflexivity.
  - unfold in_order. vm_compute. lia.
Defined.

(* ================================================================== *)
(** * Properties of the logic-puzzle scorer                           *)
(* ================================================================== *)

(** The slope of the length-shaping line is 8/2000. *)
Lemma think_length_line (n : nat) :
  (Newkk.MAX_THINK_REWARD - Newkk.MIN_THINK_REWARD) / Newkk.TARGET_THINK_LENGTH
  * inject_Z (Z.of_nat n) + Newkk.MIN_THINK_REWARD
  == (1 # 250) * inject_Z (Z.of_nat n) - 4.
Proof.
  unfold Newkk.MAX_THINK_REWARD, Newkk.MIN_THINK_REWARD,
    Newkk.TARGET_THINK_LENGTH.
  setoid_replace ((4.0 - -4.0) / 2000.0) with (1 # 250) by reflexivity.
  lra.
Qed.

Lemma inject_nat_le (m n : nat) :
  (m <= n)%nat -> inject_Z (Z.of_nat m) <= inject_Z (Z.of_nat n).
Proof.
  intros H. rewrite <- Zle_Qle. lia.
Qed.

(** C8.  The length-shaping component never decreases when the reasoning
    block gets longer, and from the target length of 2000 characters on
    it equals the maximum reward. *)
Theorem C8_length_score_monotone_capped :
  (forall m n : nat,
      (m <= n)%nat ->
      Newkk.think_length_score m <= Newkk.think_length_score n) /\
  (forall n : nat,
      (2000 <= n)%nat ->
      Newkk.think_length_score n == Newkk.MAX_THINK_REWARD).
Proof.
  split.
  - intros m n Hmn. unfold Newkk.think_length_score.
    apply Q.min_le_compat_r. rewrite !think_length_line.
    pose proof (inject_nat_le Hmn). lra.
  - intros n Hn. unfold Newkk.think_length_score.
    apply Q.min_r. rewrite think_length_line.
    pose proof (@inject_nat_le 2000 n Hn) as H.
    change (inject_Z (Z.of_nat 2000)) with (inject_Z 2000) in H.
    unfold Newkk.MAX_THINK_REWARD.
    assert (inject_Z 2000 == 2000) by reflexivity. lra.
Qed.

Lemma C8_length_score_monotone_capped_witness :
  Newkk.think_length_score 10 <= Newkk.think_length_score 1999 /\
  Newkk.think_length_score 2500 == Newkk.MAX_THINK_REWARD.
Proof.
  split.
  - apply (proj1 C8_length_score_monotone_capped 10%nat 1999%nat). lia.
  - apply (proj2 C8_length_score_monotone_capped 2500%nat). lia.
Defined.

(** C5, as stated, fails: [short_sample] passes the structural checks,
    its answer block is ["y"], and with an empty role map the scorer adds
    nothing after the reasoning stage; the empty-answer penalty is not
    applied. *)
Lemma C5_empty_role_map_not_penalised :
  Newkk.structural_check short_sample = Continue (0.0 + 0.5 + 0.5 + 0.5 + 0.5 + 1.0) /\
  answer_block short_sample = "y"%string /\
  role_map [] = [] /\
  Newkk.compute_score short_sample []
    == Newkk.think_stage short_sample [] (0.0 + 0.5 + 0.5 + 0.5 + 0.5 + 1.0) /\
  ~ Newkk.compute_score short_sample []
    == Newkk.think_stage short_sample [] (0.0 + 0.5 + 0.5 + 0.5 + 0.5 + 1.0)
       + Newkk.PENALTY_CONTENT_EMPTY_ANSWER.
Proof.
  repeat split; try reflexivity.
  vm_compute. discriminate.
Qed.

(** C5, amended.  For a text that passes the structural and ordering
    checks, if the answer block is empty or the role map is empty the
    scorer stops after the reasoning stage without an assertion score: it
    adds the empty-answer penalty when the answer block is empty, and
    adds nothing when the answer block is not empty and only the role
    map is. *)
Theorem C5_short_circuit_total (text : string) (ground_truth : dict) (s : Q) :
  Newkk.structural_check text = Continue s ->
  answer_block text = EmptyString \/ role_map ground_truth = [] ->
  Newkk.compute_score text ground_truth
  == Newkk.think_stage text (role_map ground_truth) s
     + (if truthy (answer_block text) then 0
        else Newkk.PENALTY_CONTENT_EMPTY_ANSWER).
Proof.
  intros Hs Hcase. unfold Newkk.compute_score. rewrite Hs.
  fold (role_map ground_truth). unfold Newkk.answer_stage.
  fold (answer_block text).
  destruct Hcase as [Ha | Hg].
  - rewrite Ha. cbn [truthy negb orb]. reflexivity.
  - rewrite Hg. destruct (truthy (answer_block text)); cbn [negb orb]; reflexivity.
Qed.

Lemma C5_short_circuit_total_witness :
  Newkk.compute_score blank_answer_sample []
  == Newkk.think_stage blank_answer_sample (role_map [])
       (0.0 + 0.5 + 0.5 + 0.5 + 0.5 + 1.0)
     + (if truthy (answer_block blank_answer_sample) then 0
        else Newkk.PENALTY_CONTENT_EMPTY_ANSWER).
Proof.
  apply (@C5_short_circuit_total blank_answer_sample []).
  - reflexivity.
  - left. reflexivity.
Defined.

(* ================================================================== *)
(** * Properties of the molecule scorer                               *)
(* ================================================================== *)

Section StringFacts.
Local Open Scope string_scope.

Lemma append_assoc (a b c : string) : (a ++ b) ++ c = a ++ b ++ c.
Proof.
  induction a as [|x a IH]; cbn; [reflexivity | now rewrite IH].
Qed.

Lemma length_append (a b : string) :
  String.length (a ++ b) = (String.length a + String.length b)%nat.
Proof.
  induction a as [|x a IH]; cbn; [reflexivity | now rewrite IH].
Qed.

Lemma length_lower (s : string) : String.length (lower s) = String.length s.
Proof.
  induction s as [|x s IH]; cbn; [reflexivity | now rewrite IH].
Qed.

Lemma lower_append (a b : string) : lower (a ++ b) = lower a ++ lower b.
Proof.
  induction a as [|x a IH]; cbn; [reflexivity | now rewrite IH].
Qed.

Lemma all_space_append (a b : string) :
  all_space (a ++ b) = all_space a && all_space b.
Proof.
  induction a as [|x a IH]; cbn; [reflexivity|].
  now rewrite IH, andb_assoc.
Qed.

Lemma rstrip_empty (s : string) :
  rstrip s = EmptyString <-> all_space s = true.
Proof.
  induction s as [|x s IH]; cbn; [tauto|].
  destruct (rstrip s) eqn:E.
  - destruct (is_space x); cbn.
    + split; intros _; [now apply IH | reflexivity].
    + split; discriminate.
  - split; [discriminate|].
    rewrite andb_true_iff. intros [_ H]. apply IH in H. discriminate.
Qed.

Lemma lstrip_all_space (s : string) :
  all_space (lstrip s) = true -> all_space s = true.
Proof.
  induction s as [|x s IH]; cbn; [tauto|].
  destruct (is_space x) eqn:E; cbn.
  - exact IH.
  - rewrite E. cbn. discriminate.
Qed.

Lemma lstrip_of_all_space (s : string) :
  all_space s = true -> lstrip s = EmptyString.
Proof.
  induction s as [|x s IH]; cbn; [reflexivity|].
  destruct (is_space x); cbn; [exact IH | discriminate].
Qed.

(** [s.strip()] is empty exactly when [s] is blank. *)
Lemma strip_empty (s : string) :
  strip s = EmptyString <-> all_space s = true.
Proof.
  unfold strip. rewrite rstrip_empty. split.
  - apply lstrip_all_space.
  - intros H. now rewrite (@lstrip_of_all_space _ H).
Qed.

(** The blanks [lstrip] removes. *)
Lemma lstrip_split (s : string) : exists w, s = w ++ lstrip s.
Proof.
  induction s as [|x s [w IH]]; cbn.
  - now exists EmptyString.
  - destruct (is_space x).
    + exists (String x w). cbn. now rewrite <- IH.
    + now exists EmptyString.
Qed.

Lemma char_eq_ci_lower (a b : ascii) :
  char_eq true a b = true -> lower_char b = lower_char a.
Proof.
  unfold char_eq. intros H. apply Ascii.eqb_eq in H. congruence.
Qed.

(** A case-insensitive match at the head of [s] splits [s] into the
    matched text and what [drop] leaves. *)
Lemma starts_with_ci_split (pat s : string) :
  starts_with true pat s = true ->
  exists m, s = m ++ drop (String.length pat) s /\ lower m = lower pat.
Proof.
  revert s. induction pat as [|p pat IH]; intros s H.
  - now exists EmptyString.
  - destruct s as [|c s]; cbn in H; [discriminate|].
    apply andb_true_iff in H as [Hc Hs].
    destruct (IH _ Hs) as (m & Hm & Hl).
    exists (String c m). cbn. split.
    + now rewrite <- Hm.
    + now rewrite Hl, (@char_eq_ci_lower _ _ Hc).
Qed.


(** [g] sits in front of a closing tag: [s = w1 ++ g ++ w2 ++ cl ++ rest]
    with [cl] a closing tag in some letter casing. *)
Lemma lazy_group_sound (s g : string) :
  Chem.lazy_group s = Some g ->
  exists w2 cl rest, s = g ++ w2 ++ cl ++ rest /\ lower cl = "</smiles>".
Proof.
  revert g. induction s as [|c s IH]; intros g H; [discriminate|].
  cbn [Chem.lazy_group] in H.
  destruct (Chem.ws_then_close s) eqn:E.
  - injection H as <-. unfold Chem.ws_then_close in E.
    destruct (@starts_with_ci_split _ _ E) as (cl & Hcl & Hl).
    destruct (lstrip_split s) as [w Hw].
    exists w, cl, (drop (String.length "</SMILES>") (lstrip s)).
    split; [|exact Hl]. cbn [append]. now rewrite <- Hcl, <- Hw.
  - destruct (Chem.lazy_group s) as [g'|] eqn:E'; [|discriminate].
    injection H as <-.
    destruct (IH _ eq_refl) as (w2 & cl & rest & Hs & Hl).
    exists w2, cl, rest. split; [|exact Hl]. cbn [append]. now rewrite <- Hs.
Qed.

Lemma after_open_sound (s g : string) :
  Chem.after_open s = Some g ->
  exists w1 w2 cl rest,
    s = w1 ++ g ++ w2 ++ cl ++ rest /\ lower cl = "</smiles>".
Proof.
  revert g. induction s as [|c s IH]; intros g H; [discriminate|].
  cbn [Chem.after_open] in H.
  assert (Hlazy : Chem.lazy_group (String c s) = Some g ->
            exists w1 w2 cl rest,
              String c s = w1 ++ g ++ w2 ++ cl ++ rest /\ lower cl = "</smiles>").
  { intros HL. destruct (@lazy_group_sound _ _ HL) as (w2 & cl & rest & Hs & Hl).
    now exists EmptyString, w2, cl, rest. }
  destruct (is_space c); [|now apply Hlazy].
  destruct (Chem.after_open s) as [g'|] eqn:E; [|now apply Hlazy].
  injection H as <-.
  destruct (IH _ eq_refl) as (w1 & w2 & cl & rest & Hs & Hl).
  exists (String c w1), w2, cl, rest. split; [|exact Hl].
  cbn [append]. now rewrite <- Hs.
Qed.

Lemma search_smiles_sound (s g : string) :
  Chem.search_smiles s = Some g ->
  exists pre op w1 w2 cl post,
    s = pre ++ op ++ (w1 ++ g ++ w2) ++ cl ++ post /\
    lower op = "<smiles>" /\ lower cl = "</smiles>".
Proof.
  revert g. induction s as [|c s IH]; intros g H; [discriminate|].
  cbn [Chem.search_smiles] in H.
  destruct (if starts_with true "<SMILES>" (String c s)
            then Chem.after_open (drop 8 (String c s)) else None)
    as [g'|] eqn:E.
  - injection H as <-.
    destruct (starts_with true "<SMILES>" (String c s)) eqn:Eo; [|discriminate].
    destruct (@starts_with_ci_split _ _ Eo) as (op & Hop & Hl).
    destruct (@after_open_sound _ _ E) as (w1 & w2 & cl & post & Hs & Hcl).
    exists EmptyString, op, w1, w2, cl, post. repeat split; try assumption.
    cbn [append]. rewrite Hop at 1. f_equal.
    change (String.length "<SMILES>") with 8%nat. rewrite Hs.
    now rewrite !append_assoc.
  - destruct (IH _ H) as (pre & op & w1 & w2 & cl & post & Hs & Hop & Hcl).
    exists (String c pre), op, w1, w2, cl, post. repeat split; try assumption.
    cbn [append]. now rewrite <- Hs.
Qed.

Lemma truthy_true (s : string) : truthy s = true <-> s <> EmptyString.
Proof.
  destruct s; cbn; split; congruence.
Qed.

(** The format stage either fails with the penalty, or the text holds
    one well-formed pair. *)
Lemma check_format_cases (text : string) :
  Chem.check_format text = (-5.0, None) \/
  (exists smiles, Chem.check_format text = (1.0, Some smiles)) /\
  smiles_pair_nonempty text.
Proof.
  unfold Chem.check_format.
  destruct (List.length (finditer true "<SMILES>" text) =? 1)%nat eqn:E1;
    [|now left].
  destruct (List.length (finditer true "</SMILES>" text) =? 1)%nat eqn:E2;
    [|now left].
  cbn [andb].
  destruct (Chem.search_smiles text) as [g|] eqn:E; [|now left].
  destruct (truthy (strip g)) eqn:Et; [|now left].
  right. split; [now eexists|].
  apply Nat.eqb_eq in E1, E2.
  split; [exact E1|]. split; [exact E2|].
  destruct (@search_smiles_sound _ _ E)
    as (pre & op & w1 & w2 & cl & post & Hs & Hop & Hcl).
  exists pre, op, (w1 ++ g ++ w2), cl, post. repeat split; try assumption.
  intros Hempty. apply strip_empty in Hempty.
  rewrite !all_space_append, !andb_true_iff in Hempty.
  destruct Hempty as (_ & Hg & _).
  apply strip_empty in Hg. apply truthy_true in Et. contradiction.
Qed.

End StringFacts.

(** C6, as stated, fails when RDKit is not installed: the format stage
    extracts the SMILES of [invalid_smiles_sample], the validity stage
    refuses it with the validity penalty, and yet the total is the
    format-failure penalty -5.0, not format reward plus validity
    penalty. *)
Lemma C6_missing_rdkit_not_staged :
  Chem.check_format invalid_smiles_sample
  = (1.0, Some "INVALID_SMILES_STRING"%string) /\
  Chem.check_validity absent_oracle "INVALID_SMILES_STRING"
  = Ok (-3.0, None) /\
  Chem.compute_score absent_oracle invalid_smiles_sample [] = Ok (-5.0) /\
  ~ (-5.0 == 1.0 + -3.0).
Proof.
  repeat split. intros H. vm_compute in H. discriminate.
Qed.

(** C6, amended.  The molecule scorer is staged.  A text that does not
    hold exactly one [<SMILES>]...[</SMILES>] pair with inner text that
    is not blank totals exactly the format-failure penalty -5.0.  With
    RDKit installed, a text whose extracted SMILES the oracle does not
    parse (it returns [None] or raises) totals exactly the format reward
    plus the validity penalty, 1.0 + -3.0, whatever the property calls
    of the oracle would return.  Without RDKit every text totals the
    format-failure penalty. *)
Theorem C6_staged_total (Mol : Type) (o : Chem.Oracle Mol) (text : string)
    (ground_truth : dict) :
  (~ smiles_pair_nonempty text ->
   Chem.compute_score o text ground_truth = Ok (-5.0)) /\
  (forall smiles : string,
      Chem.RDKIT_AVAILABLE o = true ->
      snd (Chem.check_format text) = Some smiles ->
      Chem.MolFromSmiles o smiles = Ok None \/
      (exists e, Chem.MolFromSmiles o smiles = Raise e) ->
      Chem.compute_score o text ground_truth = Ok (1.0 + -3.0)) /\
  (Chem.RDKIT_AVAILABLE o = false ->
   Chem.compute_score o text ground_truth = Ok (-5.0)).
Proof.
  split; [|split].
  - intros Hbad. unfold Chem.compute_score.
    destruct (Chem.RDKIT_AVAILABLE o); cbn [negb]; [|reflexivity].
    destruct (check_format_cases text) as [-> | [_ Hgood]];
      [reflexivity | contradiction].
  - intros smiles Hav Hfmt Hparse. unfold Chem.compute_score.
    rewrite Hav. cbn [negb].
    destruct (check_format_cases text) as [E | [[sm E] _]];
      rewrite E in Hfmt |- *; cbn [snd] in Hfmt; [discriminate|].
    injection Hfmt as ->.
    unfold Chem.check_validity. rewrite Hav. cbn [negb].
    destruct Hparse as [-> | [e ->]]; reflexivity.
  - intros Hav. unfold Chem.compute_score. now rewrite Hav.
Qed.

Lemma C6_staged_total_witness :
  Chem.compute_score rejecting_oracle empty_smiles_sample [] = Ok (-5.0) /\
  Chem.compute_score rejecting_oracle invalid_smiles_sample []
  = Ok (1.0 + -3.0) /\
  Chem.compute_score absent_oracle invalid_smiles_sample [] = Ok (-5.0).
Proof.
  split; [|split].
  - apply (proj1 (C6_staged_total rejecting_oracle empty_smiles_sample [])).
    intros (_ & _ & pre & op & inner & cl & post & Ht & Hop & Hcl & Hin).
    apply Hin.
    apply (f_equal String.length) in Ht, Hop, Hcl.
    rewrite !length_append in Ht. rewrite length_lower in Hop, Hcl.
    cbn in Ht, Hop, Hcl.
    destruct inner; [reflexivity | cbn in Ht; lia].
  - apply (proj1 (proj2 (C6_staged_total rejecting_oracle
                           invalid_smiles_sample []))
             "INVALID_SMILES_STRING"%string).
    + reflexivity.
    + reflexivity.
    + left. reflexivity.
  - apply (proj2 (proj2 (C6_staged_total absent_oracle
                           invalid_smiles_sample []))).
    reflexivity.
Defined.

(** ** The property rewards *)

Lemma Qlt_bool_true (a b : Q) : Chem.Qlt_bool a b = true -> a < b.
Proof.
  unfold Chem.Qlt_bool. intros H. apply negb_true_iff in H.
  apply Qnot_le_lt. intros Hle. apply Qle_bool_iff in Hle. congruence.
Qed.

Lemma max_zero_nonneg (x : Q) : 0 <= Qmax 0.0 x.
Proof.
  apply Qle_trans with 0.0; [lra | apply Q.le_max_l].
Qed.

(** Turn the boolean tests of a reward curve into order facts. *)
Ltac curve_facts :=
  repeat match goal with
  | H : _ && _ = true |- _ => apply andb_true_iff in H; destruct H
  | H : Qle_bool _ _ = true |- _ => apply Qle_bool_iff in H
  | H : Chem.Qlt_bool _ _ = true |- _ => apply Qlt_bool_true in H
  end.

Section Rewards.
Variable Mol : Type.
Variable o : Chem.Oracle Mol.
Variable mol : Mol.


Lemma nonneg_zero : nonneg (Ok 0.0).
Proof. eexists; split; [reflexivity | lra]. Qed.

Lemma nonneg_ok (v : Q) : 0 <= v -> nonneg (Ok v).
Proof. intros H. now exists v. Qed.

Lemma qed_reward_nonneg : nonneg (Chem.qed_reward o mol).
Proof.
  unfold Chem.qed_reward.
  destruct (Chem.RDKIT_AVAILABLE o); cbn [negb]; [|apply nonneg_zero].
  destruct (Chem.QED_qed o mol) as [q|e]; cbn [bind try_except];
    [|apply nonneg_zero].
  destruct (Chem.Qlt_bool q 0.5) eqn:E; cbn [try_except];
    [apply nonneg_zero|].
  apply nonneg_ok. unfold Chem.Qlt_bool in E. apply negb_false_iff in E.
  apply Qle_bool_iff in E. lra.
Qed.

Lemma sa_reward_nonneg : nonneg (Chem.sa_reward o mol).
Proof.
  unfold Chem.sa_reward.
  destruct (Chem.SA_SCORE_AVAILABLE o); cbn [negb];
    [|apply nonneg_ok; lra].
  destruct (Chem.calculateScore o mol) as [q|e]; cbn [bind try_except];
    [|apply nonneg_zero].
  destruct (Qle_bool q 4.0) eqn:E1; cbn [try_except].
  - apply nonneg_ok. curve_facts. lra.
  - destruct (Qle_bool q 7.0); cbn [try_except];
      [apply nonneg_ok; apply max_zero_nonneg | apply nonneg_zero].
Qed.

Lemma logp_reward_nonneg : nonneg (Chem.logp_reward o mol).
Proof.
  unfold Chem.logp_reward.
  destruct (Chem.RDKIT_AVAILABLE o); cbn [negb]; [|apply nonneg_zero].
  destruct (Chem.MolLogP o mol) as [q|e]; cbn [bind try_except];
    [|apply nonneg_zero].
  destruct (Qle_bool 1.0 q && Qle_bool q 4.0) eqn:E1; cbn [try_except].
  - apply nonneg_ok. curve_facts.
    assert (Qabs (q - 2.5) <= 1.5) by (apply Qabs_Qle_condition; split; lra).
    lra.
  - destruct (Qle_bool 0 q && Chem.Qlt_bool q 1.0) eqn:E2; cbn [try_except].
    + apply nonneg_ok. curve_facts. lra.
    + destruct (Chem.Qlt_bool 4.0 q && Qle_bool q 5.0); cbn [try_except];
        [apply nonneg_ok; apply max_zero_nonneg | apply nonneg_zero].
Qed.

Lemma band_ramp_nonneg (x lo : Q) (d : Q) :
  0 < d -> lo <= x -> 0 <= (x - lo) / d * 0.5.
Proof.
  intros Hd Hx.
  apply Qmult_le_0_compat; [|lra].
  apply Qle_shift_div_l; [exact Hd | lra].
Qed.

Lemma mw_reward_nonneg : nonneg (Chem.mw_reward o mol).
Proof.
  unfold Chem.mw_reward.
  destruct (Chem.RDKIT_AVAILABLE o); cbn [negb]; [|apply nonneg_zero].
  destruct (Chem.MolWt o mol) as [q|e]; cbn [bind try_except];
    [|apply nonneg_zero].
  destruct (Qle_bool 200 q && Qle_bool q 500) eqn:E1; cbn [try_except].
  - apply nonneg_ok. lra.
  - destruct (Qle_bool 150 q && Chem.Qlt_bool q 200) eqn:E2; cbn [try_except].
    + apply nonneg_ok. curve_facts. apply band_ramp_nonneg; lra.
    + destruct (Chem.Qlt_bool 500 q && Qle_bool q 600); cbn [try_except];
        [apply nonneg_ok; apply max_zero_nonneg | apply nonneg_zero].
Qed.

Lemma tpsa_reward_nonneg : nonneg (Chem.tpsa_reward o mol).
Proof.
  unfold Chem.tpsa_reward.
  destruct (Chem.RDKIT_AVAILABLE o); cbn [negb]; [|apply nonneg_zero].
  destruct (Chem.TPSA o mol) as [q|e]; cbn [bind try_except];
    [|apply nonneg_zero].
  destruct (Qle_bool 40 q && Qle_bool q 120) eqn:E1; cbn [try_except].
  - apply nonneg_ok. lra.
  - destruct (Qle_bool 20 q && Chem.Qlt_bool q 40) eqn:E2; cbn [try_except].
    + apply nonneg_ok. curve_facts. apply band_ramp_nonneg; lra.
    + destruct (Chem.Qlt_bool 120 q && Qle_bool q 140); cbn [try_except];
        [apply nonneg_ok; apply max_zero_nonneg | apply nonneg_zero].
Qed.

Lemma lipinski_reward_nonneg : nonneg (Chem.lipinski_reward o mol).
Proof.
  unfold Chem.lipinski_reward.
  destruct (Chem.RDKIT_AVAILABLE o); cbn [negb]; [|apply nonneg_zero].
  destruct (Chem.MolWt o mol) as [mw|e]; cbn [bind try_except];
    [|apply nonneg_zero].
  destruct (Chem.MolLogP o mol) as [logp|e]; cbn [bind try_except];
    [|apply nonneg_zero].
  destruct (Chem.NumHDonors o mol) as [hbd|e]; cbn [bind try_except];
    [|apply nonneg_zero].
  destruct (Chem.NumHAcceptors o mol) as [hba|e]; cbn [bind try_except];
    [|apply nonneg_zero].
  repeat match goal with
         | |- context [if ?b then _ else _] => destruct b
         end; cbn [try_except]; apply nonneg_ok; lra.
Qed.

Lemma egfr_specific_reward_nonneg : nonneg (Chem.egfr_specific_reward o mol).
Proof.
  unfold Chem.egfr_specific_reward.
  destruct (Chem.RDKIT_AVAILABLE o); cbn [negb]; [|apply nonneg_zero].
  destruct (Chem.NumAromaticRings o mol) as [a|e]; cbn [bind try_except];
    [|apply nonneg_zero].
  destruct (Chem.NumRotatableBonds o mol) as [r|e]; cbn [bind try_except];
    [|apply nonneg_zero].
  repeat match goal with
         | |- context [if ?b then _ else _] => destruct b
         end; apply nonneg_ok; lra.
Qed.


Lemma reward_nonneg (p : property) : nonneg (reward o p mol).
Proof.
  destruct p; cbn [reward];
    auto using qed_reward_nonneg, sa_reward_nonneg, logp_reward_nonneg,
      mw_reward_nonneg, tpsa_reward_nonneg, lipinski_reward_nonneg,
      egfr_specific_reward_nonneg.
Qed.

Lemma reward_unavailable (p : property) :
  unavailable o p = true -> reward o p mol = Ok (neutral p).
Proof.
  destruct p; cbn [unavailable reward neutral]; intros H;
    unfold Chem.qed_reward, Chem.sa_reward, Chem.logp_reward, Chem.mw_reward,
      Chem.tpsa_reward, Chem.lipinski_reward, Chem.egfr_specific_reward;
    rewrite H; reflexivity.
Qed.

Lemma raises_true (A : Type) (r : pyres A) :
  raises r = true -> exists e, r = Raise e.
Proof.
  destruct r; cbn; [discriminate | now eexists].
Qed.

Lemma reward_call_fails (p : property) :
  unavailable o p = false -> call_fails o p mol = true ->
  reward o p mol = Ok 0.0.
Proof.
  destruct p; cbn [unavailable reward call_fails]; intros Hav Hf;
    unfold Chem.qed_reward, Chem.sa_reward, Chem.logp_reward, Chem.mw_reward,
      Chem.tpsa_reward, Chem.lipinski_reward, Chem.egfr_specific_reward;
    rewrite Hav.
  1-5: apply raises_true in Hf as [e ->]; reflexivity.
  - destruct (Chem.MolWt o mol); [|reflexivity].
    destruct (Chem.MolLogP o mol); [|reflexivity].
    destruct (Chem.NumHDonors o mol); [|reflexivity].
    destruct (Chem.NumHAcceptors o mol); [discriminate | reflexivity].
  - destruct (Chem.NumAromaticRings o mol); [|reflexivity].
    destruct (Chem.NumRotatableBonds o mol); [discriminate | reflexivity].
Qed.

End Rewards.

(** C9.  Each of the seven property rewards degrades gracefully: without
    its library it returns its neutral value (1.0 for the
    synthetic-accessibility reward, 0.0 for the others); when one of its
    oracle calls raises it returns 0.0; and in every case it returns a
    value, never an exception, and that value is not negative. *)
Theorem C9_property_rewards_degrade (Mol : Type) (o : Chem.Oracle Mol)
    (mol : Mol) (p : property) :
  (unavailable o p = true -> reward o p mol = Ok (neutral p)) /\
  (unavailable o p = false -> call_fails o p mol = true ->
   reward o p mol = Ok 0.0) /\
  nonneg (reward o p mol) /\
  neutral Sa == 1 /\ (p <> Sa -> neutral p == 0).
Proof.
  split; [apply reward_unavailable|].
  split; [apply reward_call_fails|].
  split; [apply reward_nonneg|].
  split; [reflexivity|].
  destruct p; intros H; try reflexivity. contradiction.
Qed.

Lemma C9_property_rewards_degrade_witness :
  reward absent_oracle Lipinski tt = Ok (neutral Lipinski) /\
  reward no_sa_oracle Sa tt = Ok (neutral Sa) /\
  reward failing_oracle Egfr tt = Ok 0.0 /\
  reward failing_oracle Sa tt = Ok 0.0.
Proof.
  split; [|split; [|split]].
  - apply (proj1 (C9_property_rewards_degrade absent_oracle tt Lipinski)).
    reflexivity.
  - apply (proj1 (C9_property_rewards_degrade no_sa_oracle tt Sa)).
    reflexivity.
  - apply (proj1 (proj2 (C9_property_rewards_degrade failing_oracle tt Egfr)));
      reflexivity.
  - apply (proj1 (proj2 (C9_property_rewards_degrade failing_oracle tt Sa)));
      reflexivity.
Defined.

(* ================================================================== *)
(** * Properties of the reward managers                               *)
(* ================================================================== *)

Import RewardManager.

Lemma set_nth_length (A : Type) (l : list A) (n : nat) (v : A) :
  List.length (set_nth l n v) = List.length l.
Proof.
  revert n. induction l as [|x l IH]; intros [|n]; cbn; auto.
Qed.

Lemma nth_error_set_nth_eq (A : Type) (l : list A) (n : nat) (v x : A) :
  nth_error l n = Some x -> nth_error (set_nth l n v) n = Some v.
Proof.
  revert n. induction l as [|y l IH]; intros [|n]; cbn; try discriminate; auto.
Qed.

Lemma nth_error_set_nth_neq (A : Type) (l : list A) (m n : nat) (v : A) :
  m <> n -> nth_error (set_nth l n v) m = nth_error l m.
Proof.
  revert m n. induction l as [|y l IH]; intros [|m] [|n] H; cbn; auto.
  contradiction.
Qed.

(** The index [valid_response_length - 1] of a well-shaped sample
    designates [column]. *)
Lemma index_column (data_item : DataItem) :
  well_shaped data_item ->
  index (List.length (responses data_item))
        (Z.of_nat (valid_response_length data_item) - 1)
  = Ok (column data_item).
Proof.
  intros [Hne Hle]. unfold index, column.
  destruct (responses data_item) as [|r rs] eqn:E; [contradiction|].
  set (w := List.length (r :: rs)) in *.
  assert (Hw : (0 < w)%nat) by (subst w; cbn; lia).
  destruct (valid_response_length data_item) as [|v] eqn:Ev.
  - cbn [Nat.eqb].
    destruct ((0 <=? Z.of_nat 0 - 1)%Z && (Z.of_nat 0 - 1 <? Z.of_nat w)%Z) eqn:E1.
    { apply andb_true_iff in E1 as [E1 _]. apply Z.leb_le in E1. lia. }
    destruct ((- Z.of_nat w <=? Z.of_nat 0 - 1)%Z && (Z.of_nat 0 - 1 <? 0)%Z) eqn:E2.
    { f_equal. lia. }
    apply andb_false_iff in E2 as [E2 | E2];
      [apply Z.leb_gt in E2 | apply Z.ltb_ge in E2]; lia.
  - cbn [Nat.eqb].
    destruct ((0 <=? Z.of_nat (S v) - 1)%Z && (Z.of_nat (S v) - 1 <? Z.of_nat w)%Z) eqn:E1.
    { f_equal. lia. }
    apply andb_false_iff in E1 as [E1 | E1];
      [apply Z.leb_gt in E1 | apply Z.ltb_ge in E1]; lia.
Qed.

Section Loop.

Variable decode : list Z -> string.
Variable float32 : Q -> Q.
Variable key : string.
Variable score_item : DataItem -> string -> pyres Q.

(** The loop over well-shaped samples whose scoring succeeds runs to its
    end; it leaves the rows before [i] as they are and turns the zero row
    of each sample into the row that carries the sample's score, cast to
    [float32]. *)
Lemma loop_spec (todo : list DataItem) :
  forall (i : nat) (T : tensor) (info : list (string * list Q)),
    (forall it, In it todo ->
       well_shaped it /\
       exists sc, score_item it (response_str decode it) = Ok sc) ->
    (forall k it, nth_error todo k = Some it ->
       nth_error T (i + k)
       = Some (repeat 0 (List.length (responses it)))) ->
    exists T' info',
      loop decode float32 key score_item i todo (T, info) = Ok (T', info') /\
      List.length T' = List.length T /\
      (forall j, (j < i)%nat -> nth_error T' j = nth_error T j) /\
      (forall k it, nth_error todo k = Some it ->
         exists sc, score_item it (response_str decode it) = Ok sc /\
                    nth_error T' (i + k)
                    = Some (scored_row it (float32 sc))).
Proof.
  induction todo as [|it rest IH]; intros i T info Hok Hrows.
  - exists T, info. cbn. repeat split; auto.
    intros [|k] it H; discriminate.
  - destruct (Hok it (or_introl eq_refl)) as [Hshape [sc Hsc]].
    pose proof (Hrows 0%nat it eq_refl) as Hrow. rewrite Nat.add_0_r in Hrow.
    set (T1 := set_nth T i (scored_row it (float32 sc))).
    assert (Hbody : loop_body decode float32 key score_item i it (T, info)
                    = Ok (T1, append_info info key sc)).
    { unfold loop_body. fold (response_str decode it). rewrite Hsc.
      cbn [bind]. unfold tensor_setitem. rewrite Hrow.
      rewrite repeat_length, (index_column Hshape). reflexivity. }
    destruct (IH (S i) T1 (append_info info key sc)) as (T' & info' & HL & Hlen & Hpre & Hpost).
    { intros it' Hin. apply Hok. now right. }
    { intros k it' Hk. unfold T1. rewrite nth_error_set_nth_neq by lia.
      replace (S i + k)%nat with (i + S k)%nat by lia. now apply Hrows. }
    exists T', info'. split; [|split; [|split]].
    + cbn [loop]. rewrite Hbody. exact HL.
    + rewrite Hlen. apply set_nth_length.
    + intros j Hj. rewrite Hpre by lia. unfold T1.
      apply nth_error_set_nth_neq. lia.
    + intros [|k] it' Hk.
      * injection Hk as <-. exists sc. split; [exact Hsc|].
        rewrite Nat.add_0_r, Hpre by lia.
        unfold T1. eapply nth_error_set_nth_eq. exact Hrow.
      * replace (i + S k)%nat with (S i + k)%nat by lia. now apply Hpost.
Qed.

End Loop.

(** The whole loop of [__call__], started on the zero tensor. *)
Lemma loop_zeros (decode : list Z -> string) (float32 : Q -> Q)
    (key : string)
    (score_item : DataItem -> string -> pyres Q) (data : DataProto) :
  (forall it, In it (items data) ->
     well_shaped it /\
     exists sc, score_item it (response_str decode it) = Ok sc) ->
  exists T' info',
    loop decode float32 key score_item 0 (items data) (zeros_like data, []) = Ok (T', info') /\
    (forall k it, nth_error (items data) k = Some it ->
       exists sc, score_item it (response_str decode it) = Ok sc /\
                  nth_error T' k = Some (scored_row it (float32 sc))).
Proof.
  intros Hok.
  destruct (@loop_spec decode float32 key score_item (items data) 0%nat
              (zeros_like data) [] Hok) as (T' & info' & HL & _ & _ & Hpost).
  - intros k it Hk. unfold zeros_like. cbn [Nat.add].
    now rewrite nth_error_map, Hk.
  - exists T', info'. split; [exact HL|]. exact Hpost.
Qed.

(** Whatever the oracle, the molecule scorer returns a value. *)
Lemma chem_compute_score_total (Mol : Type) (o : Chem.Oracle Mol)
    (text : string) (ground_truth : dict) :
  exists v, Chem.compute_score o text ground_truth = Ok v.
Proof.
  unfold Chem.compute_score.
  destruct (Chem.RDKIT_AVAILABLE o) eqn:Hav; cbn [negb]; [|now eexists].
  destruct (Chem.check_format text) as [fr [sm|]]; [|now eexists].
  unfold Chem.check_validity. rewrite Hav. cbn [negb].
  destruct (Chem.MolFromSmiles o sm) as [[m|]|e]; cbn [bind try_except];
    try (now eexists).
  destruct (qed_reward_nonneg o m) as (v1 & -> & _).
  destruct (sa_reward_nonneg o m) as (v2 & -> & _).
  destruct (logp_reward_nonneg o m) as (v3 & -> & _).
  destruct (mw_reward_nonneg o m) as (v4 & -> & _).
  destruct (tpsa_reward_nonneg o m) as (v5 & -> & _).
  destruct (lipinski_reward_nonneg o m) as (v6 & -> & _).
  destruct (egfr_specific_reward_nonneg o m) as (v7 & -> & _).
  cbn [bind]. now eexists.
Qed.

(** With no valid token the scored row carries the score in its last
    column, and the scored text is the decoding of no token. *)
Lemma zero_valid_row (data_item : DataItem) (score : Q) :
  valid_response_length data_item = 0%nat ->
  scored_row data_item score
  = last_column_row (List.length (responses data_item)) score.
Proof.
  intros H. unfold scored_row, column, last_column_row. now rewrite H.
Qed.

Lemma zero_valid_response_str (decode : list Z -> string)
    (data_item : DataItem) :
  valid_response_length data_item = 0%nat ->
  response_str decode data_item = decode [].
Proof.
  intros H. unfold response_str. now rewrite H.
Qed.

(** The summary of the chemistry manager succeeds on a tensor whose
    first row is a scored row of a well-shaped sample. *)
Lemma chem_report_ok (T : tensor) (data_item : DataItem) (score : Q) :
  well_shaped data_item ->
  nth_error T 0 = Some (scored_row data_item score) ->
  chem_report T = Ok tt.
Proof.
  intros [Hne _] H. destruct T as [|row T]; [discriminate|].
  cbn in H. injection H as ->. unfold chem_report. cbn [concat].
  unfold scored_row.
  destruct (responses data_item) as [|r rs]; [contradiction|].
  cbn [List.length repeat]. destruct (column data_item); reflexivity.
Qed.

(** C1.  On [unknown_source_batch], whose only sample names a data
    source that [_select_rm_score_fn] refuses with [NotImplementedError],
    the logic manager does not fail: it scores the sample with
    [kk.compute_score] and writes the score, which the tensor holds as a
    [float32].  In general the manager
    never consults the data source: replacing every identifier of a batch
    leaves its result unchanged. *)
Theorem C1_data_source_not_consulted (decode : list Z -> string)
    (kk_compute_score : string -> dict -> Q) (float32 : Q -> Q) :
  _select_rm_score_fn kk_compute_score "unregistered/domain"
  = Raise NotImplementedError /\
  LogicRLRewardManager_call decode kk_compute_score float32 unknown_source_batch false
  = Ok (Tensor [[0; float32 (kk_compute_score (decode [2%Z; 3%Z]) [])]]) /\
  forall (f : string -> string) (data : DataProto) (return_dict : bool),
    LogicRLRewardManager_call decode kk_compute_score float32 (relabel f data) return_dict
    = LogicRLRewardManager_call decode kk_compute_score float32 data return_dict.
Proof.
  split; [reflexivity|]. split; [reflexivity|].
  intros f data return_dict.
  unfold LogicRLRewardManager_call, call. cbn [rm_scores relabel].
  destruct (rm_scores data); [reflexivity|].
  assert (Hz : zeros_like (relabel f data) = zeros_like data).
  { unfold zeros_like. cbn [items relabel]. rewrite map_map. reflexivity. }
  rewrite Hz. cbn [items relabel].
  generalize (zeros_like data, @nil (string * list Q)) as st.
  generalize 0%nat as i.
  induction (items data) as [|it rest IH]; intros i st; [reflexivity|].
  cbn [map loop].
  change (loop_body decode float32 "logic_rl_score"
            (logic_rl_score_item kk_compute_score) i (relabel_item f it) st)
    with (loop_body decode float32 "logic_rl_score"
            (logic_rl_score_item kk_compute_score) i it st).
  destruct (loop_body decode float32 "logic_rl_score"
              (logic_rl_score_item kk_compute_score) i it st) as [st'|e];
    cbn [bind]; [|reflexivity].
  specialize (IH (S i) st').
  destruct (loop decode float32 "logic_rl_score" (logic_rl_score_item kk_compute_score)
              (S i) (map (relabel_item f) rest) st') eqn:E1;
  destruct (loop decode float32 "logic_rl_score" (logic_rl_score_item kk_compute_score)
              (S i) rest st') eqn:E2; cbn [bind] in IH |- *; exact IH.
Qed.

(** The logic manager scores every sample that has a ground truth. *)
Lemma logic_rl_score_item_ok (kk_compute_score : string -> dict -> Q)
    (data_item : DataItem) (text : string) :
  ground_truth data_item <> None ->
  exists sc, logic_rl_score_item kk_compute_score data_item text = Ok sc.
Proof.
  intros H. unfold logic_rl_score_item.
  destruct (ground_truth data_item) as [g|]; [|contradiction].
  now eexists.
Qed.

(** C4, as stated, fails: the only sample of [zero_valid_batch] has no
    valid response token, and both managers return normally, with the
    sample's score in the last column of its row. *)
Lemma C4_zero_valid_tokens_not_an_error :
  valid_response_length zero_valid_item = 0%nat /\
  ChemRewardManager_call (fun _ => EmptyString) float32_nearest
    rejecting_oracle zero_valid_batch false
  = Ok (Tensor [[0; -5]]) /\
  LogicRLRewardManager_call (fun _ => EmptyString) (fun _ _ => 1)
    float32_nearest zero_valid_batch false
  = Ok (Tensor [[0; 1]]).
Proof.
  repeat split; vm_compute; reflexivity.
Qed.

(** C4, amended.  For a batch without precomputed scores that holds at
    least one sample, in which every sample has a non-empty response
    row, a mask that selects at most as many tokens as the row has, and
    a ground-truth entry, both managers return normally
    ([kk.compute_score] being a function that returns a score); a sample
    whose mask selects zero valid response tokens does not abort the
    call: its score, computed on the decoding of no token, is written,
    cast to [float32], at index -1, the last column of its row. *)
Theorem C4_zero_valid_tokens_last_column (decode : list Z -> string)
    (kk_compute_score : string -> dict -> Q) (float32 : Q -> Q)
    (Mol : Type) (o : Chem.Oracle Mol)
    (data : DataProto) (return_dict : bool) :
  rm_scores data = None ->
  items data <> [] ->
  (forall it, In it (items data) ->
     well_shaped it /\ ground_truth it <> None) ->
  exists out1 out2,
    LogicRLRewardManager_call decode kk_compute_score float32 data return_dict
    = Ok out1 /\
    ChemRewardManager_call decode float32 o data return_dict = Ok out2 /\
    forall i it,
      nth_error (items data) i = Some it ->
      valid_response_length it = 0%nat ->
      exists s1 s2,
        logic_rl_score_item kk_compute_score it (decode []) = Ok s1 /\
        chem_score_item o it (decode []) = Ok s2 /\
        nth_error (tensor_of out1) i
        = Some (last_column_row (List.length (responses it)) (float32 s1)) /\
        nth_error (tensor_of out2) i
        = Some (last_column_row (List.length (responses it)) (float32 s2)).
Proof.
  intros Hrm Hne Hok.
  destruct (@loop_zeros decode float32 "logic_rl_score"
              (logic_rl_score_item kk_compute_score) data)
    as (T1 & info1 & HL1 & Hrows1).
  { intros it Hin. destruct (Hok it Hin) as [Hs Hg]. split; [exact Hs|].
    now apply logic_rl_score_item_ok. }
  destruct (@loop_zeros decode float32 "chem_score" (chem_score_item o) data)
    as (T2 & info2 & HL2 & Hrows2).
  { intros it Hin. destruct (Hok it Hin) as [Hs _]. split; [exact Hs|].
    apply chem_compute_score_total. }
  assert (Hrep : chem_report T2 = Ok tt).
  { destruct (items data) as [|it0 rest] eqn:E; [contradiction|].
    destruct (Hrows2 0%nat it0 eq_refl) as (sc & _ & Hrow).
    apply (@chem_report_ok T2 it0 (float32 sc)); [|exact Hrow].
    apply Hok. now left. }
  exists (if return_dict then Dict T1 info1 else Tensor T1),
         (if return_dict then Dict T2 info2 else Tensor T2).
  split; [|split].
  - unfold LogicRLRewardManager_call, call. rewrite Hrm, HL1. cbn [bind].
    destruct return_dict; reflexivity.
  - unfold ChemRewardManager_call, call. rewrite Hrm, HL2. cbn [bind].
    rewrite Hrep. cbn [bind]. destruct return_dict; reflexivity.
  - intros i it Hi Hz.
    destruct (Hrows1 i it Hi) as (s1 & Hs1 & Hr1).
    destruct (Hrows2 i it Hi) as (s2 & Hs2 & Hr2).
    rewrite (zero_valid_response_str decode it Hz) in Hs1, Hs2.
    rewrite (zero_valid_row it (float32 s1) Hz) in Hr1.
    rewrite (zero_valid_row it (float32 s2) Hz) in Hr2.
    exists s1, s2. repeat split; try assumption;
      destruct return_dict; assumption.
Qed.

Lemma C4_zero_valid_tokens_last_column_witness :
  exists out1 out2,
    LogicRLRewardManager_call (fun _ => EmptyString) (fun _ _ => 0.1)
      float32_nearest zero_valid_batch false = Ok out1 /\
    ChemRewardManager_call (fun _ => EmptyString) float32_nearest
      rejecting_oracle zero_valid_batch false = Ok out2 /\
    forall i it,
      nth_error (items zero_valid_batch) i = Some it ->
      valid_response_length it = 0%nat ->
      exists s1 s2,
        logic_rl_score_item (fun _ _ => 0.1) it EmptyString = Ok s1 /\
        chem_score_item rejecting_oracle it EmptyString = Ok s2 /\
        nth_error (tensor_of out1) i
        = Some (last_column_row (List.length (responses it))
                  (float32_nearest s1)) /\
        nth_error (tensor_of out2) i
        = Some (last_column_row (List.length (responses it))
                  (float32_nearest s2)).
Proof.
  apply (@C4_zero_valid_tokens_last_column (fun _ => EmptyString)
           (fun _ _ => 0.1) float32_nearest unit rejecting_oracle
           zero_valid_batch false).
  - reflexivity.
  - discriminate.
  - intros it [<- | []]. split; [split|].
    + discriminate.
    + vm_compute. lia.
    + discriminate.
Defined.

Import Props.

(* ================================================================== *)
(** * Ranges of the molecule scorer                                   *)
(* ================================================================== *)

Lemma Qlt_bool_false (a b : Q) : Chem.Qlt_bool a b = false -> b <= a.
Proof.
  unfold Chem.Qlt_bool. intros H. apply negb_false_iff in H.
  now apply Qle_bool_iff.
Qed.

Lemma in_range_ok (lo hi v : Q) : lo <= v -> v <= hi -> in_range lo hi (Ok v).
Proof. intros H1 H2. now exists v. Qed.

Lemma max_zero_le (x hi : Q) : 0 <= hi -> x <= hi -> Qmax 0.0 x <= hi.
Proof.
  intros H0 Hx. apply Q.max_lub; [lra | exact Hx].
Qed.

Lemma band_ramp_le (x lo d : Q) :
  0 < d -> x <= lo + d -> (x - lo) / d * 0.5 <= 0.5.
Proof.
  intros Hd Hx.
  assert ((x - lo) / d <= 1).
  { apply Qle_shift_div_r; [exact Hd | lra]. }
  lra.
Qed.

Lemma band_fall_le (x lo d : Q) :
  0 < d -> lo <= x -> 1.0 - (x - lo) / d <= 1.
Proof.
  intros Hd Hx.
  assert (0 <= (x - lo) / d).
  { apply Qle_shift_div_l; [exact Hd | lra]. }
  lra.
Qed.

Section Ranges.
Variable Mol : Type.
Variable o : Chem.Oracle Mol.
Variable mol : Mol.

Ltac range_zero := apply in_range_ok; lra.

Lemma qed_reward_range :
  (forall q, Chem.QED_qed o mol = Ok q -> q <= 1) ->
  in_range 0 2.0 (Chem.qed_reward o mol).
Proof.
  intros Hq. unfold Chem.qed_reward.
  destruct (Chem.RDKIT_AVAILABLE o); cbn [negb]; [|range_zero].
  destruct (Chem.QED_qed o mol) as [q|e] eqn:E; cbn [bind try_except];
    [|range_zero].
  specialize (Hq q eq_refl).
  destruct (Chem.Qlt_bool q 0.5) eqn:E1; cbn [try_except]; [range_zero|].
  apply Qlt_bool_false in E1. apply in_range_ok; lra.
Qed.

Lemma sa_reward_range :
  (forall s, Chem.calculateScore o mol = Ok s -> 1 <= s) ->
  in_range 0 2.0 (Chem.sa_reward o mol).
Proof.
  intros Hs. unfold Chem.sa_reward.
  destruct (Chem.SA_SCORE_AVAILABLE o); cbn [negb]; [|range_zero].
  destruct (Chem.calculateScore o mol) as [q|e] eqn:E; cbn [bind try_except];
    [|range_zero].
  specialize (Hs q eq_refl).
  destruct (Qle_bool q 4.0) eqn:E1; cbn [try_except].
  - curve_facts. apply in_range_ok; lra.
  - destruct (Qle_bool q 7.0) eqn:E2; cbn [try_except]; [|range_zero].
    assert (4.0 < q).
    { apply Qnot_le_lt. intros H. apply Qle_bool_iff in H. congruence. }
    apply in_range_ok; [apply max_zero_nonneg | apply max_zero_le; lra].
Qed.

Lemma logp_reward_range : in_range 0 1.5 (Chem.logp_reward o mol).
Proof.
  unfold Chem.logp_reward.
  destruct (Chem.RDKIT_AVAILABLE o); cbn [negb]; [|range_zero].
  destruct (Chem.MolLogP o mol) as [q|e]; cbn [bind try_except];
    [|range_zero].
  destruct (Qle_bool 1.0 q && Qle_bool q 4.0) eqn:E1; cbn [try_except].
  - curve_facts.
    assert (Qabs (q - 2.5) <= 1.5) by (apply Qabs_Qle_condition; split; lra).
    pose proof (Qabs_nonneg (q - 2.5)).
    apply in_range_ok; lra.
  - destruct (Qle_bool 0 q && Chem.Qlt_bool q 1.0) eqn:E2; cbn [try_except].
    + curve_facts. apply in_range_ok; lra.
    + destruct (Chem.Qlt_bool 4.0 q && Qle_bool q 5.0) eqn:E3;
        cbn [try_except]; [|range_zero].
      curve_facts.
      apply in_range_ok; [apply max_zero_nonneg | apply max_zero_le; lra].
Qed.

Lemma mw_reward_range : in_range 0 1.0 (Chem.mw_reward o mol).
Proof.
  unfold Chem.mw_reward.
  destruct (Chem.RDKIT_AVAILABLE o); cbn [negb]; [|range_zero].
  destruct (Chem.MolWt o mol) as [q|e]; cbn [bind try_except];
    [|range_zero].
  destruct (Qle_bool 200 q && Qle_bool q 500) eqn:E1; cbn [try_except];
    [range_zero|].
  destruct (Qle_bool 150 q && Chem.Qlt_bool q 200) eqn:E2; cbn [try_except].
  - curve_facts. apply in_range_ok.
    + apply band_ramp_nonneg; lra.
    + apply Qle_trans with 0.5; [apply band_ramp_le; lra | lra].
  - destruct (Chem.Qlt_bool 500 q && Qle_bool q 600) eqn:E3;
      cbn [try_except]; [|range_zero].
    curve_facts.
    apply in_range_ok; [apply max_zero_nonneg|].
    apply max_zero_le; [lra|].
    apply Qle_trans with 1; [apply band_fall_le; lra | lra].
Qed.

Lemma tpsa_reward_range : in_range 0 1.0 (Chem.tpsa_reward o mol).
Proof.
  unfold Chem.tpsa_reward.
  destruct (Chem.RDKIT_AVAILABLE o); cbn [negb]; [|range_zero].
  destruct (Chem.TPSA o mol) as [q|e]; cbn [bind try_except];
    [|range_zero].
  destruct (Qle_bool 40 q && Qle_bool q 120) eqn:E1; cbn [try_except];
    [range_zero|].
  destruct (Qle_bool 20 q && Chem.Qlt_bool q 40) eqn:E2; cbn [try_except].
  - curve_facts. apply in_range_ok.
    + apply band_ramp_nonneg; lra.
    + apply Qle_trans with 0.5; [apply band_ramp_le; lra | lra].
  - destruct (Chem.Qlt_bool 120 q && Qle_bool q 140) eqn:E3;
      cbn [try_except]; [|range_zero].
    curve_facts.
    apply in_range_ok; [apply max_zero_nonneg|].
    apply max_zero_le; [lra|].
    apply Qle_trans with 1; [apply band_fall_le; lra | lra].
Qed.

Lemma lipinski_reward_range : in_range 0 1.5 (Chem.lipinski_reward o mol).
Proof.
  unfold Chem.lipinski_reward.
  destruct (Chem.RDKIT_AVAILABLE o); cbn [negb]; [|range_zero].
  destruct (Chem.MolWt o mol) as [mw|e]; cbn [bind try_except];
    [|range_zero].
  destruct (Chem.MolLogP o mol) as [logp|e]; cbn [bind try_except];
    [|range_zero].
  destruct (Chem.NumHDonors o mol) as [hbd|e]; cbn [bind try_except];
    [|range_zero].
  destruct (Chem.NumHAcceptors o mol) as [hba|e]; cbn [bind try_except];
    [|range_zero].
  repeat match goal with
         | |- context [if ?b then _ else _] => destruct b
         end; cbn [try_except]; range_zero.
Qed.

Lemma egfr_specific_reward_range :
  in_range 0 1.0 (Chem.egfr_specific_reward o mol).
Proof.
  unfold Chem.egfr_specific_reward.
  destruct (Chem.RDKIT_AVAILABLE o); cbn [negb]; [|range_zero].
  destruct (Chem.NumAromaticRings o mol) as [a|e]; cbn [bind try_except];
    [|range_zero].
  destruct (Chem.NumRotatableBonds o mol) as [r|e]; cbn [bind try_except];
    [|range_zero].
  repeat match goal with
         | |- context [if ?b then _ else _] => destruct b
         end; range_zero.
Qed.

End Ranges.

(* ================================================================== *)
(** * The structural verdict and the totals of [rule.py]              *)
(* ================================================================== *)

(** What the structural stage of [rule.py] can give: a rejection with
    one of four totals, or an acceptance with total 3 on a text whose
    tags occur once each and in order. *)
Lemma rule_structural_cases (text : string) :
  match Rule.structural_check text with
  | Return r => among r [-2; -1.5; -1; -0.5] /\
                ~ (once_each false text /\ in_order false text)
  | Continue s => s == 3 /\ once_each false text /\ in_order false text
  end.
Proof.
  unfold Rule.structural_check, Rule.critical_tags_data,
    Rule._RE_THINK_START, Rule._RE_THINK_END, Rule._RE_ANSWER_START,
    Rule._RE_ANSWER_END.
  cbn [Rule.tag_loop].
  destruct (List.length (finditer false "<think>" text) =? 1)%nat eqn:E1.
  2:{ assert (~ (once_each false text /\ in_order false text)).
      { intros [(H & _) _]. unfold count in H. rewrite H in E1. discriminate. }
      destruct (_ =? 0)%nat; (split; [|assumption]);
        apply Exists_cons_hd; reflexivity. }
  destruct (List.length (finditer false "</think>" text) =? 1)%nat eqn:E2.
  2:{ assert (~ (once_each false text /\ in_order false text)).
      { intros [(_ & H & _) _]. unfold count in H. rewrite H in E2. discriminate. }
      destruct (_ =? 0)%nat; (split; [|assumption]);
        apply Exists_cons_tl, Exists_cons_hd; reflexivity. }
  destruct (List.length (finditer false "<answer>" text) =? 1)%nat eqn:E3.
  2:{ assert (~ (once_each false text /\ in_order false text)).
      { intros [(_ & _ & H & _) _]. unfold count in H. rewrite H in E3. discriminate. }
      destruct (_ =? 0)%nat; (split; [|assumption]);
        apply Exists_cons_tl, Exists_cons_tl, Exists_cons_hd; reflexivity. }
  destruct (List.length (finditer false "</answer>" text) =? 1)%nat eqn:E4.
  2:{ assert (~ (once_each false text /\ in_order false text)).
      { intros [(_ & _ & _ & H) _]. unfold count in H. rewrite H in E4. discriminate. }
      destruct (_ =? 0)%nat; (split; [|assumption]);
        apply Exists_cons_tl, Exists_cons_tl, Exists_cons_tl, Exists_cons_hd;
        reflexivity. }
  apply Nat.eqb_eq in E1, E2, E3, E4.
  assert (Honce : once_each false text) by (repeat split; assumption).
  cbn [app]. unfold Rule.order_check.
  cbn [getpos String.eqb Ascii.eqb Bool.eqb].
  fold (offset false "<think>" text) (offset false "</think>" text)
       (offset false "<answer>" text) (offset false "</answer>" text).
  destruct (_ && _ && _) eqn:E.
  - apply order_test_spec in E. split; [reflexivity | now split].
  - split.
    + apply Exists_cons_tl, Exists_cons_tl, Exists_cons_hd. reflexivity.
    + intros [_ H]. apply order_test_spec in H. congruence.
Qed.

(** The same for [newkk.py], with its own penalties. *)
Lemma newkk_structural_cases (text : string) :
  match Newkk.structural_check text with
  | Return r => among r [-4; -3.5; -3; -2.5] /\
                ~ (once_each false text /\ in_order false text)
  | Continue s => s == 3 /\ once_each false text /\ in_order false text
  end.
Proof.
  unfold Newkk.structural_check, Newkk.critical_tags_data,
    Newkk._RE_THINK_START, Newkk._RE_THINK_END, Newkk._RE_ANSWER_START,
    Newkk._RE_ANSWER_END.
  cbn [Newkk.tag_loop].
  destruct (List.length (finditer false "<think>" text) =? 1)%nat eqn:E1.
  2:{ split; [apply Exists_cons_hd; reflexivity|].
      intros [(H & _) _]. unfold count in H. rewrite H in E1. discriminate. }
  destruct (List.length (finditer false "</think>" text) =? 1)%nat eqn:E2.
  2:{ split; [apply Exists_cons_tl, Exists_cons_hd; reflexivity|].
      intros [(_ & H & _) _]. unfold count in H. rewrite H in E2. discriminate. }
  destruct (List.length (finditer false "<answer>" text) =? 1)%nat eqn:E3.
  2:{ split; [apply Exists_cons_tl, Exists_cons_tl, Exists_cons_hd; reflexivity|].
      intros [(_ & _ & H & _) _]. unfold count in H. rewrite H in E3. discriminate. }
  destruct (List.length (finditer false "</answer>" text) =? 1)%nat eqn:E4.
  2:{ split; [apply Exists_cons_tl, Exists_cons_tl, Exists_cons_tl,
                Exists_cons_hd; reflexivity|].
      intros [(_ & _ & _ & H) _]. unfold count in H. rewrite H in E4. discriminate. }
  apply Nat.eqb_eq in E1, E2, E3, E4.
  assert (Honce : once_each false text) by (repeat split; assumption).
  cbn [app]. unfold Newkk.order_check.
  cbn [getpos String.eqb Ascii.eqb Bool.eqb].
  fold (offset false "<think>" text) (offset false "</think>" text)
       (offset false "<answer>" text) (offset false "</answer>" text).
  destruct (_ && _ && _) eqn:E; cbn [negb].
  - apply order_test_spec in E. split; [reflexivity | now split].
  - split.
    + apply Exists_cons_tl, Exists_cons_tl, Exists_cons_hd. reflexivity.
    + intros [_ H]. apply order_test_spec in H. congruence.
Qed.

(** X1.  A response is accepted by the structural stage exactly when
    each of the four tags occurs once and their start offsets are in the
    order think_start < think_end < answer_start < answer_end; this holds
    for [rule.py] and for [newkk.py]. *)
Theorem X1_accepted_iff_well_formed (text : string) :
  (accepted (Rule.structural_check text)
   <-> once_each false text /\ in_order false text) /\
  (accepted (Newkk.structural_check text)
   <-> once_each false text /\ in_order false text).
Proof.
  pose proof (rule_structural_cases text) as HR.
  pose proof (newkk_structural_cases text) as HN.
  split; split.
  - intros [s Hs]. rewrite Hs in HR. tauto.
  - intros H. destruct (Rule.structural_check text) as [r|s];
      [tauto | now exists s].
  - intros [s Hs]. rewrite Hs in HN. tauto.
  - intros H. destruct (Newkk.structural_check text) as [r|s];
      [tauto | now exists s].
Qed.

Lemma among_impl (v : Q) (l l' : list Q) :
  among v l -> incl l l' -> among v l'.
Proof.
  unfold among. intros H Hi. apply Exists_exists in H as (x & Hx & Hv).
  apply Exists_exists. exists x. split; [now apply Hi | exact Hv].
Qed.

Lemma among_bounds (v lo hi : Q) (l : list Q) :
  among v l -> Forall (fun x => lo <= x /\ x <= hi) l -> lo <= v /\ v <= hi.
Proof.
  unfold among. intros H HF. apply Exists_exists in H as (x & Hx & Hv).
  rewrite Forall_forall in HF. destruct (HF x Hx). rewrite Hv. now split.
Qed.

(** The content stage adds one of four amounts to an accepted score. *)
Lemma rule_content_stage_values (text : string) (s : Q) :
  s == 3 -> among (Rule.content_stage text s) [1.5; 2.2; 3; 3.7].
Proof.
  intros Hs. unfold Rule.content_stage, among. cbv zeta.
  destruct (Rule.content_non_empty (search_content "<think>" "</think>" text));
    destruct (Rule.content_non_empty
                (search_content "<answer>" "</answer>" text)).
  - apply Exists_cons_tl, Exists_cons_tl, Exists_cons_tl, Exists_cons_hd.
    unfold Rule.REWARD_CONTENT_NON_EMPTY_THINK,
      Rule.REWARD_CONTENT_NON_EMPTY_ANSWER. lra.
  - apply Exists_cons_tl, Exists_cons_hd.
    unfold Rule.REWARD_CONTENT_NON_EMPTY_THINK,
      Rule.PENALTY_CONTENT_EMPTY_ANSWER. lra.
  - apply Exists_cons_tl, Exists_cons_tl, Exists_cons_hd.
    unfold Rule.PENALTY_CONTENT_EMPTY_THINK,
      Rule.REWARD_CONTENT_NON_EMPTY_ANSWER. lra.
  - apply Exists_cons_hd.
    unfold Rule.PENALTY_CONTENT_EMPTY_THINK,
      Rule.PENALTY_CONTENT_EMPTY_ANSWER. lra.
Qed.

(** X2.  The total of [rule.py] takes one of eight values, lies between
    -2 and 3.7, and is positive exactly for the responses the structural
    stage accepts. *)
Theorem X2_rule_total_values (text : string) (ground_truth : dict) :
  among (Rule.compute_score text ground_truth)
        [-2; -1.5; -1; -0.5; 1.5; 2.2; 3; 3.7] /\
  -2 <= Rule.compute_score text ground_truth <= 3.7 /\
  (0 < Rule.compute_score text ground_truth
   <-> once_each false text /\ in_order false text).
Proof.
  pose proof (rule_structural_cases text) as HR.
  unfold Rule.compute_score.
  destruct (Rule.structural_check text) as [r|s].
  - destruct HR as [Hr Hbad].
    pose proof (@among_bounds r (-2) (-0.5) _ Hr) as Hb.
    destruct Hb as [Hlo Hhi].
    { repeat constructor; lra. }
    split; [|split].
    + apply (among_impl Hr). intros x Hx. cbn in *. tauto.
    + lra.
    + split; [lra | tauto].
  - destruct HR as [Hs Hgood].
    pose proof (rule_content_stage_values text Hs) as Hc.
    pose proof (@among_bounds _ 1.5 3.7 _ Hc) as Hb.
    destruct Hb as [Hlo Hhi].
    { repeat constructor; lra. }
    split; [|split].
    + apply (among_impl Hc). intros x Hx. cbn in *. tauto.
    + lra.
    + split; [tauto | lra].
Qed.

(* ================================================================== *)
(** * The components of [newkk.py]                                    *)
(* ================================================================== *)

Lemma inject_nat_nonneg (n : nat) : 0 <= inject_Z (Z.of_nat n).
Proof.
  change 0 with (inject_Z 0). rewrite <- Zle_Qle. lia.
Qed.

Lemma inject_nat_S (n : nat) :
  inject_Z (Z.of_nat (S n)) == inject_Z (Z.of_nat n) + 1.
Proof.
  rewrite Nat2Z.inj_succ. unfold Z.succ. rewrite inject_Z_plus. reflexivity.
Qed.

(** The length-shaping component lies between the minimum and the
    maximum reward. *)
Lemma think_length_score_bounds (n : nat) :
  -4 <= Newkk.think_length_score n <= 4.
Proof.
  unfold Newkk.think_length_score. split.
  - apply Q.min_glb.
    + rewrite think_length_line. pose proof (inject_nat_nonneg n). lra.
    + unfold Newkk.MAX_THINK_REWARD. lra.
  - apply Qle_trans with Newkk.MAX_THINK_REWARD; [apply Q.le_min_r|].
    unfold Newkk.MAX_THINK_REWARD. lra.
Qed.

(** The fold of [think_quality_score], from any starting value. *)
Lemma quality_fold_bounds (gt_map : dict) (content : string) (acc : Q) :
  let r := fold_left
             (fun acc (kv : string * string) =>
                if Newkk.search_word false (fst kv) None content
                then acc + Newkk.REWARD_FOR_KEYWORD_IN_THINK else acc)
             gt_map acc in
  acc <= r /\ r <= acc + inject_Z (Z.of_nat (List.length gt_map)).
Proof.
  cbv zeta. revert acc. induction gt_map as [|kv d IH]; intros acc.
  - cbn [fold_left List.length]. change (inject_Z (Z.of_nat 0)) with 0.
    split; lra.
  - cbn [fold_left List.length]. rewrite inject_nat_S.
    destruct (Newkk.search_word false (fst kv) None content).
    + destruct (IH (acc + Newkk.REWARD_FOR_KEYWORD_IN_THINK)) as [H1 H2].
      unfold Newkk.REWARD_FOR_KEYWORD_IN_THINK in *. split; lra.
    + destruct (IH acc) as [H1 H2]. split; lra.
Qed.

Lemma think_quality_score_bounds (gt_map : dict) (content : string) :
  0 <= Newkk.think_quality_score gt_map content
  /\ Newkk.think_quality_score gt_map content
     <= inject_Z (Z.of_nat (List.length gt_map)).
Proof.
  unfold Newkk.think_quality_score.
  destruct (quality_fold_bounds gt_map (lower content) 0) as [H1 H2].
  split; [exact H1 | lra].
Qed.

(** The counting fold of [num_correct_assertions] counts the pairs whose
    assertion pattern matches. *)
Lemma assertions_fold (gt_map : dict) (answer : string) (n : nat) :
  fold_left
    (fun n (kv : string * string) =>
       if Newkk.search_assertion (fst kv) (snd kv) None answer
       then S n else n)
    gt_map n
  = (n + List.length
           (filter (fun kv : string * string =>
                      Newkk.search_assertion (fst kv) (snd kv) None answer)
                   gt_map))%nat.
Proof.
  revert n. induction gt_map as [|kv d IH]; intros n; cbn [fold_left filter].
  - cbn. lia.
  - destruct (Newkk.search_assertion (fst kv) (snd kv) None answer);
      rewrite IH; cbn [List.length]; lia.
Qed.

Lemma num_correct_assertions_filter (gt_map : dict) (answer : string) :
  Newkk.num_correct_assertions gt_map answer
  = List.length
      (filter (fun kv : string * string =>
                 Newkk.search_assertion (fst kv) (snd kv) None answer)
              gt_map).
Proof.
  unfold Newkk.num_correct_assertions. now rewrite assertions_fold.
Qed.

Lemma num_correct_assertions_le (gt_map : dict) (answer : string) :
  (Newkk.num_correct_assertions gt_map answer <= List.length gt_map)%nat.
Proof.
  rewrite num_correct_assertions_filter. apply filter_length_le.
Qed.

Lemma forallb_filter_id (A : Type) (f : A -> bool) (l : list A) :
  forallb f l = true -> filter f l = l.
Proof.
  induction l as [|x l IH]; cbn; [reflexivity|].
  intros H. apply andb_true_iff in H as [Hx Hl]. now rewrite Hx, IH.
Qed.

(** The score after the reasoning stage, for an accepted response. *)
Lemma think_stage_bounds (text : string) (gt_map : dict) (s : Q) :
  s == 3 ->
  -1 <= Newkk.think_stage text gt_map s
  /\ Newkk.think_stage text gt_map s
     <= 7 + inject_Z (Z.of_nat (List.length gt_map)).
Proof.
  intros Hs. unfold Newkk.think_stage. cbv zeta.
  set (n := String.length _).
  pose proof (think_length_score_bounds n) as [H1 H2].
  destruct gt_map as [|kv d].
  - cbn [List.length]. change (inject_Z (Z.of_nat 0)) with 0. split; lra.
  - pose proof (think_quality_score_bounds (kv :: d)
                  (Newkk.content_of (search_content "<think>" "</think>" text)))
      as [H3 H4].
    split; lra.
Qed.

(** The score the answer stage returns. *)
Lemma answer_stage_bounds (text : string) (gt_map : dict) (s : Q) :
  s - 2 <= Newkk.answer_stage text gt_map s
  /\ Newkk.answer_stage text gt_map s
     <= s + 4 * inject_Z (Z.of_nat (List.length gt_map)).
Proof.
  unfold Newkk.answer_stage. cbv zeta.
  pose proof (inject_nat_nonneg (List.length gt_map)) as Hn.
  destruct (negb (truthy _) || _) eqn:E.
  - destruct (negb (truthy _));
      unfold Newkk.PENALTY_CONTENT_EMPTY_ANSWER; split; lra.
  - pose proof (num_correct_assertions_le gt_map
                  (Newkk.content_of (search_content "<answer>" "</answer>" text)))
      as Hle.
    apply inject_nat_le in Hle.
    pose proof (inject_nat_nonneg
                  (Newkk.num_correct_assertions gt_map
                     (Newkk.content_of
                        (search_content "<answer>" "</answer>" text)))) as H0.
    unfold Newkk.REWARD_FOR_EACH_CORRECT_ASSERTION. split; lra.
Qed.

(** X3.  The total of [newkk.py] is at least -4 and at most 7 plus 5 for
    each entry of the role map; an accepted response totals at least
    -3. *)
Theorem X3_newkk_total_bounds (text : string) (ground_truth : dict) :
  -4 <= Newkk.compute_score text ground_truth
  /\ Newkk.compute_score text ground_truth
     <= 7 + 5 * inject_Z (Z.of_nat (List.length (role_map ground_truth)))
  /\ (accepted (Newkk.structural_check text) ->
      -3 <= Newkk.compute_score text ground_truth).
Proof.
  pose proof (newkk_structural_cases text) as HN.
  pose proof (inject_nat_nonneg (List.length (role_map ground_truth))) as Hn.
  unfold Newkk.compute_score.
  destruct (Newkk.structural_check text) as [r|s].
  - destruct HN as [Hr _].
    destruct (@among_bounds r (-4) (-2.5) _ Hr) as [Hlo Hhi].
    { repeat constructor; lra. }
    split; [lra|]. split; [lra|].
    intros [s Hs]. discriminate.
  - destruct HN as [Hs _]. cbv zeta. fold (role_map ground_truth).
    pose proof (think_stage_bounds text (role_map ground_truth) Hs) as [H1 H2].
    pose proof (answer_stage_bounds text (role_map ground_truth)
                  (Newkk.think_stage text (role_map ground_truth) s))
      as [H3 H4].
    split; [lra|]. split; [lra|]. intros _. lra.
Qed.

(** X4.  When the answer block and the role map are both non-empty, an
    accepted response gets 4 for each pair of the role map whose
    assertion pattern matches the answer block, on top of the score of
    the reasoning stage; when every pair matches, that is 4 times the
    size of the role map. *)
Theorem X4_newkk_assertion_score (text : string) (ground_truth : dict)
    (s : Q) :
  Newkk.structural_check text = Continue s ->
  answer_block text <> EmptyString ->
  role_map ground_truth <> [] ->
  Newkk.compute_score text ground_truth
  == Newkk.think_stage text (role_map ground_truth) s
     + 4 * inject_Z
             (Z.of_nat
                (List.length
                   (filter (fun kv : string * string =>
                              Newkk.search_assertion (fst kv) (snd kv) None
                                (answer_block text))
                           (role_map ground_truth))))
  /\ (forallb (fun kv : string * string =>
                 Newkk.search_assertion (fst kv) (snd kv) None
                   (answer_block text))
              (role_map ground_truth) = true ->
      Newkk.compute_score text ground_truth
      == Newkk.think_stage text (role_map ground_truth) s
         + 4 * inject_Z (Z.of_nat (List.length (role_map ground_truth)))).
Proof.
  intros Hs Ha Hg.
  assert (Heq : Newkk.compute_score text ground_truth
                == Newkk.think_stage text (role_map ground_truth) s
                   + 4 * inject_Z
                       (Z.of_nat
                          (List.length
                             (filter (fun kv : string * string =>
                                Newkk.search_assertion (fst kv) (snd kv) None
                                  (answer_block text))
                                (role_map ground_truth))))).
  { unfold Newkk.compute_score. rewrite Hs. cbv zeta.
    fold (role_map ground_truth). unfold Newkk.answer_stage. cbv zeta.
    fold (answer_block text).
    destruct (answer_block text) as [|c a] eqn:Ea; [contradiction|].
    destruct (role_map ground_truth) as [|kv d] eqn:Eg; [contradiction|].
    cbn [truthy negb orb].
    rewrite num_correct_assertions_filter.
    unfold Newkk.REWARD_FOR_EACH_CORRECT_ASSERTION. lra. }
  split; [exact Heq|].
  intros Hall. rewrite Heq. now rewrite (forallb_filter_id _ _ Hall).
Qed.

Lemma X4_newkk_assertion_score_witness :
  Newkk.compute_score liar_response liar_truth
  == Newkk.think_stage liar_response (role_map liar_truth)
       (0.0 + 0.5 + 0.5 + 0.5 + 0.5 + 1.0)
     + 4 * inject_Z
             (Z.of_nat
                (List.length
                   (filter (fun kv : string * string =>
                              Newkk.search_assertion (fst kv) (snd kv) None
                                (answer_block liar_response))
                           (role_map liar_truth))))
  /\ (forallb (fun kv : string * string =>
                 Newkk.search_assertion (fst kv) (snd kv) None
                   (answer_block liar_response))
              (role_map liar_truth) = true ->
      Newkk.compute_score liar_response liar_truth
      == Newkk.think_stage liar_response (role_map liar_truth)
           (0.0 + 0.5 + 0.5 + 0.5 + 0.5 + 1.0)
         + 4 * inject_Z (Z.of_nat (List.length (role_map liar_truth)))).
Proof.
  apply (@X4_newkk_assertion_score liar_response liar_truth).
  - reflexivity.
  - vm_compute. discriminate.
  - vm_compute. discriminate.
Defined.

(* ================================================================== *)
(** * Scanning a text laid out in pieces                              *)
(* ================================================================== *)

Section Scanning.
Local Open Scope string_scope.

(** Lowering a character never produces or removes a [<]. *)
Lemma lower_char_lt (c : ascii) :
  Ascii.eqb (lower_char c) "<" = Ascii.eqb c "<".
Proof.
  destruct c as [[] [] [] [] [] [] [] []]; vm_compute; reflexivity.
Qed.

Lemma char_eq_lt (ci : bool) (c : ascii) :
  char_eq ci "<" c = Ascii.eqb c "<".
Proof.
  destruct ci; unfold char_eq.
  - change (lower_char "<") with "<"%char.
    rewrite Ascii.eqb_sym. apply lower_char_lt.
  - apply Ascii.eqb_sym.
Qed.

Lemma lt_free_lower (s : string) : lt_free (lower s) = lt_free s.
Proof.
  induction s as [|c s IH]; cbn; [reflexivity|].
  now rewrite lower_char_lt, IH.
Qed.

Lemma lt_free_append (a b : string) :
  lt_free (a ++ b) = lt_free a && lt_free b.
Proof.
  induction a as [|c a IH]; cbn; [reflexivity|].
  now rewrite IH, andb_assoc.
Qed.

(** A pattern that starts with [<] does not match where another
    character stands. *)
Lemma starts_with_not_lt (ci : bool) (pat' : string) (c : ascii) (s : string) :
  Ascii.eqb c "<" = false ->
  starts_with ci (String "<" pat') (String c s) = false.
Proof.
  intros H. cbn [starts_with]. now rewrite char_eq_lt, H.
Qed.

Lemma starts_with_append (pat v : string) :
  starts_with false pat (pat ++ v) = true.
Proof.
  induction pat as [|p pat IH]; cbn; [reflexivity|].
  unfold char_eq. now rewrite Ascii.eqb_refl, IH.
Qed.

Lemma drop_append (m v : string) : drop (String.length m) (m ++ v) = v.
Proof.
  induction m as [|c m IH]; cbn; [now destruct v | exact IH].
Qed.

(** Matching under [re.IGNORECASE] is exact matching of the lowered
    pattern against the lowered text. *)
Lemma starts_with_ci_lower (pat s : string) :
  starts_with true pat s = starts_with false (lower pat) (lower s).
Proof.
  revert s. induction pat as [|p pat IH]; intros [|c s]; cbn; try reflexivity.
  now rewrite IH.
Qed.

Lemma finditer_from_ci_lower (pat : string) (s : string) :
  forall skip pos,
    finditer_from true pat skip pos s
    = finditer_from false (lower pat) skip pos (lower s).
Proof.
  induction s as [|c s IH]; intros skip pos; cbn [finditer_from lower];
    [reflexivity|].
  destruct skip as [|k]; [|apply IH].
  change (String (lower_char c) (lower s)) with (lower (String c s)).
  rewrite <- starts_with_ci_lower, length_lower.
  destruct (starts_with true pat (String c s)); now rewrite !IH.
Qed.

(** The characters of the previous match still to be passed are passed
    whatever they are. *)
Lemma finditer_from_skip (ci : bool) (pat s u : string) :
  forall pos,
    finditer_from ci pat (String.length s) pos (s ++ u)
    = finditer_from ci pat 0 (pos + String.length s) u.
Proof.
  induction s as [|c s IH]; intros pos.
  - cbn [String.length append]. now rewrite Nat.add_0_r.
  - cbn [String.length append finditer_from]. rewrite IH. f_equal. lia.
Qed.

(** A piece without [<] holds no match of a tag. *)
Lemma finditer_from_free (ci : bool) (pat' s u : string) :
  lt_free s = true ->
  forall pos,
    finditer_from ci (String "<" pat') 0 pos (s ++ u)
    = finditer_from ci (String "<" pat') 0 (pos + String.length s) u.
Proof.
  induction s as [|c s IH]; intros Hf pos.
  - cbn [String.length append]. now rewrite Nat.add_0_r.
  - cbn [lt_free] in Hf. apply andb_true_iff in Hf as [Hc Hs].
    apply negb_true_iff in Hc.
    cbn [String.length append finditer_from].
    rewrite (@starts_with_not_lt ci pat' c (s ++ u) Hc), (IH Hs).
    f_equal. lia.
Qed.

Lemma finditer_from_free_end (ci : bool) (pat' s : string) :
  lt_free s = true ->
  forall pos, finditer_from ci (String "<" pat') 0 pos s = [].
Proof.
  induction s as [|c s IH]; intros Hf pos; [reflexivity|].
  cbn [lt_free] in Hf. apply andb_true_iff in Hf as [Hc Hs].
  apply negb_true_iff in Hc.
  cbn [finditer_from]. rewrite (@starts_with_not_lt ci pat' c s Hc). now apply IH.
Qed.

(** The tag itself at the head of the text is one match. *)
Lemma finditer_from_hit (pat' u : string) (pos : nat) :
  finditer_from false (String "<" pat') 0 pos (String "<" pat' ++ u)
  = pos :: finditer_from false (String "<" pat') 0
             (pos + String.length (String "<" pat')) u.
Proof.
  change (String "<" pat' ++ u) with (String "<" (pat' ++ u)).
  cbn [finditer_from].
  change (String "<" (pat' ++ u)) with (String "<" pat' ++ u).
  rewrite starts_with_append.
  cbn [String.length]. rewrite Nat.sub_succ, Nat.sub_0_r.
  rewrite finditer_from_skip. f_equal. f_equal. lia.
Qed.

(** Another tag at the head of the text is passed without a match. *)
Lemma finditer_from_miss (pat' other' u : string) (pos : nat) :
  (forall v, starts_with false (String "<" pat') (String "<" (other' ++ v))
             = false) ->
  lt_free other' = true ->
  finditer_from false (String "<" pat') 0 pos (String "<" other' ++ u)
  = finditer_from false (String "<" pat') 0
      (pos + String.length (String "<" other')) u.
Proof.
  intros Hne Hf.
  change (String "<" other' ++ u) with (String "<" (other' ++ u)).
  cbn [finditer_from]. rewrite Hne, (@finditer_from_free false pat' other' u Hf).
  cbn [String.length]. f_equal. lia.
Qed.

(** The same three facts for the search of a content block. *)
Lemma search_content_free (open' close s u : string) :
  lt_free s = true ->
  search_content (String "<" open') close (s ++ u)
  = search_content (String "<" open') close u.
Proof.
  induction s as [|c s IH]; intros Hf; [reflexivity|].
  cbn [lt_free] in Hf. apply andb_true_iff in Hf as [Hc Hs].
  apply negb_true_iff in Hc.
  cbn [append search_content].
  rewrite (@starts_with_not_lt false open' c (s ++ u) Hc). now apply IH.
Qed.

Lemma search_content_miss (open' close other' u : string) :
  (forall v, starts_with false (String "<" open') (String "<" (other' ++ v))
             = false) ->
  lt_free other' = true ->
  search_content (String "<" open') close (String "<" other' ++ u)
  = search_content (String "<" open') close u.
Proof.
  intros Hne Hf.
  change (String "<" other' ++ u) with (String "<" (other' ++ u)).
  cbn [search_content]. rewrite Hne. now apply search_content_free.
Qed.

Lemma until_free_gen (close' t v : string) :
  lt_free t = true ->
  starts_with false (String "<" close') v = true ->
  until (String "<" close') (t ++ v) = Some t.
Proof.
  intros Hf Hv. induction t as [|c t IH].
  - cbn [append]. destruct v as [|d v]; [discriminate|].
    cbn [until]. now rewrite Hv.
  - cbn [lt_free] in Hf. apply andb_true_iff in Hf as [Hc Hs].
    apply negb_true_iff in Hc.
    cbn [append until].
    rewrite (@starts_with_not_lt false close' c _ Hc), (IH Hs). reflexivity.
Qed.

Lemma until_free (close' t u : string) :
  lt_free t = true ->
  until (String "<" close') (t ++ String "<" close' ++ u) = Some t.
Proof.
  intros Hf. apply until_free_gen; [exact Hf | apply starts_with_append].
Qed.

Lemma search_content_hit (open' close' t u : string) :
  lt_free t = true ->
  search_content (String "<" open') (String "<" close')
    (String "<" open' ++ t ++ String "<" close' ++ u)
  = Some t.
Proof.
  intros Hf.
  change (String "<" open' ++ t ++ String "<" close' ++ u)
    with (String "<" (open' ++ t ++ String "<" close' ++ u)).
  cbn [search_content].
  change (String "<" (open' ++ t ++ String "<" close' ++ u))
    with (String "<" open' ++ t ++ String "<" close' ++ u).
  rewrite starts_with_append, drop_append, (@until_free close' t u Hf).
  reflexivity.
Qed.

End Scanning.

(* ================================================================== *)
(** * Responses in the expected layout                                *)
(* ================================================================== *)

(** Scan a laid-out text piece by piece. *)
Ltac scan_pieces :=
  repeat first
    [ rewrite finditer_from_free by assumption
    | rewrite finditer_from_hit
    | rewrite finditer_from_miss by (first [reflexivity | intros; reflexivity]) ];
  rewrite finditer_from_free_end by assumption.

Ltac search_pieces :=
  repeat first
    [ rewrite search_content_free by assumption
    | rewrite search_content_miss by (first [reflexivity | intros; reflexivity]) ];
  rewrite search_content_hit by assumption.

Lemma layout_think_start (pre t mid a post : string) :
  pieces_free pre t mid a post ->
  finditer false "<think>" (layout pre t mid a post)
  = [String.length pre].
Proof.
  intros (Hpre & Ht & Hmid & Ha & Hpost).
  unfold finditer, layout. scan_pieces. reflexivity.
Qed.

Lemma layout_think_end (pre t mid a post : string) :
  pieces_free pre t mid a post ->
  finditer false "</think>" (layout pre t mid a post)
  = [(String.length pre + 7 + String.length t)%nat].
Proof.
  intros (Hpre & Ht & Hmid & Ha & Hpost).
  unfold finditer, layout. scan_pieces. reflexivity.
Qed.

Lemma layout_answer_start (pre t mid a post : string) :
  pieces_free pre t mid a post ->
  finditer false "<answer>" (layout pre t mid a post)
  = [(String.length pre + 7 + String.length t + 8 + String.length mid)%nat].
Proof.
  intros (Hpre & Ht & Hmid & Ha & Hpost).
  unfold finditer, layout. scan_pieces. reflexivity.
Qed.

Lemma layout_answer_end (pre t mid a post : string) :
  pieces_free pre t mid a post ->
  finditer false "</answer>" (layout pre t mid a post)
  = [(String.length pre + 7 + String.length t + 8 + String.length mid
      + 8 + String.length a)%nat].
Proof.
  intros (Hpre & Ht & Hmid & Ha & Hpost).
  unfold finditer, layout. scan_pieces. reflexivity.
Qed.

Lemma layout_once_each (pre t mid a post : string) :
  pieces_free pre t mid a post -> once_each false (layout pre t mid a post).
Proof.
  intros H. unfold once_each, count.
  now rewrite (layout_think_start H), (layout_think_end H),
    (layout_answer_start H), (layout_answer_end H).
Qed.

Lemma layout_in_order (pre t mid a post : string) :
  pieces_free pre t mid a post -> in_order false (layout pre t mid a post).
Proof.
  intros H. unfold in_order, offset.
  rewrite (layout_think_start H), (layout_think_end H),
    (layout_answer_start H), (layout_answer_end H).
  cbn [hd]. lia.
Qed.

Lemma layout_think_content (pre t mid a post : string) :
  pieces_free pre t mid a post ->
  search_content "<think>" "</think>" (layout pre t mid a post) = Some t.
Proof.
  intros (Hpre & Ht & Hmid & Ha & Hpost).
  unfold layout. search_pieces. reflexivity.
Qed.

Lemma layout_answer_content (pre t mid a post : string) :
  pieces_free pre t mid a post ->
  search_content "<answer>" "</answer>" (layout pre t mid a post) = Some a.
Proof.
  intros (Hpre & Ht & Hmid & Ha & Hpost).
  unfold layout. search_pieces. reflexivity.
Qed.

(** X5.  For a response in the expected layout, whose pieces hold no
    [<], [rule.py] totals 3 for the structure plus 0.2 or -0.5 for a
    reasoning block that is or is not blank, plus 0.5 or -1.0 for the
    answer block; the text around the blocks does not count. *)
Theorem X5_rule_layout_total (pre t mid a post : string)
    (ground_truth : dict) :
  pieces_free pre t mid a post ->
  Rule.compute_score (layout pre t mid a post) ground_truth
  == 3 + (if truthy (strip t) then 0.2 else -0.5)
       + (if truthy (strip a) then 0.5 else -1.0).
Proof.
  intros Hfree.
  pose proof (layout_once_each Hfree) as Honce.
  pose proof (layout_in_order Hfree) as Hord.
  unfold Rule.compute_score. rewrite (rule_structural_once Honce).
  apply order_test_spec in Hord. rewrite Hord.
  unfold Rule.content_stage. cbv zeta.
  rewrite (layout_think_content Hfree), (layout_answer_content Hfree).
  cbn [Rule.content_non_empty].
  unfold Rule.REWARD_TAG_PRESENT, Rule.REWARD_ORDER_CORRECT,
    Rule.REWARD_CONTENT_NON_EMPTY_THINK, Rule.PENALTY_CONTENT_EMPTY_THINK,
    Rule.REWARD_CONTENT_NON_EMPTY_ANSWER, Rule.PENALTY_CONTENT_EMPTY_ANSWER.
  destruct (truthy (strip t)); destruct (truthy (strip a)); lra.
Qed.

Lemma X5_rule_layout_total_witness :
  Rule.compute_score
    (layout "Sure. " " first add, then halve " nl " 21 " " Done.") []
  == 3 + 0.2 + 0.5.
Proof.
  apply (@X5_rule_layout_total "Sure. " " first add, then halve " nl " 21 "
           " Done." []).
  repeat split; reflexivity.
Defined.

(** X6.  For a response in the expected layout [newkk.py] totals 3 for
    the structure, the length-shaping score of the stripped reasoning
    block, 1 for each name of the role map that the reasoning block
    mentions, and for the answer block either -2 when it is blank or 4
    for each pair of the role map it asserts. *)
Theorem X6_newkk_layout_total (pre t mid a post : string)
    (ground_truth : dict) :
  pieces_free pre t mid a post ->
  Newkk.compute_score (layout pre t mid a post) ground_truth
  == 3 + Newkk.think_length_score (String.length (strip t))
       + Newkk.think_quality_score (role_map ground_truth) (strip t)
       + (if truthy (strip a)
          then 4 * inject_Z
                     (Z.of_nat (Newkk.num_correct_assertions
                                  (role_map ground_truth) (strip a)))
          else -2).
Proof.
  intros Hfree.
  pose proof (layout_once_each Hfree) as Honce.
  pose proof (layout_in_order Hfree) as Hord.
  unfold Newkk.compute_score. rewrite (newkk_structural_once Honce).
  apply order_test_spec in Hord. rewrite Hord. cbv zeta.
  fold (role_map ground_truth).
  unfold Newkk.answer_stage, Newkk.think_stage. cbv zeta.
  rewrite (layout_think_content Hfree), (layout_answer_content Hfree).
  cbn [Newkk.content_of].
  unfold Newkk.REWARD_TAG_PRESENT, Newkk.REWARD_ORDER_CORRECT,
    Newkk.PENALTY_CONTENT_EMPTY_ANSWER,
    Newkk.REWARD_FOR_EACH_CORRECT_ASSERTION.
  destruct (role_map ground_truth) as [|kv d] eqn:Eg.
  - change (Newkk.think_quality_score [] (strip t)) with 0.
    change (Newkk.num_correct_assertions [] (strip a)) with 0%nat.
    change (inject_Z (Z.of_nat 0)) with 0.
    destruct (truthy (strip a)); cbn [negb orb]; lra.
  - destruct (truthy (strip a)); cbn [negb orb]; lra.
Qed.

Lemma X6_newkk_layout_total_witness :
  Newkk.compute_score liar_response liar_truth
  == 3 + Newkk.think_length_score
           (String.length (strip "Lily contradicts herself."))
       + Newkk.think_quality_score (role_map liar_truth)
           (strip "Lily contradicts herself.")
       + (if truthy (strip "(1) Lily is a knave")
          then 4 * inject_Z
                     (Z.of_nat (Newkk.num_correct_assertions
                                  (role_map liar_truth)
                                  (strip "(1) Lily is a knave")))
          else -2).
Proof.
  apply (@X6_newkk_layout_total "" "Lily contradicts herself." nl
           "(1) Lily is a knave" "" liar_truth).
  repeat split; reflexivity.
Defined.

(* ================================================================== *)
(** * The format stage of the molecule scorer on a tagged SMILES      *)
(* ================================================================== *)

Section Smiles.
Local Open Scope string_scope.

Lemma rstrip_cons (c : ascii) (s : string) :
  all_space (String c s) = false ->
  rstrip (String c s) = String c (rstrip s).
Proof.
  cbn [all_space rstrip]. intros H.
  destruct (rstrip s) eqn:E; [|reflexivity].
  apply rstrip_empty in E. rewrite E, andb_true_r in H. now rewrite H.
Qed.

Lemma rstrip_idem (s : string) : rstrip (rstrip s) = rstrip s.
Proof.
  induction s as [|c s IH]; [reflexivity|].
  cbn [rstrip]. destruct (rstrip s) as [|d r] eqn:E.
  - destruct (is_space c) eqn:Ec; [reflexivity|].
    cbn [rstrip]. now rewrite Ec.
  - cbn [rstrip]. cbn [rstrip] in IH. now rewrite IH.
Qed.

Lemma lstrip_head (c : ascii) (s : string) :
  is_space c = false -> lstrip (String c s) = String c s.
Proof.
  intros H. cbn [lstrip]. now rewrite H.
Qed.

(** What [lstrip] leaves is empty or starts with a character that is
    not blank. *)
Lemma lstrip_cases (s : string) :
  lstrip s = EmptyString \/
  exists c s', lstrip s = String c s' /\ is_space c = false.
Proof.
  induction s as [|c s IH]; [now left|].
  cbn [lstrip]. destruct (is_space c) eqn:E; [exact IH|].
  right. now exists c, s.
Qed.

(** Stripping twice is stripping once. *)
Lemma strip_idem (s : string) : strip (strip s) = strip s.
Proof.
  unfold strip. destruct (lstrip_cases s) as [-> | (c & s' & -> & Hc)];
    [reflexivity|].
  destruct (all_space (String c s')) eqn:E.
  - cbn [all_space] in E. rewrite Hc in E. discriminate.
  - rewrite (@rstrip_cons _ _ E), (@lstrip_head _ _ Hc), <- (@rstrip_cons _ _ E).
    apply rstrip_idem.
Qed.

Lemma lower_head_lt (m : string) (rest : string) :
  lower m = String "<" rest -> exists m', m = String "<" m'.
Proof.
  destruct m as [|c m']; cbn [lower]; intros H; [discriminate|].
  injection H as Hc _. exists m'. f_equal.
  apply Ascii.eqb_eq. rewrite <- lower_char_lt, Hc. apply Ascii.eqb_refl.
Qed.

Variables cl post : string.
Hypothesis Hcl : lower cl = "</smiles>".

Lemma close_at_head : starts_with true "</SMILES>" (cl ++ post) = true.
Proof.
  rewrite starts_with_ci_lower, lower_append, Hcl.
  apply (starts_with_append "</smiles>").
Qed.

(** In front of the closing tag, [\s*</SMILES>] matches exactly after a
    blank piece. *)
Lemma ws_then_close_free (y : string) :
  lt_free y = true ->
  Chem.ws_then_close (y ++ cl ++ post) = all_space y.
Proof.
  unfold Chem.ws_then_close. induction y as [|d y IH]; intros Hf.
  - cbn [append all_space].
    destruct (@lower_head_lt cl _ Hcl) as [cl' Hc]. rewrite Hc.
    change (String "<" cl' ++ post) with (String "<" (cl' ++ post)).
    rewrite lstrip_head by reflexivity.
    change (String "<" (cl' ++ post)) with (String "<" cl' ++ post).
    rewrite <- Hc. apply close_at_head.
  - cbn [lt_free] in Hf. apply andb_true_iff in Hf as [Hd Hy].
    apply negb_true_iff in Hd.
    cbn [append all_space lstrip].
    destruct (is_space d); cbn [andb]; [now apply IH|].
    now apply (@starts_with_not_lt true "/SMILES>" d).
Qed.

(** The lazy group in front of the closing tag stops after the last
    character that is not blank. *)
Lemma lazy_group_free (x : string) :
  lt_free x = true ->
  forall c, Chem.lazy_group (String c (x ++ cl ++ post))
            = Some (String c (rstrip x)).
Proof.
  induction x as [|d x IH]; intros Hf c.
  - pose proof (@ws_then_close_free EmptyString eq_refl) as H.
    cbn [append all_space] in H.
    cbn [append Chem.lazy_group rstrip]. now rewrite H.
  - cbn [Chem.lazy_group].
    change (String d x ++ cl ++ post) with (String d (x ++ cl ++ post)).
    change (String d (x ++ cl ++ post)) with (String d x ++ cl ++ post) at 1.
    rewrite (@ws_then_close_free (String d x) Hf).
    destruct (all_space (String d x)) eqn:E.
    + apply rstrip_empty in E. now rewrite E.
    + cbn [lt_free] in Hf. apply andb_true_iff in Hf as [_ Hx].
      rewrite (IH Hx d), (@rstrip_cons _ _ E). reflexivity.
Qed.

(** After the opening tag the group is the stripped inner text. *)
Lemma after_open_free (inner : string) :
  lt_free inner = true ->
  all_space inner = false ->
  Chem.after_open (inner ++ cl ++ post) = Some (strip inner).
Proof.
  induction inner as [|c inner IH]; intros Hf Hs; [discriminate|].
  pose proof Hf as Hf'.
  cbn [lt_free] in Hf. apply andb_true_iff in Hf as [_ Hi].
  change (String c inner ++ cl ++ post) with (String c (inner ++ cl ++ post)).
  cbn [Chem.after_open].
  destruct (is_space c) eqn:Ec.
  - cbn [all_space] in Hs. rewrite Ec in Hs. cbn [andb] in Hs.
    rewrite (IH Hi Hs). unfold strip. cbn [lstrip]. now rewrite Ec.
  - rewrite (@lazy_group_free inner Hi c). unfold strip.
    rewrite (@lstrip_head _ _ Ec), (@rstrip_cons _ _ Hs). reflexivity.
Qed.

Lemma search_smiles_free (s u : string) :
  lt_free s = true ->
  Chem.search_smiles (s ++ u) = Chem.search_smiles u.
Proof.
  induction s as [|c s IH]; intros Hf; [reflexivity|].
  cbn [lt_free] in Hf. apply andb_true_iff in Hf as [Hc Hs].
  apply negb_true_iff in Hc.
  cbn [append Chem.search_smiles].
  rewrite (@starts_with_not_lt true "SMILES>" c (s ++ u) Hc). now apply IH.
Qed.

End Smiles.

Lemma tagged_smiles_counts (pre op inner cl post : string) :
  tagged_smiles pre op inner cl post ->
  finditer true "<SMILES>" (pre ++ op ++ inner ++ cl ++ post)%string
  = [String.length pre] /\
  finditer true "</SMILES>" (pre ++ op ++ inner ++ cl ++ post)%string
  = [(String.length pre + 8 + String.length inner)%nat].
Proof.
  intros (Hpre & Hin & Hpost & Hop & Hcl).
  rewrite <- lt_free_lower in Hpre, Hin, Hpost.
  unfold finditer. rewrite !finditer_from_ci_lower, !lower_append, Hop, Hcl.
  change (lower "<SMILES>") with "<smiles>"%string.
  change (lower "</SMILES>") with "</smiles>"%string.
  split; scan_pieces; rewrite !length_lower; reflexivity.
Qed.

Lemma tagged_smiles_search (pre op inner cl post : string) :
  tagged_smiles pre op inner cl post ->
  all_space inner = false ->
  Chem.search_smiles (pre ++ op ++ inner ++ cl ++ post)%string
  = Some (strip inner).
Proof.
  intros (Hpre & Hin & Hpost & Hop & Hcl) Hs.
  rewrite (@search_smiles_free pre _ Hpre).
  assert (Hhit : starts_with true "<SMILES>"
                   (op ++ inner ++ cl ++ post)%string = true).
  { rewrite starts_with_ci_lower, lower_append, Hop.
    apply (starts_with_append "<smiles>"). }
  assert (Hlen : String.length op = 8%nat).
  { rewrite <- length_lower, Hop. reflexivity. }
  destruct op as [|c op']; [discriminate|].
  change ((String c op' ++ inner ++ cl ++ post)%string)
    with (String c (op' ++ inner ++ cl ++ post)%string) in *.
  cbn [Chem.search_smiles]. rewrite Hhit.
  change (String c (op' ++ inner ++ cl ++ post)%string)
    with ((String c op' ++ inner ++ cl ++ post)%string).
  rewrite <- Hlen, drop_append, (@after_open_free cl post Hcl inner Hin Hs).
  reflexivity.
Qed.

(** The format stage on a tagged SMILES. *)
Lemma check_format_tagged (pre op inner cl post : string) :
  tagged_smiles pre op inner cl post ->
  strip inner <> EmptyString ->
  Chem.check_format (pre ++ op ++ inner ++ cl ++ post)%string
  = (1.0, Some (strip inner)).
Proof.
  intros Htag Hne.
  assert (Hs : all_space inner = false).
  { destruct (all_space inner) eqn:E; [|reflexivity].
    apply strip_empty in E. contradiction. }
  destruct (tagged_smiles_counts Htag) as [H1 H2].
  unfold Chem.check_format. cbv zeta.
  rewrite H1, H2, (tagged_smiles_search Htag Hs), strip_idem.
  cbn [List.length Nat.eqb andb].
  apply truthy_true in Hne. now rewrite Hne.
Qed.


(** X7.  The format stage extracts what stands between the tags: for a
    response that holds one [<SMILES>]...[</SMILES>] pair, written in any
    letter casing, around an inner text that is not blank, with no [<]
    elsewhere, [check_format] gives the format reward 1.0 and the inner
    text stripped of surrounding blanks. *)
Theorem X7_check_format_extracts_inner (pre op inner cl post : string) :
  tagged_smiles pre op inner cl post ->
  strip inner <> EmptyString ->
  Chem.check_format (pre ++ op ++ inner ++ cl ++ post)%string
  = (1.0, Some (strip inner)).
Proof.
  apply check_format_tagged.
Qed.

Lemma X7_check_format_extracts_inner_witness :
  Chem.check_format "Answer: <smiles> CC(=O)O </Smiles> done"
  = (1.0, Some "CC(=O)O"%string).
Proof.
  apply (@X7_check_format_extracts_inner "Answer: " "<smiles>" " CC(=O)O "
           "</Smiles>" " done").
  - repeat split; reflexivity.
  - discriminate.
Defined.

(** X8.  Whatever the response, the format stage gives either the
    penalty -5.0 and no SMILES, or the reward 1.0 and a SMILES string that
    is not empty and has no blank at either end. *)
Theorem X8_check_format_outcomes (text : string) :
  Chem.check_format text = (-5.0, None) \/
  exists smiles,
    Chem.check_format text = (1.0, Some smiles) /\
    smiles <> EmptyString /\ strip smiles = smiles.
Proof.
  unfold Chem.check_format. cbv zeta.
  destruct (_ && _); [|now left].
  destruct (Chem.search_smiles text) as [g|]; [|now left].
  destruct (truthy (strip g)) eqn:E; [|now left].
  right. exists (strip g). split; [reflexivity|]. split.
  - now apply truthy_true.
  - apply strip_idem.
Qed.

(** X9.  On an oracle that keeps to its scales, each of the seven
    property rewards lies in the range its docstring gives: 0 to 2.0 for
    the drug-likeness and synthetic-accessibility rewards, 0 to 1.5 for
    the lipophilicity and rule-of-five rewards, 0 to 1.0 for the others. *)
Theorem X9_reward_in_documented_range (Mol : Type) (o : Chem.Oracle Mol)
    (mol : Mol) (p : property) :
  oracle_in_scale o mol ->
  in_range 0 (documented_max p) (reward o p mol).
Proof.
  intros [Hq Hs]. destruct p; cbn [reward documented_max].
  - now apply qed_reward_range.
  - now apply sa_reward_range.
  - apply logp_reward_range.
  - apply mw_reward_range.
  - apply tpsa_reward_range.
  - apply lipinski_reward_range.
  - apply egfr_specific_reward_range.
Qed.

Lemma X9_reward_in_documented_range_witness :
  in_range 0 (documented_max Sa) (reward rejecting_oracle Sa tt).
Proof.
  apply (@X9_reward_in_documented_range unit rejecting_oracle tt Sa).
  split; intros q H; injection H as <-; lra.
Defined.

(** The total for a molecule the oracle parsed. *)
Lemma chem_property_total (Mol : Type) (o : Chem.Oracle Mol) (m : Mol)
    (f v : Q) :
  exists t,
    bind (Chem.qed_reward o m) (fun qed_score =>
    bind (Chem.sa_reward o m) (fun sa_score =>
    bind (Chem.logp_reward o m) (fun logp_score =>
    bind (Chem.mw_reward o m) (fun mw_score =>
    bind (Chem.tpsa_reward o m) (fun tpsa_score =>
    bind (Chem.lipinski_reward o m) (fun lipinski_score =>
    bind (Chem.egfr_specific_reward o m) (fun egfr_score =>
      Ok (f + v + qed_score + sa_score + logp_score + mw_score
          + tpsa_score + lipinski_score + egfr_score)))))))) = Ok t /\
    f + v <= t /\
    (oracle_in_scale o m -> t <= f + v + 10).
Proof.
  destruct (qed_reward_nonneg o m) as (v1 & E1 & H1).
  destruct (sa_reward_nonneg o m) as (v2 & E2 & H2).
  destruct (logp_reward_range o m) as (v3 & E3 & H3 & G3).
  destruct (mw_reward_range o m) as (v4 & E4 & H4 & G4).
  destruct (tpsa_reward_range o m) as (v5 & E5 & H5 & G5).
  destruct (lipinski_reward_range o m) as (v6 & E6 & H6 & G6).
  destruct (egfr_specific_reward_range o m) as (v7 & E7 & H7 & G7).
  rewrite E1, E2, E3, E4, E5, E6, E7. cbn [bind].
  eexists. split; [reflexivity|]. split; [lra|].
  intros [Hq Hs].
  destruct (qed_reward_range o m Hq) as (w1 & F1 & _ & G1).
  destruct (sa_reward_range o m Hs) as (w2 & F2 & _ & G2).
  rewrite E1 in F1. rewrite E2 in F2.
  injection F1 as <-. injection F2 as <-. lra.
Qed.

(** X10.  The total of the molecule scorer tells the stage at which
    the scorer stopped, and the stage tells the total: the total is -5.0
    exactly when no SMILES is extracted (or RDKit is missing), it is
    1.0 + -3.0 exactly when the oracle does not parse the extracted
    SMILES, and it is at least 1.5 exactly when the oracle parses it. *)
Theorem X10_chem_total_by_stage (Mol : Type) (o : Chem.Oracle Mol)
    (text : string) (ground_truth : dict) :
  exists v,
    Chem.compute_score o text ground_truth = Ok v /\
    (stops_at_format o text <-> v == -5) /\
    (stops_at_validity o text <-> v == -2) /\
    (reaches_properties o text <-> 1.5 <= v).
Proof.
  unfold stops_at_format, stops_at_validity, reaches_properties,
    Chem.compute_score.
  destruct (Chem.RDKIT_AVAILABLE o) eqn:Hav; cbn [negb].
  2:{ exists (-5.0). split; [reflexivity|]. split; [|split]; split.
      - intros _. reflexivity.
      - intros _. now left.
      - intros [H _]. discriminate.
      - intros H. lra.
      - intros [H _]. discriminate.
      - intros H. lra. }
  destruct (check_format_cases text) as [E | [[sm E] _]]; rewrite E;
    cbn [snd].
  { exists (-5.0). split; [reflexivity|]. split; [|split]; split.
    - intros _. reflexivity.
    - intros _. now right.
    - intros (_ & smiles & H & _). discriminate.
    - intros H. lra.
    - intros (_ & smiles & mol & H & _). discriminate.
    - intros H. lra. }
  unfold Chem.check_validity. rewrite Hav. cbn [negb].
  destruct (Chem.MolFromSmiles o sm) as [[m|]|e] eqn:Hp;
    cbn [bind try_except].
  - destruct (chem_property_total o m 1.0 0.5) as (t & -> & Hlo & _).
    exists t. split; [reflexivity|]. split; [|split]; split.
    + intros [H | H]; discriminate.
    + intros H. lra.
    + intros (_ & smiles & H & [H' | [e H']]); injection H as <-;
        congruence.
    + intros H. lra.
    + intros _. lra.
    + intros _. split; [reflexivity|]. exists sm, m. now split.
  - exists (1.0 + -3.0). split; [reflexivity|]. split; [|split]; split.
    + intros [H | H]; discriminate.
    + intros H. lra.
    + intros _. lra.
    + intros _. split; [reflexivity|]. exists sm.
      split; [reflexivity | now left].
    + intros (_ & smiles & mol & H & H'). injection H as <-. congruence.
    + intros H. lra.
  - exists (1.0 + -3.0). split; [reflexivity|]. split; [|split]; split.
    + intros [H | H]; discriminate.
    + intros H. lra.
    + intros _. lra.
    + intros _. split; [reflexivity|]. exists sm.
      split; [reflexivity | right; now exists e].
    + intros (_ & smiles & mol & H & H'). injection H as <-. congruence.
    + intros H. lra.
Qed.

(** X11.  On an oracle that keeps to its scales the total of the
    molecule scorer lies between -5.0 and 11.5, the range its docstring
    gives. *)
Theorem X11_chem_total_range (Mol : Type) (o : Chem.Oracle Mol)
    (text : string) (ground_truth : dict) :
  (forall mol, oracle_in_scale o mol) ->
  in_range (-5.0) 11.5 (Chem.compute_score o text ground_truth).
Proof.
  intros Hscale. unfold Chem.compute_score.
  destruct (Chem.RDKIT_AVAILABLE o) eqn:Hav; cbn [negb].
  2:{ apply in_range_ok; lra. }
  destruct (check_format_cases text) as [-> | [[sm ->] _]].
  { apply in_range_ok; lra. }
  unfold Chem.check_validity. rewrite Hav. cbn [negb].
  destruct (Chem.MolFromSmiles o sm) as [[m|]|e]; cbn [bind try_except].
  - destruct (chem_property_total o m 1.0 0.5) as (t & -> & Hlo & Hhi).
    specialize (Hhi (Hscale m)). apply in_range_ok; lra.
  - apply in_range_ok; lra.
  - apply in_range_ok; lra.
Qed.

Lemma X11_chem_total_range_witness :
  in_range (-5.0) 11.5
    (Chem.compute_score no_sa_oracle "<SMILES>CCO</SMILES>" []).
Proof.
  apply (@X11_chem_total_range unit no_sa_oracle "<SMILES>CCO</SMILES>" []).
  intros mol. split; intros q H; injection H as <-; lra.
Defined.

Import RewardManager.

(* ================================================================== *)
(** * What the reward managers return                                 *)
(* ================================================================== *)

Lemma nth_error_repeat (A : Type) (x : A) (n j : nat) :
  (j < n)%nat -> nth_error (repeat x n) j = Some x.
Proof.
  revert j. induction n as [|n IH]; intros [|j] H; cbn; try lia; auto.
  apply IH. lia.
Qed.

Lemma column_lt (data_item : DataItem) :
  well_shaped data_item ->
  (column data_item < List.length (responses data_item))%nat.
Proof.
  intros [Hne Hle]. unfold column.
  destruct (responses data_item) as [|r rs]; [contradiction|].
  cbn [List.length] in *.
  destruct (valid_response_length data_item); cbn [Nat.eqb]; lia.
Qed.

(** A scored row is the row of its sample. *)
Lemma scored_row_is_row (data_item : DataItem) (score : Q) :
  well_shaped data_item -> row_of data_item score (scored_row data_item score).
Proof.
  intros Hs. pose proof (column_lt Hs) as Hc. unfold row_of, scored_row.
  rewrite set_nth_length, repeat_length. split; [reflexivity|].
  intros j Hj. destruct (j =? column data_item)%nat eqn:E.
  - apply Nat.eqb_eq in E. subst j.
    apply nth_error_set_nth_eq with (x := 0). now apply nth_error_repeat.
  - apply Nat.eqb_neq in E. rewrite nth_error_set_nth_neq by exact E.
    now apply nth_error_repeat.
Qed.

Lemma record_scores_same_key (key : string) (scores l : list Q) :
  record_scores key scores [(key, l)] = [(key, l ++ scores)].
Proof.
  revert l. induction scores as [|s ss IH]; intros l; cbn.
  - now rewrite app_nil_r.
  - rewrite String.eqb_refl.
    change (fold_left (fun acc sc => append_info acc key sc) ss
              [(key, l ++ [s])]) with (record_scores key ss [(key, l ++ [s])]).
    rewrite IH, <- app_assoc. reflexivity.
Qed.

(** Appending the scores of a batch to an empty record leaves one key
    with all of them, in order. *)
Lemma record_scores_fresh (key : string) (s : Q) (ss : list Q) :
  record_scores key (s :: ss) [] = [(key, s :: ss)].
Proof.
  cbn. apply (record_scores_same_key key ss [s]).
Qed.

Lemma Forall2_nth_both (A B : Type) (R : A -> B -> Prop) (l : list A)
    (l' : list B) :
  Forall2 R l l' ->
  forall i x y, nth_error l i = Some x -> nth_error l' i = Some y -> R x y.
Proof.
  induction 1 as [|a b l l' Hab _ IH]; intros [|i] x y Hx Hy;
    try discriminate.
  - injection Hx as <-. injection Hy as <-. exact Hab.
  - now apply (IH i).
Qed.

Section Run.

Variable decode : list Z -> string.
Variable float32 : Q -> Q.
Variable key : string.
Variable score_item : DataItem -> string -> pyres Q.

(** One pass of the loop body on a zero row. *)
Lemma loop_body_run (i : nat) (it : DataItem) (sc : Q) (T : tensor)
    (info : list (string * list Q)) :
  scores_as decode score_item it sc ->
  nth_error T i = Some (repeat 0 (List.length (responses it))) ->
  loop_body decode float32 key score_item i it (T, info)
  = Ok (set_nth T i (scored_row it (float32 sc)), append_info info key sc).
Proof.
  intros [Hshape Hsc] Hrow.
  unfold loop_body. fold (response_str decode it). rewrite Hsc.
  cbn [bind]. unfold tensor_setitem. rewrite Hrow.
  rewrite repeat_length, (index_column Hshape). reflexivity.
Qed.

(** The loop over samples that score as [scores]: it writes the row of
    each sample with its score cast to [float32], leaves every other row
    alone and records the scores, as they are, in order. *)
Lemma loop_run (todo : list DataItem) (scores : list Q) :
  Forall2 (scores_as decode score_item) todo scores ->
  forall (i : nat) (T : tensor) (info : list (string * list Q)),
    (forall k it, nth_error todo k = Some it ->
       nth_error T (i + k)
       = Some (repeat 0 (List.length (responses it)))) ->
    exists T',
      loop decode float32 key score_item i todo (T, info)
      = Ok (T', record_scores key scores info) /\
      List.length T' = List.length T /\
      (forall j, (j < i \/ i + List.length todo <= j)%nat ->
         nth_error T' j = nth_error T j) /\
      (forall k it sc,
         nth_error todo k = Some it -> nth_error scores k = Some sc ->
         nth_error T' (i + k) = Some (scored_row it (float32 sc))).
Proof.
  induction 1 as [|it sc rest scores' Hit Hrest IH]; intros i T info Hrows.
  - exists T. cbn. repeat split; auto. intros [|k] it sc H; discriminate.
  - pose proof (Hrows 0%nat it eq_refl) as Hrow. rewrite Nat.add_0_r in Hrow.
    set (T1 := set_nth T i (scored_row it (float32 sc))).
    destruct (IH (S i) T1 (append_info info key sc))
      as (T' & HL & Hlen & Hframe & Hpost).
    { intros k it' Hk. unfold T1. rewrite nth_error_set_nth_neq by lia.
      replace (S i + k)%nat with (i + S k)%nat by lia. now apply Hrows. }
    exists T'. split; [|split; [|split]].
    + cbn [loop]. rewrite (@loop_body_run i it sc T info Hit Hrow). exact HL.
    + rewrite Hlen. apply set_nth_length.
    + intros j Hj. cbn [List.length] in Hj. rewrite Hframe by lia.
      unfold T1. apply nth_error_set_nth_neq. lia.
    + intros [|k] it' sc' Hk Hs.
      * injection Hk as <-. injection Hs as <-.
        rewrite Nat.add_0_r, Hframe by lia.
        unfold T1. eapply nth_error_set_nth_eq. exact Hrow.
      * replace (i + S k)%nat with (S i + k)%nat by lia. now apply Hpost.
Qed.

(** The same for the whole batch, from the zero tensor. *)
Lemma batch_run (data : DataProto) (scores : list Q) :
  Forall2 (scores_as decode score_item) (items data) scores ->
  exists T,
    loop decode float32 key score_item 0 (items data) (zeros_like data, [])
    = Ok (T, record_scores key scores []) /\
    List.length T = List.length (items data) /\
    (forall i it sc,
       nth_error (items data) i = Some it -> nth_error scores i = Some sc ->
       exists row, nth_error T i = Some row /\ row_of it (float32 sc) row).
Proof.
  intros HF.
  destruct (@loop_run (items data) scores HF 0%nat (zeros_like data) [])
    as (T & HL & Hlen & _ & Hpost).
  - intros k it Hk. unfold zeros_like. cbn [Nat.add].
    now rewrite nth_error_map, Hk.
  - exists T. split; [exact HL|]. split.
    + rewrite Hlen. unfold zeros_like. apply length_map.
    + intros i it sc Hi Hs. exists (scored_row it (float32 sc)).
      split; [now apply (Hpost i it sc)|].
      apply scored_row_is_row.
      now destruct (Forall2_nth_both HF i Hi Hs) as [Hshape _].
Qed.

End Run.

Lemma Forall_exists_Forall2 (A B : Type) (R : A -> B -> Prop) (l : list A) :
  Forall (fun x => exists y, R x y) l -> exists l', Forall2 R l l'.
Proof.
  induction 1 as [|x l [y Hy] _ [l' IH]].
  - now exists [].
  - exists (y :: l'). now constructor.
Qed.

Lemma Forall2_impl (A B : Type) (R R' : A -> B -> Prop) (l : list A)
    (l' : list B) :
  (forall x y, R x y -> R' x y) -> Forall2 R l l' -> Forall2 R' l l'.
Proof.
  intros H. induction 1; constructor; auto.
Qed.

Lemma Forall2_nonempty (A B : Type) (R : A -> B -> Prop) (l : list A)
    (l' : list B) :
  Forall2 R l l' -> l <> [] -> exists y l'', l' = y :: l''.
Proof.
  intros [|x y l0 l1 _ _] H; [contradiction | now exists y, l1].
Qed.

(** The chemistry manager on a batch of well-shaped samples. *)
Lemma chem_manager_run (decode : list Z -> string) (float32 : Q -> Q)
    (Mol : Type) (o : Chem.Oracle Mol) (data : DataProto)
    (return_dict : bool) :
  well_shaped_batch data ->
  exists T scores,
    ChemRewardManager_call decode float32 o data return_dict
    = Ok (if return_dict then Dict T [("chem_score"%string, scores)]
          else Tensor T) /\
    Forall2 (fun it sc =>
               chem_score_item o it (response_str decode it) = Ok sc)
            (items data) scores /\
    List.length T = List.length (items data) /\
    (forall i it sc,
        nth_error (items data) i = Some it -> nth_error scores i = Some sc ->
        exists row, nth_error T i = Some row /\ row_of it (float32 sc) row).
Proof.
  intros (Hrm & Hne & Hshape).
  destruct (@Forall_exists_Forall2 _ _
              (scores_as decode (chem_score_item o)) (items data))
    as [scores HF].
  { eapply Forall_impl; [|exact Hshape]. intros it Hit.
    destruct (chem_compute_score_total o (response_str decode it)
                match ground_truth it with Some g => g | None => [] end)
      as [v Hv].
    exists v. split; [exact Hit | exact Hv]. }
  destruct (batch_run float32 "chem_score" data HF)
    as (T & HL & Hlen & Hrows).
  destruct (Forall2_nonempty HF Hne) as (s0 & ss & ->).
  rewrite record_scores_fresh in HL.
  exists T, (s0 :: ss). split; [|split; [|split]]; try assumption.
  - unfold ChemRewardManager_call, call. rewrite Hrm, HL. cbn [bind].
    assert (Hrep : chem_report T = Ok tt).
    { destruct (items data) as [|it0 rest] eqn:E; [contradiction|].
      destruct (Hrows 0%nat it0 s0 eq_refl eq_refl) as (row & Hrow & Hlenrow & _).
      inversion Hshape as [|? ? [Hresp _] _]; subst.
      destruct T as [|r T']; [discriminate|]. injection Hrow as ->.
      unfold chem_report. cbn [concat].
      destruct row as [|x row]; [|reflexivity].
      cbn in Hlenrow. destruct (responses it0); [contradiction | discriminate]. }
    rewrite Hrep. cbn [bind]. destruct return_dict; reflexivity.
  - eapply Forall2_impl; [|exact HF]. now intros it sc [_ H].
Qed.

(** X12.  On a batch without precomputed scores that holds at least one
    sample and whose samples are all well-shaped, the chemistry manager
    returns a tensor with one row per sample; each row has the width of
    the sample's response, the score of the decoding of the first
    [valid_response_length] response tokens, cast to [float32], at column
    [valid_response_length - 1] (the last column when the mask selects
    no response token) and zero in every other column.  With [return_dict] the extra information lists the scores
    as the scorer returned them, in sample order, under the key
    ["chem_score"]. *)
Theorem X12_chem_manager_output (decode : list Z -> string)
    (float32 : Q -> Q) (Mol : Type) (o : Chem.Oracle Mol)
    (data : DataProto) (return_dict : bool) :
  rm_scores data = None ->
  items data <> [] ->
  Forall well_shaped (items data) ->
  exists T scores,
    ChemRewardManager_call decode float32 o data return_dict
    = Ok (if return_dict then Dict T [("chem_score"%string, scores)]
          else Tensor T) /\
    Forall2 (fun it sc =>
               chem_score_item o it (response_str decode it) = Ok sc)
            (items data) scores /\
    List.length T = List.length (items data) /\
    (forall i it sc,
        nth_error (items data) i = Some it -> nth_error scores i = Some sc ->
        exists row,
          nth_error T i = Some row /\ row_of it (float32 sc) row).
Proof.
  intros Hrm Hne Hshape. apply chem_manager_run.
  split; [exact Hrm|]. split; [exact Hne | exact Hshape].
Qed.

Lemma X12_chem_manager_output_witness :
  exists T scores,
    ChemRewardManager_call (fun _ => EmptyString) float32_nearest
      no_sa_oracle zero_valid_batch true
    = Ok (Dict T [("chem_score"%string, scores)]) /\
    Forall2 (fun it sc =>
               chem_score_item no_sa_oracle it
                 (response_str (fun _ => EmptyString) it) = Ok sc)
            (items zero_valid_batch) scores /\
    List.length T = List.length (items zero_valid_batch) /\
    (forall i it sc,
        nth_error (items zero_valid_batch) i = Some it ->
        nth_error scores i = Some sc ->
        exists row,
          nth_error T i = Some row /\ row_of it (float32_nearest sc) row).
Proof.
  apply (@X12_chem_manager_output (fun _ => EmptyString) float32_nearest
           unit no_sa_oracle zero_valid_batch true).
  - reflexivity.
  - discriminate.
  - apply Forall_cons; [|apply Forall_nil].
    split; [discriminate | vm_compute; lia].
Defined.

(** X13.  On a batch without precomputed scores that holds at least one
    sample and whose samples are all well-shaped and carry a ground
    truth, the logic manager returns a tensor with one row per sample;
    each row holds, cast to [float32], the score that [kk.compute_score]
    gives the decoding of the first [valid_response_length] response
    tokens and the sample's ground truth, at column
    [valid_response_length - 1] (the last column when the mask selects
    no response token), and zero elsewhere.  With [return_dict]
    the scores are listed as the scorer returned them, in sample order,
    under the key ["logic_rl_score"]. *)
Theorem X13_logic_manager_output (decode : list Z -> string)
    (kk_compute_score : string -> dict -> Q) (float32 : Q -> Q)
    (data : DataProto) (return_dict : bool) :
  rm_scores data = None ->
  items data <> [] ->
  Forall well_shaped (items data) ->
  Forall (fun it => ground_truth it <> None) (items data) ->
  exists T scores,
    LogicRLRewardManager_call decode kk_compute_score float32 data return_dict
    = Ok (if return_dict then Dict T [("logic_rl_score"%string, scores)]
          else Tensor T) /\
    Forall2 (fun it sc =>
               exists g, ground_truth it = Some g /\
                         sc = kk_compute_score (response_str decode it) g)
            (items data) scores /\
    List.length T = List.length (items data) /\
    (forall i it sc,
        nth_error (items data) i = Some it -> nth_error scores i = Some sc ->
        exists row,
          nth_error T i = Some row /\ row_of it (float32 sc) row).
Proof.
  intros Hrm Hne Hshape Hgt.
  destruct (@Forall_exists_Forall2 _ _
              (scores_as decode (logic_rl_score_item kk_compute_score))
              (items data))
    as [scores HF].
  { rewrite Forall_forall in *. intros it Hin.
    destruct (@logic_rl_score_item_ok kk_compute_score it
                (response_str decode it) (Hgt it Hin)) as [v Hv].
    exists v. split; [now apply Hshape | exact Hv]. }
  destruct (batch_run float32 "logic_rl_score" data HF)
    as (T & HL & Hlen & Hrows).
  destruct (Forall2_nonempty HF Hne) as (s0 & ss & ->).
  rewrite record_scores_fresh in HL.
  exists T, (s0 :: ss). split; [|split; [|split]]; try assumption.
  - unfold LogicRLRewardManager_call, call. rewrite Hrm, HL. cbn [bind].
    destruct return_dict; reflexivity.
  - eapply Forall2_impl; [|exact HF]. intros it sc [_ H].
    unfold logic_rl_score_item in H.
    destruct (ground_truth it) as [g|]; [|discriminate].
    exists g. split; [reflexivity|]. cbn in H. now injection H as <-.
Qed.

Lemma X13_logic_manager_output_witness :
  exists T scores,
    LogicRLRewardManager_call (fun _ => EmptyString) (fun _ _ => 0.1)
      float32_nearest unknown_source_batch true
    = Ok (Dict T [("logic_rl_score"%string, scores)]) /\
    Forall2 (fun it sc =>
               exists g, ground_truth it = Some g /\
                         sc = (fun (_ : string) (_ : dict) => 0.1)
                                (response_str (fun _ => EmptyString) it) g)
            (items unknown_source_batch) scores /\
    List.length T = List.length (items unknown_source_batch) /\
    (forall i it sc,
        nth_error (items unknown_source_batch) i = Some it ->
        nth_error scores i = Some sc ->
        exists row,
          nth_error T i = Some row /\ row_of it (float32_nearest sc) row).
Proof.
  apply (@X13_logic_manager_output (fun _ => EmptyString) (fun _ _ => 0.1)
           float32_nearest unknown_source_batch true).
  - reflexivity.
  - discriminate.
  - apply Forall_cons; [|apply Forall_nil].
    split; [discriminate | vm_compute; lia].
  - apply Forall_cons; [discriminate | apply Forall_nil].
Defined.

Import RewardManager.

(* ================================================================== *)
(** * Where the reward managers fail                                  *)
(* ================================================================== *)

(** The first element of a list with a decidable property. *)
Lemma first_such (A : Type) (P : A -> bool) (l : list A) :
  existsb P l = true ->
  exists l1 x l2,
    l = l1 ++ x :: l2 /\ P x = true /\ forallb (fun y => negb (P y)) l1 = true.
Proof.
  induction l as [|a l IH]; cbn; [discriminate|].
  destruct (P a) eqn:E; cbn.
  - intros _. now exists [], a, l.
  - intros H. destruct (IH H) as (l1 & x & l2 & -> & Hx & Hl1).
    exists (a :: l1), x, l2. cbn. rewrite E. now repeat split.
Qed.

Section Stop.

Variable decode : list Z -> string.
Variable float32 : Q -> Q.
Variable key : string.
Variable score_item : DataItem -> string -> pyres Q.

Lemma loop_app (l1 l2 : list DataItem) :
  forall i st,
    loop decode float32 key score_item i (l1 ++ l2) st
    = bind (loop decode float32 key score_item i l1 st)
        (fun st' => loop decode float32 key score_item (i + List.length l1) l2 st').
Proof.
  induction l1 as [|it l1 IH]; intros i st.
  - cbn. now rewrite Nat.add_0_r.
  - cbn [app loop List.length].
    destruct (loop_body decode float32 key score_item i it st) as [st'|e];
      cbn [bind]; [|reflexivity].
    rewrite IH. now replace (S i + List.length l1)%nat
                      with (i + S (List.length l1))%nat by lia.
Qed.

(** The loop stops at the first sample whose body raises: the samples
    before it are scored, and the exception leaves the call. *)
Lemma loop_stops (done : list DataItem) (bad : DataItem)
    (rest : list DataItem) (scores : list Q) (T : tensor) (e : exn) :
  Forall2 (scores_as decode score_item) done scores ->
  (forall k it, nth_error done k = Some it ->
     nth_error T k = Some (repeat 0 (List.length (responses it)))) ->
  (forall T' info',
     nth_error T' (List.length done) = nth_error T (List.length done) ->
     loop_body decode float32 key score_item (List.length done) bad (T', info')
     = Raise e) ->
  loop decode float32 key score_item 0 (done ++ bad :: rest) (T, []) = Raise e.
Proof.
  intros HF Hrows Hbad. rewrite loop_app.
  destruct (@loop_run decode float32 key score_item done scores HF 0%nat T [])
    as (T' & HL & _ & Hframe & _).
  { intros k it Hk. cbn [Nat.add]. now apply Hrows. }
  rewrite HL. cbn [bind Nat.add loop].
  rewrite Hbad; [reflexivity|]. apply Hframe. right. cbn. lia.
Qed.

End Stop.

Lemma zeros_like_row (data : DataProto) (l1 l2 : list DataItem)
    (it : DataItem) :
  items data = l1 ++ it :: l2 ->
  nth_error (zeros_like data) (List.length l1)
  = Some (repeat 0 (List.length (responses it))).
Proof.
  intros H. unfold zeros_like. rewrite nth_error_map, H.
  rewrite nth_error_app2 by lia. now rewrite Nat.sub_diag.
Qed.

Lemma zeros_like_rows_before (data : DataProto) (l1 l2 : list DataItem) :
  items data = l1 ++ l2 ->
  forall k it, nth_error l1 k = Some it ->
    nth_error (zeros_like data) k
    = Some (repeat 0 (List.length (responses it))).
Proof.
  intros H k it Hk. unfold zeros_like. rewrite nth_error_map, H.
  rewrite nth_error_app1 by (apply nth_error_Some; congruence).
  now rewrite Hk.
Qed.

(** X14.  In a batch of well-shaped samples without precomputed scores,
    one sample without ground truth aborts the logic manager with
    [KeyError], whatever the other samples are; the chemistry manager,
    which falls back to an empty ground truth, scores the same batch. *)
Theorem X14_missing_ground_truth (decode : list Z -> string)
    (kk_compute_score : string -> dict -> Q) (float32 : Q -> Q)
    (Mol : Type) (o : Chem.Oracle Mol) (data : DataProto)
    (return_dict : bool) :
  well_shaped_batch data ->
  existsb no_ground_truth (items data) = true ->
  LogicRLRewardManager_call decode kk_compute_score float32 data return_dict
  = Raise KeyError /\
  exists out, ChemRewardManager_call decode float32 o data return_dict = Ok out.
Proof.
  intros Hb Hex. split.
  - destruct Hb as (Hrm & _ & Hshape).
    destruct (first_such _ _ Hex) as (l1 & bad & l2 & Hitems & Hbad & Hl1).
    unfold LogicRLRewardManager_call, call. rewrite Hrm, Hitems.
    destruct (@Forall_exists_Forall2 _ _
                (scores_as decode (logic_rl_score_item kk_compute_score)) l1)
      as [scores HF].
    { rewrite Hitems in Hshape. apply Forall_app in Hshape as [Hs1 _].
      rewrite Forall_forall in *. intros it Hin.
      rewrite forallb_forall in Hl1. specialize (Hl1 it Hin).
      destruct (@logic_rl_score_item_ok kk_compute_score it
                  (response_str decode it)) as [v Hv].
      { unfold no_ground_truth in Hl1.
        destruct (ground_truth it); [discriminate | discriminate]. }
      exists v. split; [now apply Hs1 | exact Hv]. }
    rewrite (@loop_stops decode float32 "logic_rl_score"
               (logic_rl_score_item kk_compute_score) l1 bad l2 scores
               (zeros_like data) KeyError HF); [reflexivity | |].
    + apply (zeros_like_rows_before data l1 (bad :: l2) Hitems).
    + intros T' info' _. unfold loop_body, logic_rl_score_item.
      unfold no_ground_truth in Hbad.
      destruct (ground_truth bad); [discriminate | reflexivity].
  - destruct (chem_manager_run decode float32 o return_dict Hb)
      as (T & scores & H & _).
    eexists. exact H.
Qed.

(** The body of the loop on a sample whose row has no column. *)
Lemma loop_body_no_column (decode : list Z -> string) (float32 : Q -> Q)
    (key : string)
    (score_item : DataItem -> string -> pyres Q) (i : nat) (it : DataItem)
    (T : tensor) (info : list (string * list Q)) (sc : Q) :
  score_item it (response_str decode it) = Ok sc ->
  nth_error T i = Some [] ->
  loop_body decode float32 key score_item i it (T, info) = Raise IndexError.
Proof.
  intros Hsc Hrow. unfold loop_body. fold (response_str decode it).
  rewrite Hsc. cbn [bind]. unfold tensor_setitem. rewrite Hrow.
  cbn [List.length]. unfold index.
  destruct (valid_response_length it) as [|v]; [reflexivity|].
  destruct ((0 <=? Z.of_nat (S v) - 1)%Z && (Z.of_nat (S v) - 1 <? Z.of_nat 0)%Z)
    eqn:E1.
  { apply andb_true_iff in E1 as [_ E1]. apply Z.ltb_lt in E1. lia. }
  destruct ((- Z.of_nat 0 <=? Z.of_nat (S v) - 1)%Z && (Z.of_nat (S v) - 1 <? 0)%Z)
    eqn:E2; [|reflexivity].
  apply andb_true_iff in E2 as [_ E2]. apply Z.ltb_lt in E2. lia.
Qed.

(** A manager whose scoring never raises stops with [IndexError] at the
    first sample without a column. *)
Lemma loop_no_column (decode : list Z -> string) (float32 : Q -> Q)
    (key : string)
    (score_item : DataItem -> string -> pyres Q) (data : DataProto) :
  (forall it, In it (items data) ->
     exists sc, score_item it (response_str decode it) = Ok sc) ->
  Forall (fun it => (valid_response_length it
                     <= List.length (responses it))%nat) (items data) ->
  existsb no_column (items data) = true ->
  loop decode float32 key score_item 0 (items data) (zeros_like data, [])
  = Raise IndexError.
Proof.
  intros Hsc Hle Hex.
  destruct (first_such _ _ Hex) as (l1 & bad & l2 & Hitems & Hbad & Hl1).
  destruct (@Forall_exists_Forall2 _ _ (scores_as decode score_item) l1)
    as [scores HF].
  { rewrite Forall_forall in *. intros it Hin.
    rewrite forallb_forall in Hl1. specialize (Hl1 it Hin).
    assert (Hin' : In it (items data)).
    { rewrite Hitems. apply in_or_app. now left. }
    destruct (Hsc it Hin') as [v Hv].
    exists v. split; [|exact Hv]. split; [|now apply Hle].
    unfold no_column in Hl1. destruct (responses it); [discriminate|].
    discriminate. }
  rewrite Hitems at 1.
  apply (@loop_stops decode float32 key score_item l1 bad l2 scores
           (zeros_like data) IndexError HF).
  - apply (zeros_like_rows_before data l1 (bad :: l2) Hitems).
  - intros T' info' Hrow.
    destruct (Hsc bad) as [v Hv].
    { rewrite Hitems. apply in_or_app. right. now left. }
    apply (@loop_body_no_column decode float32 key score_item _ bad T' info'
             v Hv).
    rewrite Hrow, (@zeros_like_row data l1 l2 bad Hitems).
    unfold no_column in Hbad.
    destruct (responses bad); [reflexivity | discriminate].
Qed.

(** X15.  When the response tensor has no column and the batch has no
    precomputed scores, both managers fail with [IndexError]: a sample
    with an empty response row has no last valid token to carry its
    score, and index -1 is out of bounds. *)
Theorem X15_no_column_index_error (decode : list Z -> string)
    (kk_compute_score : string -> dict -> Q) (float32 : Q -> Q)
    (Mol : Type) (o : Chem.Oracle Mol) (data : DataProto)
    (return_dict : bool) :
  rm_scores data = None ->
  Forall (fun it => (valid_response_length it
                     <= List.length (responses it))%nat) (items data) ->
  existsb no_column (items data) = true ->
  ChemRewardManager_call decode float32 o data return_dict = Raise IndexError /\
  (existsb no_ground_truth (items data) = false ->
   LogicRLRewardManager_call decode kk_compute_score float32 data return_dict
   = Raise IndexError).
Proof.
  intros Hrm Hle Hex. split.
  - unfold ChemRewardManager_call, call. rewrite Hrm.
    rewrite (@loop_no_column decode float32 "chem_score"
               (chem_score_item o) data);
      try assumption; [reflexivity|].
    intros it _. apply chem_compute_score_total.
  - intros Hgt. unfold LogicRLRewardManager_call, call. rewrite Hrm.
    rewrite (@loop_no_column decode float32 "logic_rl_score"
               (logic_rl_score_item kk_compute_score) data);
      try assumption; [reflexivity|].
    intros it Hin. apply logic_rl_score_item_ok.
    assert (H : no_ground_truth it = false).
    { destruct (no_ground_truth it) eqn:E; [|reflexivity].
      assert (existsb no_ground_truth (items data) = true)
        by (apply existsb_exists; now exists it).
      congruence. }
    unfold no_ground_truth in H. destruct (ground_truth it); discriminate.
Qed.

(** X16.  On a batch without samples the logic manager returns an empty
    tensor and no extra information, while the chemistry manager fails
    with [RuntimeError] when it summarises the empty tensor. *)
Theorem X16_empty_batch (decode : list Z -> string)
    (kk_compute_score : string -> dict -> Q) (float32 : Q -> Q)
    (Mol : Type) (o : Chem.Oracle Mol) (data : DataProto)
    (return_dict : bool) :
  rm_scores data = None ->
  items data = [] ->
  LogicRLRewardManager_call decode kk_compute_score float32 data return_dict
  = Ok (if return_dict then Dict [] [] else Tensor []) /\
  ChemRewardManager_call decode float32 o data return_dict = Raise RuntimeError.
Proof.
  intros Hrm Hit.
  unfold LogicRLRewardManager_call, ChemRewardManager_call, call, zeros_like.
  rewrite Hrm, Hit. cbn. now destruct return_dict.
Qed.

Lemma X14_missing_ground_truth_witness :
  LogicRLRewardManager_call (fun _ => EmptyString) (fun _ _ => 1)
    float32_nearest no_truth_batch false = Raise KeyError /\
  exists out,
    ChemRewardManager_call (fun _ => EmptyString) float32_nearest
      rejecting_oracle no_truth_batch false = Ok out.
Proof.
  apply (@X14_missing_ground_truth (fun _ => EmptyString) (fun _ _ => 1)
           float32_nearest unit rejecting_oracle no_truth_batch false).
  - split; [reflexivity|]. split; [discriminate|].
    apply Forall_cons; [|apply Forall_nil].
    split; [discriminate | vm_compute; lia].
  - reflexivity.
Defined.

Lemma X15_no_column_index_error_witness :
  ChemRewardManager_call (fun _ => EmptyString) float32_nearest
    rejecting_oracle no_column_batch false = Raise IndexError /\
  (existsb no_ground_truth (items no_column_batch) = false ->
   LogicRLRewardManager_call (fun _ => EmptyString) (fun _ _ => 1)
     float32_nearest no_column_batch false = Raise IndexError).
Proof.
  apply (@X15_no_column_index_error (fun _ => EmptyString) (fun _ _ => 1)
           float32_nearest unit rejecting_oracle no_column_batch false).
  - reflexivity.
  - apply Forall_cons; [vm_compute; lia | apply Forall_nil].
  - reflexivity.
Defined.

Lemma X16_empty_batch_witness :
  LogicRLRewardManager_call (fun _ => EmptyString) (fun _ _ => 1)
    float32_nearest empty_batch true = Ok (Dict [] []) /\
  ChemRewardManager_call (fun _ => EmptyString) float32_nearest
    rejecting_oracle empty_batch true = Raise RuntimeError.
Proof.
  apply (@X16_empty_batch (fun _ => EmptyString) (fun _ _ => 1)
           float32_nearest unit rejecting_oracle empty_batch true);
    reflexivity.
Defined.

(* ================================================================== *)
(** * The lookup of the scorer                                        *)
(* ================================================================== *)

Lemma contains_tail (sub : string) (c : ascii) (s : string) :
  contains sub s = true -> contains sub (String c s) = true.
Proof.
  intros H. cbn [contains]. rewrite H. apply orb_true_r.
Qed.

Lemma char_eq_exact (a b : ascii) : char_eq false a b = true -> b = a.
Proof.
  unfold char_eq. intros H. apply Ascii.eqb_eq in H. congruence.
Qed.

(** A name that holds ["newkk"] holds ["kk"]. *)
Lemma contains_newkk_kk (s : string) :
  contains "newkk" s = true -> contains "kk" s = true.
Proof.
  induction s as [|c s IH]; [discriminate|].
  cbn [contains]. intros H. apply orb_true_iff in H as [H | H].
  - destruct s as [|c2 [|c3 [|c4 [|c5 s]]]]; cbn [starts_with] in H;
      repeat (apply andb_true_iff in H as [? H]); try discriminate.
    repeat match goal with
           | E : char_eq false _ _ = true |- _ =>
               apply char_eq_exact in E; subst
           end.
    reflexivity.
  - apply orb_true_iff. right. now apply IH.
Qed.

(** X17.  A data source whose name holds ["newkk"] also holds ["kk"],
    so [_select_rm_score_fn] answers [kk.compute_score] for it, unless
    the name also holds ["countdown"], whose branch comes first. *)
Theorem X17_newkk_selects_kk (kk_compute_score : string -> dict -> Q)
    (data_source : string) :
  contains "newkk" data_source = true ->
  contains "countdown" data_source = false ->
  _select_rm_score_fn kk_compute_score data_source = Ok kk_compute_score.
Proof.
  intros Hn Hc. pose proof (contains_newkk_kk _ Hn) as Hk.
  unfold _select_rm_score_fn.
  destruct (String.eqb data_source "openai/gsm8k") eqn:E1.
  { apply String.eqb_eq in E1. subst. discriminate. }
  destruct (String.eqb data_source "lighteval/MATH") eqn:E2.
  { apply String.eqb_eq in E2. subst. discriminate. }
  now rewrite Hc, Hk.
Qed.

Lemma X17_newkk_selects_kk_witness :
  _select_rm_score_fn (fun _ _ => 1) "newkk_logic" = Ok (fun _ _ => 1).
Proof.
  apply (@X17_newkk_selects_kk (fun _ _ => 1) "newkk_logic"); reflexivity.
Defined.

(* ================================================================== *)
(** * The sign of the length-shaping score                            *)
(* ================================================================== *)

(** X18.  The length-shaping score changes sign at half the target
    length: it is negative exactly for reasoning blocks shorter than
    1000 characters, zero exactly at 1000 characters and positive exactly
    for longer ones. *)
Theorem X18_length_score_sign (n : nat) :
  (Newkk.think_length_score n < 0 <-> (n < 1000)%nat) /\
  (Newkk.think_length_score n == 0 <-> n = 1000%nat) /\
  (0 < Newkk.think_length_score n <-> (1000 < n)%nat).
Proof.
  unfold Newkk.think_length_score. cbv zeta. rewrite think_length_line.
  unfold Newkk.MAX_THINK_REWARD.
  assert (H1001 : inject_Z (Z.of_nat 1001) == 1001) by reflexivity.
  assert (H1000 : inject_Z (Z.of_nat 1000) == 1000) by reflexivity.
  assert (H999 : inject_Z (Z.of_nat 999) == 999) by reflexivity.
  assert (Hcases : (n <= 999 \/ n = 1000 \/ 1001 <= n)%nat) by lia.
  set (x := inject_Z (Z.of_nat n)) in *.
  assert (Hmin : Qmin ((1 # 250) * x - 4) 4.0 == (1 # 250) * x - 4
                 \/ (Qmin ((1 # 250) * x - 4) 4.0 == 4.0
                     /\ 4.0 <= (1 # 250) * x - 4)).
  { destruct (Qlt_le_dec ((1 # 250) * x - 4) 4.0) as [H | H].
    - left. apply Q.min_l. lra.
    - right. split; [now apply Q.min_r | exact H]. }
  destruct Hcases as [H | [H | H]].
  - pose proof (inject_nat_le H) as Hq. fold x in Hq.
    destruct Hmin as [-> | [-> Hge]]; [|lra].
    repeat split; intros; solve [lia | lra].
  - assert (Hx : x == 1000) by (unfold x; now rewrite H).
    destruct Hmin as [-> | [-> Hge]]; [|lra].
    repeat split; intros; solve [lia | lra].
  - pose proof (inject_nat_le H) as Hq. fold x in Hq.
    destruct Hmin as [-> | [-> Hge]];
      repeat split; intros; solve [lia | lra].
Qed.

(* ================================================================== *)
(** * The role map read from the ground truth                         *)
(* ================================================================== *)

Section RoleMap.
Local Open Scope string_scope.

(** Lowering a letter gives a lower-case letter. *)
Lemma lower_letter (c : ascii) :
  is_letter c = true -> is_lower (lower_char c) = true.
Proof.
  destruct c as [[] [] [] [] [] [] [] []]; vm_compute; congruence.
Qed.

Lemma letters_lower (s : string) :
  forallb is_letter (list_ascii_of_string s) = true ->
  forallb is_lower (list_ascii_of_string (lower s)) = true.
Proof.
  induction s as [|c s IH]; cbn; [reflexivity|].
  intros H. apply andb_true_iff in H as [Hc Hs].
  now rewrite (lower_letter _ Hc), IH.
Qed.

(** The run [span] takes satisfies the test. *)
Lemma span_all (p : ascii -> bool) (s : string) :
  forall prev run last rest,
    Newkk.span p prev s = (run, last, rest) ->
    forallb p (list_ascii_of_string run) = true.
Proof.
  induction s as [|c s IH]; intros prev run last rest H; cbn in H.
  - now injection H as <- _ _.
  - destruct (p c) eqn:E.
    + destruct (Newkk.span p (Some c) s) as [[run' last'] rest'] eqn:Es.
      injection H as <- _ _. cbn. rewrite E. now apply (IH _ _ _ _ Es).
    + now injection H as <- _ _.
Qed.

(** What a literal matched under [re.IGNORECASE] has passed. *)
Lemma match_lit_take (pat : string) :
  forall prev s last rest,
    Newkk.match_lit true pat prev s = Some (last, rest) ->
    lower (take (String.length pat) s) = lower pat.
Proof.
  induction pat as [|p pat IH]; intros prev s last rest H; [reflexivity|].
  destruct s as [|c s]; cbn [Newkk.match_lit] in H; [discriminate|].
  destruct (char_eq true p c) eqn:E; [|discriminate].
  cbn [String.length take lower].
  rewrite (IH _ _ _ _ H), (char_eq_ci_lower _ _ E). reflexivity.
Qed.

(** The two groups of a match of the ground-truth pattern. *)
Lemma match_gt_here_groups (prev : option ascii) (s g1 g2 : string) :
  Newkk.match_gt_here prev s = Some (g1, g2) ->
  is_name g1 /\ (lower g2 = "knight" \/ lower g2 = "knave").
Proof.
  unfold Newkk.match_gt_here.
  destruct (Newkk.boundary prev s); [|discriminate].
  destruct (Newkk.span is_letter prev s) as [[name last] r0] eqn:Es.
  destruct (truthy name && Newkk.boundary last r0) eqn:E; [|discriminate].
  apply andb_true_iff in E as [Hname _].
  destruct (Newkk.spaces1 last r0) as [[l1 r1]|]; [|discriminate].
  destruct (Newkk.match_lit true "is" l1 r1) as [[l2 r2]|]; [|discriminate].
  destruct (Newkk.spaces1 l2 r2) as [[l3 r3]|]; [|discriminate].
  destruct (Newkk.match_lit true "a" l3 r3) as [[l4 r4]|]; [|discriminate].
  destruct (Newkk.spaces1 l4 r4) as [[l5 r5]|]; [|discriminate].
  destruct (Newkk.boundary l5 r5); [|discriminate].
  assert (Hg1 : is_name name).
  { split; [now apply truthy_true | exact (span_all _ _ _ Es)]. }
  destruct (Newkk.match_lit true "knight" l5 r5) as [[l6 r6]|] eqn:Ek.
  - destruct (Newkk.boundary l6 r6); [|discriminate].
    intros H. injection H as <- <-. split; [exact Hg1|]. left.
    exact (match_lit_take _ _ _ Ek).
  - destruct (Newkk.match_lit true "knave" l5 r5) as [[l6 r6]|] eqn:Ev;
      [|discriminate].
    destruct (Newkk.boundary l6 r6); [|discriminate].
    intros H. injection H as <- <-. split; [exact Hg1|]. right.
    exact (match_lit_take _ _ _ Ev).
Qed.

Lemma search_gt_groups (line : string) :
  forall prev g1 g2,
    Newkk.search_gt prev line = Some (g1, g2) ->
    is_name g1 /\ (lower g2 = "knight" \/ lower g2 = "knave").
Proof.
  induction line as [|c line IH]; intros prev g1 g2 H;
    cbn [Newkk.search_gt] in H.
  - destruct (Newkk.match_gt_here prev "") as [[a b]|] eqn:E;
      [|discriminate].
    injection H as <- <-. exact (match_gt_here_groups _ _ E).
  - destruct (Newkk.match_gt_here prev (String c line)) as [[a b]|] eqn:E.
    + injection H as <- <-. exact (match_gt_here_groups _ _ E).
    + exact (IH _ _ _ H).
Qed.

Lemma lower_empty (s : string) : lower s = "" -> s = "".
Proof. destruct s; [reflexivity | discriminate]. Qed.

(** The entry a matched line contributes is a proper entry. *)
Lemma search_gt_entry (line g1 g2 : string) :
  Newkk.search_gt None line = Some (g1, g2) ->
  gt_entry_ok (lower g1, lower g2).
Proof.
  intros H. destruct (search_gt_groups _ _ H) as [[Hne Hl] Hrole].
  unfold gt_entry_ok. cbn [fst snd]. repeat split.
  - intros E. apply lower_empty in E. contradiction.
  - now apply letters_lower.
  - exact Hrole.
Qed.

Lemma setitem_keys (d : dict) (k v x : string) :
  In x (map fst (setitem d k v)) -> x = k \/ In x (map fst d).
Proof.
  induction d as [|[k' w] d IH]; cbn.
  - intros [H | []]. now left.
  - destruct (String.eqb k' k) eqn:E; cbn.
    + tauto.
    + intros [H | H]; [tauto|]. destruct (IH H); tauto.
Qed.

(** Assigning to a key keeps the keys distinct. *)
Lemma setitem_nodup (d : dict) (k v : string) :
  NoDup (map fst d) -> NoDup (map fst (setitem d k v)).
Proof.
  induction d as [|[k' w] d IH]; cbn; intros H.
  - constructor; [tauto | constructor].
  - inversion H as [|? ? Hnotin Hd]; subst.
    destruct (String.eqb k' k) eqn:E; cbn.
    + now constructor.
    + constructor; [|now apply IH].
      intros Hin. apply setitem_keys in Hin as [-> | Hin]; [|contradiction].
      rewrite String.eqb_refl in E. discriminate.
Qed.

Lemma setitem_forall (P : string * string -> Prop) (d : dict) (k v : string) :
  P (k, v) -> (forall k' w, String.eqb k' k = true -> P (k', w) -> P (k', v)) ->
  Forall P d -> Forall P (setitem d k v).
Proof.
  intros Hkv Hsame. induction d as [|[k' w] d IH]; cbn; intros H.
  - now constructor.
  - inversion H as [|? ? Hk' Hd]; subst.
    destruct (String.eqb k' k) eqn:E.
    + constructor; [now apply (Hsame k' w) | exact Hd].
    + constructor; [exact Hk' | now apply IH].
Qed.

Lemma setitem_entries_ok (d : dict) (k v : string) :
  gt_entry_ok (k, v) -> Forall gt_entry_ok d ->
  Forall gt_entry_ok (setitem d k v).
Proof.
  intros Hkv. apply setitem_forall; [exact Hkv|].
  intros k' w E _. apply String.eqb_eq in E. now subst.
Qed.

End RoleMap.

(** X19.  For every ground-truth text of code points below 256, the
    role map [_parse_gt_to_map] builds has pairwise distinct names, each
    made of lower-case ASCII letters and not empty, and each role is
    ["knight"] or ["knave"]. *)
Theorem X19_role_map_well_formed (gt_text : string) :
  NoDup (map fst (Newkk._parse_gt_to_map gt_text)) /\
  Forall gt_entry_ok (Newkk._parse_gt_to_map gt_text).
Proof.
  unfold Newkk._parse_gt_to_map.
  assert (H : forall (lines : list string) (acc : dict),
             NoDup (map fst acc) /\ Forall gt_entry_ok acc ->
             let m := fold_left
                        (fun gt_map line =>
                           match Newkk.search_gt None line with
                           | Some (g1, g2) => setitem gt_map (lower g1) (lower g2)
                           | None => gt_map
                           end) lines acc in
             NoDup (map fst m) /\ Forall gt_entry_ok m).
  { induction lines as [|line lines IH]; intros acc [Hn Hf]; cbn;
      [now split|].
    apply IH.
    destruct (Newkk.search_gt None line) as [[g1 g2]|] eqn:E; [|now split].
    split; [now apply setitem_nodup|].
    apply setitem_entries_ok; [|exact Hf]. exact (search_gt_entry _ E). }
  apply H. split; constructor.
Qed.

(* ================================================================== *)
(** * Reading a solution text back                                    *)
(* ================================================================== *)

Section ReadBack.
Local Open Scope string_scope.

Lemma letter_is_word (c : ascii) : is_letter c = true -> is_word c = true.
Proof.
  destruct c as [[] [] [] [] [] [] [] []]; vm_compute; congruence.
Qed.

Lemma letter_not_linebreak (c : ascii) :
  is_letter c = true -> Newkk.is_linebreak c = false.
Proof.
  destruct c as [[] [] [] [] [] [] [] []]; vm_compute; congruence.
Qed.

Lemma chars_append (a b : string) :
  list_ascii_of_string (a ++ b)
  = (list_ascii_of_string a ++ list_ascii_of_string b)%list.
Proof.
  induction a as [|c a IH]; cbn; [reflexivity | now rewrite IH].
Qed.

Lemma append_nil_r (s : string) : s ++ "" = s.
Proof.
  induction s as [|c s IH]; cbn; [reflexivity | now rewrite IH].
Qed.

Lemma last_cons (A : Type) (l : list A) :
  forall x d, last (x :: l) d = last l x.
Proof.
  induction l as [|y l IH]; intros x d; [reflexivity|].
  change (last (x :: y :: l) d) with (last (y :: l) d).
  now rewrite !IH.
Qed.

Lemma last_of_cons (prev : option ascii) (c : ascii) (s : string) :
  last_of prev (String c s) = last_of (Some c) s.
Proof.
  unfold last_of. cbn [list_ascii_of_string map]. apply last_cons.
Qed.

(** A run of letters is taken whole when no letter follows it. *)
Lemma span_letters_append (name rest : string) :
  forallb is_letter (list_ascii_of_string name) = true ->
  (match rest with
   | EmptyString => true
   | String c _ => negb (is_letter c)
   end = true) ->
  forall prev,
    Newkk.span is_letter prev (name ++ rest)
    = (name, last_of prev name, rest).
Proof.
  intros Hl Hr. induction name as [|c name IH]; intros prev.
  - cbn [append]. unfold last_of. cbn.
    destruct rest as [|d rest]; [reflexivity|].
    cbn [Newkk.span]. apply negb_true_iff in Hr. now rewrite Hr.
  - cbn in Hl. apply andb_true_iff in Hl as [Hc Hn].
    cbn [append Newkk.span]. rewrite Hc, (IH Hn (Some c)), last_of_cons.
    reflexivity.
Qed.

(** After a name comes a word character's end. *)
Lemma last_of_name_word (prev : option ascii) (name : string) :
  is_name name -> Newkk.word_opt (last_of prev name) = true.
Proof.
  intros [Hne Hl]. revert prev.
  induction name as [|c name IH]; intros prev; [contradiction|].
  cbn in Hl. apply andb_true_iff in Hl as [Hc Hn].
  rewrite last_of_cons. destruct name as [|d name].
  - unfold last_of. cbn. now apply letter_is_word.
  - apply IH; [discriminate | exact Hn].
Qed.

(** The search passes a prefix without letters. *)
Lemma search_gt_prefix (prefix s : string) :
  forallb (fun c => negb (is_letter c) && negb (Newkk.is_linebreak c))
          (list_ascii_of_string prefix) = true ->
  forall prev,
    Newkk.search_gt prev (prefix ++ s)
    = Newkk.search_gt (last_of prev prefix) s.
Proof.
  intros Hp. induction prefix as [|c prefix IH]; intros prev; [reflexivity|].
  cbn in Hp. apply andb_true_iff in Hp as [Hc Hrest].
  apply andb_true_iff in Hc as [Hc _]. apply negb_true_iff in Hc.
  cbn [append Newkk.search_gt]. unfold Newkk.match_gt_here.
  cbn [Newkk.span]. rewrite Hc. cbn [truthy andb].
  destruct (Newkk.boundary prev (String c (prefix ++ s)));
    rewrite (IH Hrest), last_of_cons; reflexivity.
Qed.

(** The pattern at the head of a name followed by [" is a "] and a
    role. *)
Lemma match_gt_here_line (prev : option ascii) (name role : string) :
  Newkk.word_opt prev = false ->
  is_name name ->
  role = "knight" \/ role = "knave" ->
  Newkk.match_gt_here prev (name ++ " is a " ++ role) = Some (name, role).
Proof.
  intros Hprev Hname Hrole. pose proof Hname as [Hne Hl].
  unfold Newkk.match_gt_here.
  assert (Hb : Newkk.boundary prev (name ++ " is a " ++ role) = true).
  { unfold Newkk.boundary. rewrite Hprev.
    destruct name as [|c name]; [contradiction|].
    cbn in Hl. apply andb_true_iff in Hl as [Hc _].
    cbn. now rewrite (letter_is_word _ Hc). }
  rewrite Hb.
  rewrite (@span_letters_append name (" is a " ++ role) Hl eq_refl prev).
  apply truthy_true in Hne. rewrite Hne.
  assert (Hb2 : Newkk.boundary (last_of prev name) (" is a " ++ role) = true).
  { unfold Newkk.boundary. now rewrite (last_of_name_word prev Hname). }
  rewrite Hb2. cbn [andb].
  destruct Hrole as [-> | ->]; reflexivity.
Qed.

(** A solution line is matched at its name. *)
Lemma search_gt_line (prefix name role : string) :
  entry_ok (prefix, name, role) ->
  Newkk.search_gt None (solution_line (prefix, name, role))
  = Some (name, role).
Proof.
  intros ([Hp Hlast] & Hname & Hrole). unfold solution_line.
  rewrite (@search_gt_prefix prefix _ Hp).
  pose proof (@match_gt_here_line _ name role Hlast Hname Hrole) as Hm.
  destruct name as [|c name]; [destruct Hname; contradiction|].
  cbn [append] in *. cbn [Newkk.search_gt]. now rewrite Hm.
Qed.

(** [splitlines] on a text without line boundary, and on a line followed
    by a newline. *)
Lemma splitlines_from_plain (s : string) :
  forallb (fun c => negb (Newkk.is_linebreak c)) (list_ascii_of_string s)
  = true ->
  forall acc,
    Newkk.splitlines_from acc s
    = if truthy (acc ++ s) then [acc ++ s] else [].
Proof.
  induction s as [|c s IH]; intros Hs acc.
  - cbn [Newkk.splitlines_from]. rewrite append_nil_r. reflexivity.
  - cbn in Hs. apply andb_true_iff in Hs as [Hc Hrest].
    apply negb_true_iff in Hc.
    cbn [Newkk.splitlines_from]. rewrite Hc, (IH Hrest), append_assoc.
    reflexivity.
Qed.

Lemma splitlines_from_line (s rest : string) :
  forallb (fun c => negb (Newkk.is_linebreak c)) (list_ascii_of_string s)
  = true ->
  forall acc,
    Newkk.splitlines_from acc (s ++ nl ++ rest)
    = (acc ++ s) :: Newkk.splitlines_from "" rest.
Proof.
  induction s as [|c s IH]; intros Hs acc.
  - rewrite append_nil_r. unfold nl. cbn [append Newkk.splitlines_from].
    change (Newkk.is_linebreak (ascii_of_nat 10)) with true. cbn iota.
    destruct rest as [|d rest]; [reflexivity|].
    change (code (ascii_of_nat 10) =? 13)%nat with false. reflexivity.
  - cbn in Hs. apply andb_true_iff in Hs as [Hc Hrest].
    apply negb_true_iff in Hc.
    cbn [append Newkk.splitlines_from]. rewrite Hc, (IH Hrest), append_assoc.
    reflexivity.
Qed.

Lemma solution_line_plain (e : string * string * string) :
  entry_ok e ->
  forallb (fun c => negb (Newkk.is_linebreak c))
          (list_ascii_of_string (solution_line e)) = true /\
  solution_line e <> "".
Proof.
  destruct e as [[prefix name] role].
  intros ([Hp _] & [Hne Hl] & Hrole). unfold solution_line. split.
  - rewrite !chars_append, !forallb_app.
    apply andb_true_iff; split; [|apply andb_true_iff; split;
                                   [|apply andb_true_iff; split]].
    + apply forallb_forall. intros c Hc.
      rewrite forallb_forall in Hp. specialize (Hp c Hc).
      now apply andb_true_iff in Hp as [_ Hp].
    + apply forallb_forall. intros c Hc.
      rewrite forallb_forall in Hl. specialize (Hl c Hc).
      now rewrite (letter_not_linebreak _ Hl).
    + reflexivity.
    + destruct Hrole as [-> | ->]; reflexivity.
  - intros E. apply (f_equal String.length) in E.
    rewrite !length_append in E. destruct name; [contradiction|].
    cbn in E. lia.
Qed.

Lemma splitlines_solution_text (entries : list (string * string * string)) :
  Forall entry_ok entries ->
  Newkk.splitlines (solution_text entries) = map solution_line entries.
Proof.
  unfold Newkk.splitlines.
  induction entries as [|e rest IH]; intros H; [reflexivity|].
  inversion H as [|? ? He Hrest]; subst.
  destruct (@solution_line_plain e He) as [Hplain Hne].
  cbn [solution_text map]. destruct rest as [|e' rest].
  - rewrite (@splitlines_from_plain _ Hplain). cbn [append].
    apply truthy_true in Hne. now rewrite Hne.
  - rewrite (@splitlines_from_line _ _ Hplain). cbn [append].
    now rewrite (IH Hrest).
Qed.

Lemma lower_role (role : string) :
  role = "knight" \/ role = "knave" -> lower role = role.
Proof. intros [-> | ->]; reflexivity. Qed.

End ReadBack.

(** Reading a solution text entry by entry. *)
Lemma parse_solution_text (entries : list (string * string * string)) :
  Forall entry_ok entries ->
  Newkk._parse_gt_to_map (solution_text entries) = assign_all entries.
Proof.
  intros H. unfold Newkk._parse_gt_to_map, assign_all.
  rewrite (@splitlines_solution_text entries H).
  generalize (@nil (string * string)) as acc.
  induction H as [|[[prefix name] role] rest He _ IH]; intros acc;
    [reflexivity|].
  cbn [map fold_left]. rewrite (@search_gt_line prefix name role He).
  destruct He as (_ & _ & Hrole). rewrite (@lower_role role Hrole). apply IH.
Qed.


(** X20.  A solution text made of lines "prefix Name is a role", joined
    by newlines, is read back entry by entry when every prefix holds no
    ASCII letter and no line boundary and does not end in a word
    character, every name is a non-empty string of ASCII letters and
    every role is ["knight"] or ["knave"]: [_parse_gt_to_map] gives the
    role map that assigns each role to the lowered name, a later line
    replacing an earlier one with the same name. *)
Theorem X20_parse_reads_back (entries : list (string * string * string)) :
  Forall entry_ok entries ->
  Newkk._parse_gt_to_map (solution_text entries) = assign_all entries.
Proof.
  apply parse_solution_text.
Qed.

Lemma X20_parse_reads_back_witness :
  Newkk._parse_gt_to_map
    (solution_text [("(1) ", "Lily", "knave"); ("(2) ", "Matthew", "knight");
                    ("(3) ", "lily", "knight")]%string)
  = [("lily", "knight"); ("matthew", "knight")]%string.
Proof.
  apply (@X20_parse_reads_back
           [("(1) ", "Lily", "knave"); ("(2) ", "Matthew", "knight");
            ("(3) ", "lily", "knight")]%string).
  repeat apply Forall_cons; try apply Forall_nil;
    (split; [split; reflexivity | split; [split; [discriminate | reflexivity] | auto]]).
Defined.

(* ================================================================== *)
(** * The dataset converter                                           *)
(* ================================================================== *)

Lemma convert_from_length (sft_data : list dict) (split : string) :
  forall idx,
    List.length (Dataset.convert_from idx sft_data split)
    = List.length sft_data.
Proof.
  induction sft_data as [|item rest IH]; intros idx; cbn; [reflexivity|].
  now rewrite IH.
Qed.

Lemma convert_from_nth (sft_data : list dict) (split : string) :
  forall idx i item,
    nth_error sft_data i = Some item ->
    nth_error (Dataset.convert_from idx sft_data split) i
    = Some (Dataset.convert_item split (idx + i) item).
Proof.
  induction sft_data as [|x rest IH]; intros idx [|i] item H;
    try discriminate.
  - injection H as <-. cbn. now rewrite Nat.add_0_r.
  - cbn. rewrite (IH (S idx) i item H). do 2 f_equal. lia.
Qed.

(** X21.  The list [main] builds for a split holds one item per kept
    sample, in the order of the input: the first [max_size] samples when
    [max_size] is not negative, all but the last [- max_size] when it is.
    The item at position [i] carries index [i], the instruction of
    sample [i] as the content of its only prompt message (empty when the
    sample has no instruction), the data source ["egfr_molecule"] and an
    empty ground truth. *)
Theorem X21_convert_split (sft_data : list dict) (max_size : Z)
    (split_name : string) :
  List.length (Dataset.convert_split sft_data max_size split_name)
  = kept_size (List.length sft_data) max_size /\
  forall i item,
    (i < kept_size (List.length sft_data) max_size)%nat ->
    nth_error sft_data i = Some item ->
    nth_error (Dataset.convert_split sft_data max_size split_name) i
    = Some {| Dataset.data_source := "egfr_molecule";
              Dataset.prompt :=
                [[("role", "user");
                  ("content", get item "instruction" "")]];
              Dataset.ability := "chemistry";
              Dataset.style := "rule";
              Dataset.ground_truth := [];
              Dataset.split := split_name;
              Dataset.index := i |}.
Proof.
  unfold Dataset.convert_split, Dataset.convert_sft_to_rl_format,
    Dataset.slice_to, kept_size.
  destruct (max_size <? Z.of_nat (List.length sft_data))%Z eqn:E.
  - apply Z.ltb_lt in E.
    destruct (max_size <? 0)%Z eqn:E0.
    + apply Z.ltb_lt in E0.
      replace (0 <=? max_size)%Z with false by (symmetry; apply Z.leb_gt; lia).
      split.
      * rewrite convert_from_length, length_firstn. lia.
      * intros i item Hi H.
        apply (convert_from_nth _ split_name 0).
        rewrite nth_error_firstn.
        replace (i <? Z.to_nat (Z.of_nat (List.length sft_data) + max_size))%nat
          with true by (symmetry; apply Nat.ltb_lt; lia).
        exact H.
    + apply Z.ltb_ge in E0.
      replace (0 <=? max_size)%Z with true by (symmetry; apply Z.leb_le; lia).
      split.
      * rewrite convert_from_length, length_firstn. lia.
      * intros i item Hi H.
        apply (convert_from_nth _ split_name 0).
        rewrite nth_error_firstn.
        replace (i <? Z.to_nat max_size)%nat
          with true by (symmetry; apply Nat.ltb_lt; lia).
        exact H.
  - apply Z.ltb_ge in E.
    replace (0 <=? max_size)%Z with true by (symmetry; apply Z.leb_le; lia).
    split.
    + rewrite convert_from_length. lia.
    + intros i item _ H. now apply (convert_from_nth _ split_name 0).
Qed.

(* ================================================================== *)
(** * What the molecule score depends on                              *)
(* ================================================================== *)

Section Dependence.
Local Open Scope string_scope.

Lemma lt_free_lstrip (s : string) : lt_free s = true -> lt_free (lstrip s) = true.
Proof.
  induction s as [|c s IH]; [reflexivity|].
  intros H. cbn [lstrip]. destruct (is_space c); [|exact H].
  cbn [lt_free] in H. apply andb_true_iff in H as [_ H]. now apply IH.
Qed.

Lemma lt_free_rstrip (s : string) : lt_free s = true -> lt_free (rstrip s) = true.
Proof.
  induction s as [|c s IH]; [reflexivity|].
  intros H. cbn [lt_free] in H. apply andb_true_iff in H as [Hc Hs].
  cbn [rstrip]. destruct (rstrip s) as [|d r] eqn:E.
  - destruct (is_space c); [reflexivity|]. cbn [lt_free]. now rewrite Hc.
  - cbn [lt_free]. rewrite Hc. cbn [andb]. now apply IH.
Qed.

Lemma lt_free_strip (s : string) : lt_free s = true -> lt_free (strip s) = true.
Proof.
  intros H. unfold strip. now apply lt_free_rstrip, lt_free_lstrip.
Qed.

End Dependence.

(** X22.  The molecule score of a response with one tagged SMILES
    depends only on the stripped inner text: the text around the tags,
    the letter casing of the tags, the blanks around the SMILES and the
    ground truth do not change it.  It equals the score of the bare
    response [<SMILES>inner</SMILES>]. *)
Theorem X22_chem_score_depends_on_inner (Mol : Type) (o : Chem.Oracle Mol)
    (pre op inner cl post : string) (g1 g2 : dict) :
  tagged_smiles pre op inner cl post ->
  strip inner <> EmptyString ->
  Chem.compute_score o (pre ++ op ++ inner ++ cl ++ post)%string g1
  = Chem.compute_score o ("<SMILES>" ++ strip inner ++ "</SMILES>")%string g2.
Proof.
  intros Htag Hne.
  assert (Hbare : Chem.check_format
                    ("<SMILES>" ++ strip inner ++ "</SMILES>")%string
                  = (1.0, Some (strip inner))).
  { pose proof (@check_format_tagged "" "<SMILES>" (strip inner)
                  "</SMILES>" "") as H.
    rewrite strip_idem in H. apply H; [|exact Hne].
    destruct Htag as (_ & Hin & _).
    repeat split; try reflexivity. now apply lt_free_strip. }
  unfold Chem.compute_score.
  now rewrite (check_format_tagged Htag Hne), Hbare.
Qed.

Lemma X22_chem_score_depends_on_inner_witness :
  Chem.compute_score no_sa_oracle
    "The molecule is <smiles> CCO </SMILES>, an alcohol." liar_truth
  = Chem.compute_score no_sa_oracle "<SMILES>CCO</SMILES>" [].
Proof.
  apply (@X22_chem_score_depends_on_inner unit no_sa_oracle
           "The molecule is " "<smiles>" " CCO " "</SMILES>" ", an alcohol."
           liar_truth []).
  - repeat split; reflexivity.
  - discriminate.
Defined.

(* ================================================================== *)
(** * An answer that repeats the solution                             *)
(* ================================================================== *)

Section Repeat.
Local Open Scope string_scope.

Lemma lower_char_idem (c : ascii) : lower_char (lower_char c) = lower_char c.
Proof.
  destruct c as [[] [] [] [] [] [] [] []]; vm_compute; reflexivity.
Qed.

Lemma last_of_append (prev : option ascii) (a b : string) :
  last_of prev (a ++ b) = last_of (last_of prev a) b.
Proof.
  revert prev. induction a as [|c a IH]; intros prev; [reflexivity|].
  cbn [append]. now rewrite !last_of_cons, IH.
Qed.

(** The lowered name matches the name itself when case is ignored. *)
Lemma match_lit_lowered (name tail : string) :
  forall prev,
    Newkk.match_lit true (lower name) prev (name ++ tail)
    = Some (last_of prev name, tail).
Proof.
  induction name as [|c name IH]; intros prev; [reflexivity|].
  cbn [lower append Newkk.match_lit]. unfold char_eq.
  now rewrite lower_char_idem, Ascii.eqb_refl, IH, last_of_cons.
Qed.

Lemma match_word_name (prev : option ascii) (name tail : string) :
  Newkk.word_opt prev = false ->
  is_name name ->
  Newkk.word_opt (Newkk.head tail) = false ->
  Newkk.match_word true (lower name) prev (name ++ tail)
  = Some (last_of prev name, tail).
Proof.
  intros Hprev Hname Htail. pose proof Hname as [Hne Hl].
  unfold Newkk.match_word.
  assert (Hb : Newkk.boundary prev (name ++ tail) = true).
  { unfold Newkk.boundary. rewrite Hprev.
    destruct name as [|c name]; [contradiction|].
    cbn in Hl. apply andb_true_iff in Hl as [Hc _].
    cbn. now rewrite (@letter_is_word c Hc). }
  rewrite Hb, match_lit_lowered.
  unfold Newkk.boundary.
  now rewrite (@last_of_name_word prev name Hname), Htail.
Qed.

Lemma dotstar_word_here (role : string) (prev : option ascii) (s : string) :
  Newkk.is_some (Newkk.match_word true role prev s) = true ->
  Newkk.dotstar_word role prev s = true.
Proof.
  intros H. destruct s as [|c s]; cbn [Newkk.dotstar_word];
    [exact H | rewrite H; apply orb_true_r].
Qed.

Lemma dotstar_word_pass (role : string) (prev : option ascii) (c : ascii)
    (s : string) :
  (code c =? 10)%nat = false ->
  Newkk.dotstar_word role (Some c) s = true ->
  Newkk.dotstar_word role prev (String c s) = true.
Proof.
  intros Hc H. cbn [Newkk.dotstar_word]. now rewrite Hc, H.
Qed.

(** After the name, [" is a "] and the role satisfy the rest of the
    assertion pattern. *)
Lemma dotstar_word_role (prev : option ascii) (role rest : string) :
  role = "knight" \/ role = "knave" ->
  Newkk.word_opt (Newkk.head rest) = false ->
  Newkk.dotstar_word role prev (" is a " ++ role ++ rest) = true.
Proof.
  intros Hrole Hrest.
  assert (Hhit : Newkk.is_some
                   (Newkk.match_word true role (Some " "%char) (role ++ rest))
                 = true).
  { unfold Newkk.match_word.
    destruct Hrole as [-> | ->]; cbn [append];
      (replace (Newkk.boundary _ _) with true by reflexivity);
      cbn [Newkk.match_lit]; unfold char_eq;
      repeat (rewrite Ascii.eqb_refl); unfold Newkk.boundary;
      rewrite Hrest; reflexivity. }
  cbn [append].
  repeat (apply dotstar_word_pass; [reflexivity|]).
  now apply dotstar_word_here.
Qed.

Lemma search_assertion_here (name role : string) (prev last : option ascii)
    (s rest : string) :
  Newkk.match_word true name prev s = Some (last, rest) ->
  Newkk.dotstar_word role last rest = true ->
  Newkk.search_assertion name role prev s = true.
Proof.
  intros Hm Hd. destruct s as [|c s]; cbn [Newkk.search_assertion];
    now rewrite Hm, Hd.
Qed.

Lemma search_assertion_pass (name role : string) (pre s : string) :
  forall prev,
    Newkk.search_assertion name role (last_of prev pre) s = true ->
    Newkk.search_assertion name role prev (pre ++ s) = true.
Proof.
  induction pre as [|c pre IH]; intros prev H; [exact H|].
  cbn [append Newkk.search_assertion]. rewrite last_of_cons in H.
  rewrite (IH _ H). apply orb_true_r.
Qed.

(** In front of a name the prefix leaves no word character. *)
Lemma last_of_prefix (prev : option ascii) (prefix : string) :
  Newkk.word_opt prev = false ->
  plain_prefix prefix ->
  Newkk.word_opt (last_of prev prefix) = false.
Proof.
  intros Hprev [_ Hlast]. destruct prefix as [|c prefix]; [exact Hprev|].
  now rewrite last_of_cons in *.
Qed.

(** A solution line satisfies the assertion pattern of its own entry,
    whatever stands in front of it and behind it on other lines. *)
Lemma search_assertion_line (before after prefix name role : string) :
  entry_ok (prefix, name, role) ->
  Newkk.word_opt (last_of None before) = false ->
  Newkk.word_opt (Newkk.head after) = false ->
  Newkk.search_assertion (lower name) role None
    (before ++ solution_line (prefix, name, role) ++ after)
  = true.
Proof.
  intros (Hp & Hname & Hrole) Hbefore Hafter. unfold solution_line.
  assert (E : before ++ (prefix ++ name ++ " is a " ++ role) ++ after
              = (before ++ prefix) ++ name ++ " is a " ++ role ++ after)
    by (now rewrite !append_assoc).
  rewrite E. apply search_assertion_pass.
  rewrite last_of_append.
  pose proof (@last_of_prefix _ prefix Hbefore Hp) as Hprev.
  apply (@search_assertion_here (lower name) role _
           (last_of (last_of (last_of None before) prefix) name)
           _ (" is a " ++ role ++ after)).
  - apply match_word_name; [exact Hprev | exact Hname | reflexivity].
  - now apply dotstar_word_role.
Qed.

Lemma head_nl (s : string) : Newkk.word_opt (Newkk.head (nl ++ s)) = false.
Proof. reflexivity. Qed.

Lemma last_of_nl (prev : option ascii) (s : string) :
  Newkk.word_opt (last_of prev (s ++ nl)) = false.
Proof.
  rewrite last_of_append. reflexivity.
Qed.

(** Every entry has its line in the solution text, between line ends. *)
Lemma solution_text_line (entries : list (string * string * string))
    (e : string * string * string) :
  In e entries ->
  exists before after,
    solution_text entries = before ++ solution_line e ++ after /\
    Newkk.word_opt (last_of None before) = false /\
    Newkk.word_opt (Newkk.head after) = false.
Proof.
  induction entries as [|e0 rest IH]; intros Hin; [contradiction|].
  cbn [solution_text]. destruct Hin as [-> | Hin].
  - exists "". destruct rest as [|e1 rest].
    + exists "". rewrite append_nil_r. now repeat split.
    + exists (nl ++ solution_text (e1 :: rest)). now repeat split.
  - destruct rest as [|e1 rest]; [contradiction|].
    destruct (IH Hin) as (before & after & Ht & Hb & Ha).
    exists (solution_line e0 ++ nl ++ before), after. split; [|split].
    + rewrite Ht, !append_assoc. reflexivity.
    + rewrite <- append_assoc, last_of_append.
      destruct before as [|c before]; [apply last_of_nl|].
      rewrite last_of_cons. rewrite last_of_cons in Hb. exact Hb.
    + exact Ha.
Qed.

Lemma setitem_in (d : dict) (k v : string) (kv : string * string) :
  In kv (setitem d k v) -> kv = (k, v) \/ In kv d.
Proof.
  induction d as [|[k' w] d IH]; cbn.
  - intros [H | []]. now left.
  - destruct (String.eqb k' k) eqn:E; cbn.
    + apply String.eqb_eq in E. subst. intros [H | H]; [now left | now right; right].
    + intros [H | H]; [now right; left|]. destruct (IH H); [now left | now right; right].
Qed.

(** Every pair of the assigned role map comes from an entry. *)
Lemma assign_all_in (entries : list (string * string * string))
    (kv : string * string) :
  In kv (assign_all entries) ->
  exists prefix name role,
    In (prefix, name, role) entries /\ kv = (lower name, role).
Proof.
  unfold assign_all.
  assert (H : forall (l : list (string * string * string)) (acc : dict),
             (forall x, In x acc ->
                exists prefix name role,
                  In (prefix, name, role) entries /\ x = (lower name, role)) ->
             incl l entries ->
             In kv (fold_left
                      (fun gt_map (e : string * string * string) =>
                         let '(_, name, role) := e in
                         setitem gt_map (lower name) role) l acc) ->
             exists prefix name role,
               In (prefix, name, role) entries /\ kv = (lower name, role)).
  { induction l as [|[[p n] r] l IH]; intros acc Hacc Hincl Hin; cbn in Hin.
    - now apply Hacc.
    - apply (IH (setitem acc (lower n) r)); [| |exact Hin].
      + intros x Hx. apply setitem_in in Hx as [-> | Hx]; [|now apply Hacc].
        exists p, n, r. split; [apply Hincl; now left | reflexivity].
      + intros x Hx. apply Hincl. now right. }
  apply H; [intros x [] | apply incl_refl].
Qed.

End Repeat.

(** X23.  An answer that repeats the solution text gets every pair of
    the role map counted: [num_correct_assertions] equals the size of the
    role map read from that text. *)
Theorem X23_repeated_solution_all_correct
    (entries : list (string * string * string)) :
  Forall entry_ok entries ->
  Newkk.num_correct_assertions
    (Newkk._parse_gt_to_map (solution_text entries)) (solution_text entries)
  = List.length (Newkk._parse_gt_to_map (solution_text entries)).
Proof.
  intros Hok.
  rewrite (@parse_solution_text entries Hok).
  rewrite num_correct_assertions_filter. f_equal.
  apply forallb_filter_id. apply forallb_forall. intros kv Hin.
  destruct (assign_all_in entries kv Hin) as (p & n & r & He & ->).
  cbn [fst snd].
  destruct (solution_text_line entries _ He) as (before & after & -> & Hb & Ha).
  rewrite Forall_forall in Hok.
  exact (@search_assertion_line before after p n r (Hok _ He) Hb Ha).
Qed.

Lemma X23_repeated_solution_all_correct_witness :
  Newkk.num_correct_assertions
    (Newkk._parse_gt_to_map
       (solution_text [("(1) ", "Lily", "knave");
                       ("(2) ", "Matthew", "knight")]%string))
    (solution_text [("(1) ", "Lily", "knave");
                    ("(2) ", "Matthew", "knight")]%string)
  = List.length
      (Newkk._parse_gt_to_map
         (solution_text [("(1) ", "Lily", "knave");
                         ("(2) ", "Matthew", "knight")]%string)).
Proof.
  apply (@X23_repeated_solution_all_correct
           [("(1) ", "Lily", "knave"); ("(2) ", "Matthew", "knight")]%string).
  repeat apply Forall_cons; try apply Forall_nil;
    (split; [split; reflexivity
            | split; [split; [discriminate | reflexivity] | auto]]).
Defined.
